(** * ACA2025 gem5 lab kernels: a shallow embedding and its properties

    The repository is a set of independent C benchmark programs.  Each
    [Module] below embeds one source file: C [int] values are [Z], arrays are
    lists indexed from 0, [float] and [double] are IEEE-754 binary32 and
    binary64 values ([spec_float] with the matching precision), each
    operation rounding once to the format of its operands (no wider
    intermediate format, no fused multiply-add), and every array access is
    checked, so that an access outside the array (undefined behaviour in C)
    makes the embedded program return [None].  What the C library decides
    ([malloc], [rand], [clock], the heap contents) is a parameter of a run,
    the record [env]; standard output is the list of the [printf] calls, with
    [stdout_text] giving its text.

    The first part is the embedding, one [Module] per source file; the
    second part proves the properties, the numbered ones (C1 to C10) being
    the claims of the specification. *)

From Stdlib Require Import ZArith NArith List Lia String Ascii DecimalString.
From Stdlib Require Import Floats.SpecFloat.
From stdpp Require Import base option list.

Open Scope Z_scope.

(** ** Counted loops *)

(** [for_iter body cnt i s] runs [cnt] iterations of [body], the loop variable
    starting at [i] and growing by [step]. *)
Fixpoint for_iter {S : Type} (body : Z -> S -> option S) (step : Z)
    (cnt : nat) (i : Z) (s : S) : option S :=
  match cnt with
  | O => Some s
  | Datatypes.S cnt' => s' ← body i s; for_iter body step cnt' (i + step) s'
  end.

(** Number of iterations of [for (i = lo; i < hi; i += step)], [step > 0]. *)
Definition trip_count (lo hi step : Z) : nat :=
  Z.to_nat ((hi - lo + step - 1) / step).

(** [for (int i = lo; i < hi; i += step) body] *)
Definition for_step {S : Type} (lo hi step : Z) (body : Z -> S -> option S)
    (s : S) : option S :=
  for_iter body step (trip_count lo hi step) lo s.

(** [for (int i = lo; i < hi; i++) body] *)
Definition for_loop {S : Type} (lo hi : Z) (body : Z -> S -> option S)
    (s : S) : option S :=
  for_step lo hi 1 body s.

(** [P] holds at the [cnt] integers from [i] on. *)
Fixpoint all_from (P : Z -> bool) (cnt : nat) (i : Z) : bool :=
  match cnt with
  | O => true
  | Datatypes.S cnt' => P i && all_from P cnt' (i + 1)
  end.

(** ** Arrays with checked accesses *)

Definition aget {T : Type} (a : list T) (i : Z) : option T :=
  if 0 <=? i then a !! Z.to_nat i else None.

Definition aset {T : Type} (a : list T) (i : Z) (v : T) : option (list T) :=
  if (0 <=? i) && (i <? Z.of_nat (length a))
  then Some (<[Z.to_nat i := v]> a) else None.

(** Two-dimensional arrays, [M[i][j]]: a list of rows. *)
Definition matrix (T : Type) : Type := list (list T).

Definition mget {T : Type} (M : matrix T) (i j : Z) : option T :=
  row ← aget M i; aget row j.

Definition mset {T : Type} (M : matrix T) (i j : Z) (v : T)
    : option (matrix T) :=
  row ← aget M i; row' ← aset row j v; aset M i row'.

(** [M] has [n] rows of [m] cells each. *)
Definition is_matrix {T : Type} (n m : Z) (M : matrix T) : Prop :=
  Z.of_nat (length M) = n /\
  Forall (fun row => Z.of_nat (length row) = m) M.

(** ** Arithmetic of the element types *)

Class Arith (T : Type) := {
  zero : T;
  add : T -> T -> T;
  mul : T -> T -> T;
  of_int : Z -> T
}.

(** The cell [M[i][j]] as a total function, and matrices described by the
    function that gives their cells. *)
Definition cell {T : Type} (d : T) (M : matrix T) (i j : Z) : T :=
  default d (mget M i j).

Definition cells_are {T : Type} (n m : Z) (M : matrix T) (f : Z -> Z -> T)
    : Prop :=
  is_matrix n m M /\
  (forall i j, 0 <= i < n -> 0 <= j < m -> mget M i j = Some (f i j)).

Definition upd {T : Type} (f : Z -> Z -> T) (i j : Z) (v : T) : Z -> Z -> T :=
  fun i' j' => if (i' =? i) && (j' =? j) then v else f i' j'.

(** The dot product of row [i] of [a] and column [j] of [b] over the first
    [cnt] indices, added term by term to [c0] in increasing index order. *)
Definition dot_acc {T : Type} `{Arith T} (a b : Z -> Z -> T) (i j : Z)
    (cnt : nat) (c0 : T) : T :=
  fold_left (fun acc k => add acc (mul (a i (Z.of_nat k)) (b (Z.of_nat k) j)))
            (seq 0 cnt) c0.

(** The same for one-dimensional arrays: [a] has [n] cells, cell [i] holding
    [f i]. *)
Definition elems_are {T : Type} (n : Z) (a : list T) (f : Z -> T) : Prop :=
  Z.of_nat (length a) = n /\
  (forall i, 0 <= i < n -> aget a i = Some (f i)).

(** Arrays under initialisation: the cells below [k] already hold their
    final value [v], the others still hold [f]. *)
Definition sel1 {T : Type} (k : Z) (v f : Z -> T) : Z -> T :=
  fun i => if i <? k then v i else f i.

(** Matrices under initialisation: the cells marked by [d] already hold
    their final value [v], the others still hold [f]. *)
Definition sel {T : Type} (d : Z -> Z -> bool) (v f : Z -> Z -> T)
    : Z -> Z -> T :=
  fun i j => if d i j then v i j else f i j.

(** Two row tables of the same length with the same rows from [lo] up to
    [hi] (the other rows may differ, or be missing in one of them). *)
Definition agree_on_rows {T : Type} (lo hi : Z) (m1 m2 : matrix T) : Prop :=
  length m1 = length m2 /\
  forall r, lo <= r < hi -> aget m1 r = aget m2 r.

(** Cells [M[i'][j']] written before iteration [(i, j)] of a nest with [i]
    outermost, and cells [M[y'][x']] written before iteration [(x, y)] of a
    nest with the column [x] outermost. *)
Definition rows_done (i j : Z) : Z -> Z -> bool :=
  fun i' j' => (i' <? i) || ((i' =? i) && (j' <? j)).

Definition cols_done (x y : Z) : Z -> Z -> bool :=
  fun y' x' => (x' <? x) || ((x' =? x) && (y' <? y)).

(** How far a multiply-accumulate loop nest has got: [dotp a b f p] is the
    matrix whose cell [(i, j)] holds the initial value [f i j] plus the first
    [p i j] terms of the dot product. *)
Definition dotp {T : Type} `{Arith T} (a b f : Z -> Z -> T)
    (p : Z -> Z -> nat) : Z -> Z -> T :=
  fun i j => dot_acc a b i j (p i j) (f i j).

(** Terms accumulated per cell when the [i], [j], [k] nest is about to run
    iteration [(i, j, k)]. *)
Definition ijk_progress (n i j k : Z) : Z -> Z -> nat :=
  fun i' j' =>
    if i' <? i then Z.to_nat n
    else if i' =? i
         then (if j' <? j then Z.to_nat n
               else if j' =? j then Z.to_nat k else O)
         else O.

(** The same when the [i], [k], [j] nest is about to run iteration
    [(i, k, j)]. *)
Definition ikj_progress (n i k j : Z) : Z -> Z -> nat :=
  fun i' j' =>
    if i' <? i then Z.to_nat n
    else if i' =? i
         then (if j' <? j then Z.to_nat (k + 1) else Z.to_nat k)
         else O.

(** IEEE-754 binary32 ([float]) and binary64 ([double]); every operation
    rounds to nearest, ties to even, in the format of its operands. *)
Inductive float32 := Float32 (x : spec_float).
Inductive float64 := Float64 (x : spec_float).

Module F32.
Definition prec : Z := 24.
Definition emax : Z := 128.
Definition bits (x : float32) : spec_float := let 'Float32 v := x in v.
Definition fadd (x y : float32) : float32 :=
  Float32 (SFadd prec emax (bits x) (bits y)).
Definition fsub (x y : float32) : float32 :=
  Float32 (SFsub prec emax (bits x) (bits y)).
Definition fmul (x y : float32) : float32 :=
  Float32 (SFmul prec emax (bits x) (bits y)).
(** Conversion from an integer type. *)
Definition of_Z (z : Z) : float32 :=
  Float32 (binary_normalize prec emax z 0 false).
(** The binary fraction [m * 2^e], such as the literal [0.5f]. *)
Definition of_dyadic (m e : Z) : float32 :=
  Float32 (binary_normalize prec emax m e false).
Definition ltb (x y : float32) : bool := SFltb (bits x) (bits y).
Definition eqb (x y : float32) : bool := SFeqb (bits x) (bits y).
Definition pzero : float32 := Float32 (S754_zero false).
End F32.

Module F64.
Definition prec : Z := 53.
Definition emax : Z := 1024.
Definition bits (x : float64) : spec_float := let 'Float64 v := x in v.
Definition fadd (x y : float64) : float64 :=
  Float64 (SFadd prec emax (bits x) (bits y)).
Definition fsub (x y : float64) : float64 :=
  Float64 (SFsub prec emax (bits x) (bits y)).
Definition fmul (x y : float64) : float64 :=
  Float64 (SFmul prec emax (bits x) (bits y)).
Definition fdiv (x y : float64) : float64 :=
  Float64 (SFdiv prec emax (bits x) (bits y)).
(** Conversion from an integer type. *)
Definition of_Z (z : Z) : float64 :=
  Float64 (binary_normalize prec emax z 0 false).
(** The binary fraction [m * 2^e]; the literals of the sources (2.5, 1.5,
    10.0, 1000.0, 1024.0) are all of this form. *)
Definition of_dyadic (m e : Z) : float64 :=
  Float64 (binary_normalize prec emax m e false).
Definition ltb (x y : float64) : bool := SFltb (bits x) (bits y).
Definition eqb (x y : float64) : bool := SFeqb (bits x) (bits y).
Definition leb (x y : float64) : bool := SFleb (bits x) (bits y).
Definition pzero : float64 := Float64 (S754_zero false).
(** Conversion [float] to [double] (the default argument promotion of
    [printf]): the same value, with a binary64 mantissa. *)
Definition of_float (x : float32) : float64 :=
  match F32.bits x with
  | S754_finite s m e =>
      Float64 (binary_normalize prec emax (cond_Zopp s (Zpos m)) e s)
  | v => Float64 v
  end.
End F64.

#[export] Instance float32_arith : Arith float32 :=
  {| zero := F32.pzero; add := F32.fadd; mul := F32.fmul;
     of_int := F32.of_Z |}.

#[export] Instance float64_arith : Arith float64 :=
  {| zero := F64.pzero; add := F64.fadd; mul := F64.fmul;
     of_int := F64.of_Z |}.

(** The exact integers also form an instance, used to cross-check values. *)
#[export] Instance Z_arith : Arith Z :=
  {| zero := 0; add := Z.add; mul := Z.mul; of_int := fun z => z |}.

(** ** The C library as the programs see it *)

(** What a run cannot control: whether each [malloc] succeeds, the contents
    of fresh heap memory, the readings of [clock()], the value of
    [CLOCKS_PER_SEC], and the generator behind [rand()] ([env_rand seed k] is
    the [k]-th value after [srand(seed)]; [rand] never returns a negative
    number). *)
Record env := {
  env_malloc : nat -> bool;
  env_junk8 : nat -> nat -> Z;
  env_junk64 : nat -> nat -> float64;
  env_clock : nat -> Z;
  env_clocks_per_sec : Z;
  env_rand : Z -> nat -> N
}.

(** An argument of a [printf] call.  [Elapsed] is a value computed from the
    difference of two [clock()] readings, [Rate] a figure derived from it,
    [DataF] and [DataI] a floating-point or integer value read from the
    program's arrays or accumulators. *)
Inductive parg :=
  | Elapsed (d : float64)
  | Rate (d : float64)
  | DataF (d : float64)
  | DataI (z : Z).

(** One call of [printf]: the format string and the arguments. *)
Record event := Printf { ev_fmt : string; ev_args : list parg }.

Record world := {
  w_env : env;
  w_mallocs : nat;       (* calls of malloc so far *)
  w_clocks : nat;        (* calls of clock so far *)
  w_seed : Z;            (* argument of the last srand; 1 before any *)
  w_rands : nat;         (* calls of rand since the last srand *)
  w_out : list event     (* standard output, oldest first *)
}.

Definition init_world (e : env) : world :=
  {| w_env := e; w_mallocs := 0; w_clocks := 0; w_seed := 1; w_rands := 0;
     w_out := [] |}.

(** Updates of one component of the world. *)
Definition set_mallocs (k : nat) (w : world) : world :=
  {| w_env := w_env w; w_mallocs := k; w_clocks := w_clocks w;
     w_seed := w_seed w; w_rands := w_rands w; w_out := w_out w |}.

Definition set_clocks (k : nat) (w : world) : world :=
  {| w_env := w_env w; w_mallocs := w_mallocs w; w_clocks := k;
     w_seed := w_seed w; w_rands := w_rands w; w_out := w_out w |}.

Definition set_rand (seed : Z) (k : nat) (w : world) : world :=
  {| w_env := w_env w; w_mallocs := w_mallocs w; w_clocks := w_clocks w;
     w_seed := seed; w_rands := k; w_out := w_out w |}.

Definition add_out (evs : list event) (w : world) : world :=
  {| w_env := w_env w; w_mallocs := w_mallocs w; w_clocks := w_clocks w;
     w_seed := w_seed w; w_rands := w_rands w; w_out := w_out w ++ evs |}.

(** Programs: a state monad over [world] that can fail (undefined
    behaviour). *)
Definition M (A : Type) : Type := world -> option (A * world).

Definition ret {A : Type} (a : A) : M A := fun w => Some (a, w).

Definition bind {A B : Type} (c : M A) (k : A -> M B) : M B :=
  fun w => match c w with Some (a, w') => k a w' | None => None end.

Definition lift {A : Type} (o : option A) : M A :=
  fun w => match o with Some a => Some (a, w) | None => None end.

Notation "'let*' x ':=' c 'in' k" := (bind c (fun x => k))
  (at level 10, x name, c at level 100, k at level 200).

Definition for_loopM {S : Type} (lo hi : Z) (body : Z -> S -> M S) (s : S)
    : M S :=
  fun w => for_loop lo hi (fun i sw => body i (fst sw) (snd sw)) (s, w).

(** [malloc] of [n] cells: [None] is the NULL pointer. *)
Definition malloc {T : Type} (junk : env -> nat -> nat -> T) (n : Z)
    : M (option (list T)) :=
  fun w =>
    let k := w_mallocs w in
    let p := if env_malloc (w_env w) k
             then Some (map (junk (w_env w) k) (seq 0 (Z.to_nat n)))
             else None in
    Some (p, set_mallocs (Datatypes.S k) w).

(** The cells behind a pointer: none behind NULL, so that every access
    through NULL fails. *)
Definition cells {T : Type} (p : option (list T)) : list T :=
  match p with Some a => a | None => [] end.

(** The [cnt] calls of [malloc] from the [k]-th on all succeed. *)
Definition mallocs_ok (e : env) (k cnt : nat) : Prop :=
  forall j, (k <= j < k + cnt)%nat -> env_malloc e j = true.

Definition clock : M Z :=
  fun w =>
    Some (env_clock (w_env w) (w_clocks w),
          set_clocks (Datatypes.S (w_clocks w)) w).

Definition srand (seed : Z) : M unit :=
  fun w => Some (tt, set_rand seed 0 w).

Definition rand : M Z :=
  fun w =>
    Some (Z.of_N (env_rand (w_env w) (w_seed w) (w_rands w)),
          set_rand (w_seed w) (Datatypes.S (w_rands w)) w).

Definition printf (fmt : string) (args : list parg) : M unit :=
  fun w => Some (tt, add_out [Printf fmt args] w).

(** The newline character that ends every format string. *)
Definition nl : string := String (Ascii.ascii_of_nat 10) EmptyString.

(** [CLOCKS_PER_SEC] as a [double]. *)
Definition clocks_per_sec : M float64 :=
  fun w => Some (F64.of_Z (env_clocks_per_sec (w_env w)), w).

(** Range of [int]; an [int] expression whose value leaves it is undefined. *)
Definition INT_MIN : Z := -2147483648.
Definition INT_MAX : Z := 2147483647.
Definition int_ok (z : Z) : option Z :=
  if (INT_MIN <=? z) && (z <=? INT_MAX) then Some z else None.

(** Conversion to [unsigned char]. *)
Definition to_uchar (z : Z) : Z := z mod 256.

(** ** Lab_2/kernels/mmm.c *)

Module Mmm.

Definition N : Z := 128.

(** The three global arrays [A], [B], [C]. *)
Record globals (T : Type) := Globals {
  gA : matrix T;
  gB : matrix T;
  gC : matrix T
}.
Arguments Globals {T} _ _ _.
Arguments gA {T} _.
Arguments gB {T} _.
Arguments gC {T} _.

Section Kernel.
Context {T : Type} `{Arith T}.

(** The loop nests at an arbitrary size [n]; the program runs them at
    [N]. *)
Definition init_matrices_n (n : Z) (g : globals T) : option (globals T) :=
  for_loop 0 n (fun i g =>
    for_loop 0 n (fun j g =>
      a ← mset (gA g) i j (of_int (i + j));
      b ← mset (gB g) i j (of_int (i - j));
      c ← mset (gC g) i j zero;
      Some (Globals a b c)) g) g.

Definition matrix_multiply_naive_n (n : Z) (g : globals T)
    : option (globals T) :=
  for_loop 0 n (fun i g =>
    for_loop 0 n (fun j g =>
      for_loop 0 n (fun k g =>
        c ← mget (gC g) i j;
        a ← mget (gA g) i k;
        b ← mget (gB g) k j;
        c' ← mset (gC g) i j (add c (mul a b));
        Some (Globals (gA g) (gB g) c')) g) g) g.

(** Objects of static storage duration start out zeroed. *)
Definition zeros (n m : Z) : matrix T :=
  replicate (Z.to_nat n) (replicate (Z.to_nat m) zero).

Definition static_globals (n : Z) : globals T :=
  Globals (zeros n n) (zeros n n) (zeros n n).
End Kernel.

Definition init_matrices : globals float32 -> option (globals float32) :=
  init_matrices_n N.

Definition matrix_multiply_naive
    : globals float32 -> option (globals float32) :=
  matrix_multiply_naive_n N.

(** [1000.0 * (end - start) / CLOCKS_PER_SEC] *)
Definition millis (start stop : Z) (cps : float64) : float64 :=
  F64.fdiv (F64.fmul (F64.of_Z 1000) (F64.of_Z (stop - start))) cps.

(** [main] up to the second [clock()]. *)
Definition main_kernel : M (globals float32 * Z * Z) :=
  let* start := clock in
  let* g := lift (init_matrices (static_globals N)) in
  let* g := lift (matrix_multiply_naive g) in
  let* stop := clock in
  ret (g, start, stop).

Definition main : M Z :=
  let* r := main_kernel in
  let '(g, start, stop) := r in
  let* c00 := lift (mget (gC g) 0 0) in
  let* cps := clocks_per_sec in
  let* _ := printf ("Done MMM Naive. C[0][0]=%f Time=%.2f ms" ++ nl)
              [DataF (F64.of_float c00); Elapsed (millis start stop cps)] in
  ret 0.

End Mmm.

(** ** kernels/matrix_mult_unopt.c *)

Module MatrixMultUnopt.

Definition SIZE : Z := 256.

Section Kernel.
Context {T : Type} `{Arith T}.

Definition matrix_multiply (A B C : matrix T) (n : Z)
    : option (matrix T) :=
  for_loop 0 n (fun i C =>
    for_loop 0 n (fun k C =>
      for_loop 0 n (fun j C =>
        c ← mget C i j;
        a ← mget A i k;
        b ← mget B k j;
        mset C i j (add c (mul a b))) C) C) C.

Definition zero_matrix (m : matrix T) (n : Z) : option (matrix T) :=
  for_loop 0 n (fun i m =>
    for_loop 0 n (fun j m => mset m i j zero) m) m.
End Kernel.

(** The value stored by [initialize_matrix] from the [k]-th number of the
    generator seeded with [seed]: [(double)(rand() % 100) / 10.0]. *)
Definition rand_cell (e : env) (seed : Z) (k : nat) : float64 :=
  F64.fdiv (F64.of_Z (Z.rem (Z.of_N (env_rand e seed k)) 100))
           (F64.of_dyadic 10 0).

(** The row table is filled row by row; a failed [malloc] leaves a NULL
    pointer there (or makes the table itself NULL), which nothing tests. *)
Definition allocate_matrix (n : Z) : M (matrix float64) :=
  let* tbl := malloc (fun _ _ _ => []) n in
  for_loopM 0 n (fun i m =>
    let* row := malloc env_junk64 n in
    lift (aset m i (cells row))) (cells tbl).

(** Releasing memory changes nothing that the program can observe. *)
Definition free_matrix (m : matrix float64) (n : Z) : M unit := ret tt.

Definition initialize_matrix (m : matrix float64) (n : Z)
    : M (matrix float64) :=
  for_loopM 0 n (fun i m =>
    for_loopM 0 n (fun j m =>
      let* r := rand in
      lift (mset m i j (F64.fdiv (F64.of_Z (Z.rem r 100))
                                 (F64.of_dyadic 10 0)))) m) m.

(** [((double)(end - start)) / CLOCKS_PER_SEC] *)
Definition seconds (start stop : Z) (cps : float64) : float64 :=
  F64.fdiv (F64.of_Z (stop - start)) cps.

(** The cells of [A] and [B] as [main] initialises them, from the
    generator of the environment seeded with 42, and the cells of their
    product. *)
Definition A_cell (e : env) (i j : Z) : float64 :=
  rand_cell e 42 (Z.to_nat (i * SIZE + j)).
Definition B_cell (e : env) (i j : Z) : float64 :=
  rand_cell e 42 (Z.to_nat (SIZE * SIZE) + Z.to_nat (i * SIZE + j)).
Definition C_cell (e : env) (i j : Z) : float64 :=
  dot_acc (A_cell e) (B_cell e) i j (Z.to_nat SIZE) zero.

(** The number of calls of [malloc] in [main]. *)
Definition malloc_calls : nat := 3 * Datatypes.S (Z.to_nat SIZE).

(** [main] up to the second [clock()]. *)
Definition main_kernel
    : M (matrix float64 * matrix float64 * matrix float64 * Z * Z) :=
  let* _ := srand 42 in
  let* A := allocate_matrix SIZE in
  let* B := allocate_matrix SIZE in
  let* C := allocate_matrix SIZE in
  let* A := initialize_matrix A SIZE in
  let* B := initialize_matrix B SIZE in
  let* C := lift (zero_matrix C SIZE) in
  let* start := clock in
  let* C := lift (matrix_multiply A B C SIZE) in
  let* stop := clock in
  ret (A, B, C, start, stop).

Definition main : M Z :=
  let* r := main_kernel in
  let '(A, B, C, start, stop) := r in
  let* cps := clocks_per_sec in
  let* _ := printf ("Matrix multiplication completed in %f seconds" ++ nl)
              [Elapsed (seconds start stop cps)] in
  let* c0 := lift (mget C 0 0) in
  let* c100 := lift (mget C 100 100) in
  let* _ := printf
              ("Result checksum: C[0][0] = %f, C[100][100] = %f" ++ nl)
              [DataF c0; DataF c100] in
  let* _ := free_matrix A SIZE in
  let* _ := free_matrix B SIZE in
  let* _ := free_matrix C SIZE in
  ret 0.

End MatrixMultUnopt.

(** ** kernels/image_blur_unopt.c *)

Module ImageBlurUnopt.

Definition WIDTH : Z := 512.
Definition HEIGHT : Z := 512.
Definition KERNEL_SIZE : Z := 5.

Definition kernel : matrix Z :=
  [ [1; 1; 1; 1; 1];
    [1; 2; 2; 2; 1];
    [1; 2; 3; 2; 1];
    [1; 2; 2; 2; 1];
    [1; 1; 1; 1; 1] ].
Definition kernel_sum : Z := 35.
Definition offset : Z := Z.quot KERNEL_SIZE 2.

(** The weighted sum of the 5x5 neighbourhood of pixel [(x, y)]: the two
    innermost loops, the image being read through [rd].  Pixels are
    [unsigned char], so the sum stays below [35 * 255]. *)
Definition weighted_sum (rd : Z -> Z -> option Z) (x y : Z) : option Z :=
  for_loop (- offset) (offset + 1) (fun kx sum =>
    for_loop (- offset) (offset + 1) (fun ky sum =>
      p ← rd (y + ky) (x + kx);
      c ← mget kernel (ky + offset) (kx + offset);
      Some (sum + p * c)) sum) 0.

Definition convolve (input : matrix Z) (x y : Z) : option Z :=
  weighted_sum (mget input) x y.

(** The same sum over the 25 neighbours given by their offsets
    [(ky, kx)], taken in the order of the two loops. *)
Definition tap_offsets : list Z := [-2; -1; 0; 1; 2].

Definition taps_sum (p : Z -> Z -> Z) : Z :=
  fold_left (fun acc kx =>
    fold_left (fun acc ky =>
      acc + p ky kx * cell 0 kernel (ky + offset) (kx + offset))
      tap_offsets acc) tap_offsets 0.

(** The pixels that [image_blur] computes: those at least [offset] away
    from every edge; and the value it stores there. *)
Definition interior (width height x y : Z) : bool :=
  (offset <=? x) && (x <? width - offset) &&
  (offset <=? y) && (y <? height - offset).

Definition blur_value (input : matrix Z) (x y : Z) : Z :=
  to_uchar (Z.quot (default 0 (convolve input x y)) kernel_sum).

(** Pixels [(x', y')] already stored when the nest is about to run
    iteration [(x, y)]. *)
Definition blur_done (width height x y : Z) : Z -> Z -> bool :=
  fun y' x' => interior width height x' y' && cols_done x y y' x'.

(** [input] and [output] are distinct images, as in [main]. *)
Definition image_blur (input output : matrix Z) (width height : Z)
    : option (matrix Z) :=
  xhi ← int_ok (width - offset);
  yhi ← int_ok (height - offset);
  for_loop offset xhi (fun x output =>
    for_loop offset yhi (fun y output =>
      sum ← convolve input x y;
      mset output y x (to_uchar (Z.quot sum kernel_sum))) output) output.

Definition junk_pixel (e : env) (k i : nat) : Z := to_uchar (env_junk8 e k i).

Definition allocate_image (width height : Z) : M (matrix Z) :=
  let* tbl := malloc (fun _ _ _ => []) height in
  for_loopM 0 height (fun i m =>
    let* row := malloc junk_pixel width in
    lift (aset m i (cells row))) (cells tbl).

(** Releasing memory changes nothing that the program can observe. *)
Definition free_image (image : matrix Z) (height : Z) : M unit := ret tt.

Definition initialize_image (image : matrix Z) (width height : Z)
    : option (matrix Z) :=
  for_loop 0 width (fun x image =>
    for_loop 0 height (fun y image =>
      s ← int_ok (x + y);
      mset image y x (to_uchar (Z.rem s 256))) image) image.

Definition seconds (start stop : Z) (cps : float64) : float64 :=
  F64.fdiv (F64.of_Z (stop - start)) cps.

(** The number of calls of [malloc] in [main]. *)
Definition malloc_calls : nat := 2 * Datatypes.S (Z.to_nat HEIGHT).

(** Reading the image that [initialize_image] produces. *)
Definition pattern (y x : Z) : option Z := Some ((x + y) mod 256).

Definition main : M Z :=
  let* input := allocate_image WIDTH HEIGHT in
  let* output := allocate_image WIDTH HEIGHT in
  let* input := lift (initialize_image input WIDTH HEIGHT) in
  let* start := clock in
  let* output := lift (image_blur input output WIDTH HEIGHT) in
  let* stop := clock in
  let* cps := clocks_per_sec in
  let* _ := printf ("Image blur completed in %f seconds" ++ nl)
              [Elapsed (seconds start stop cps)] in
  let* o100 := lift (mget output 100 100) in
  let* o200 := lift (mget output 200 200) in
  let* _ := printf
              ("Result checksum: output[100][100] = %d, output[200][200] = %d"
               ++ nl)
              [DataI o100; DataI o200] in
  let* _ := free_image input HEIGHT in
  let* _ := free_image output HEIGHT in
  ret 0.

End ImageBlurUnopt.

(** ** kernels/stream_bench.c *)

Module StreamBench.

Definition ARRAY_SIZE : Z := 1024 * 1024.
Definition REPEAT_COUNT : Z := 10.

(** Each kernel returns the array it writes; the arrays passed are
    distinct, as in [main]. *)
Definition stream_copy (a b : list float64) (n : Z) : option (list float64) :=
  for_loop 0 n (fun i b => x ← aget a i; aset b i x) b.

Definition stream_scale (a b : list float64) (scalar : float64) (n : Z)
    : option (list float64) :=
  for_loop 0 n (fun i b => x ← aget a i; aset b i (F64.fmul scalar x)) b.

Definition stream_add (a b c : list float64) (n : Z)
    : option (list float64) :=
  for_loop 0 n (fun i c =>
    x ← aget a i; y ← aget b i; aset c i (F64.fadd x y)) c.

Definition stream_triad (a b c : list float64) (scalar : float64) (n : Z)
    : option (list float64) :=
  for_loop 0 n (fun i a =>
    y ← aget b i; z ← aget c i;
    aset a i (F64.fadd y (F64.fmul scalar z))) a.

Record arrays := Arrays {
  arr_a : list float64;
  arr_b : list float64;
  arr_c : list float64
}.

Definition initialize_arrays (s : arrays) (n : Z) : option arrays :=
  for_loop 0 n (fun i s =>
    a ← aset (arr_a s) i (F64.of_dyadic 1 0);
    b ← aset (arr_b s) i (F64.of_dyadic 2 0);
    c ← aset (arr_c s) i (F64.of_dyadic 0 0);
    Some (Arrays a b c)) s.

(** One turn of the repeat loop of [main]. *)
Definition pass (s : arrays) : option arrays :=
  c ← stream_copy (arr_a s) (arr_c s) ARRAY_SIZE;
  b ← stream_scale c (arr_b s) (F64.of_dyadic 5 (-1)) ARRAY_SIZE;
  c ← stream_add (arr_a s) b c ARRAY_SIZE;
  a ← stream_triad (arr_a s) b c (F64.of_dyadic 3 (-1)) ARRAY_SIZE;
  Some (Arrays a b c).

(** What one pass does to the three values at one index. *)
Definition pass_elem (v : float64 * float64 * float64)
    : float64 * float64 * float64 :=
  let '(a, b, c) := v in
  let c := a in
  let b := F64.fmul (F64.of_dyadic 5 (-1)) c in
  let c := F64.fadd a b in
  let a := F64.fadd b (F64.fmul (F64.of_dyadic 3 (-1)) c) in
  (a, b, c).

(** The values at every index after initialisation and [reps] passes. *)
Definition elem_after (reps : nat) : float64 * float64 * float64 :=
  Nat.iter reps pass_elem
    (F64.of_dyadic 1 0, F64.of_dyadic 2 0, F64.of_dyadic 0 0).

(** The identity [a[i] == b[i] + scalar * c[i]] of the triad, and the
    shorter [a[i] == scalar * c[i]], on those values ([==] is the IEEE
    comparison). *)
Definition triad_holds (reps : nat) : bool :=
  let '(a, b, c) := elem_after reps in
  F64.eqb a (F64.fadd b (F64.fmul (F64.of_dyadic 3 (-1)) c)).

Definition scaled_holds (reps : nat) : bool :=
  let '(a, b, c) := elem_after reps in
  F64.eqb a (F64.fmul (F64.of_dyadic 3 (-1)) c).

(** The repeat loop, run [reps] times. *)
Definition passes (reps : Z) (s : arrays) : option arrays :=
  for_loop 0 reps (fun _ s => pass s) s.

Definition seconds (start stop : Z) (cps : float64) : float64 :=
  F64.fdiv (F64.of_Z (stop - start)) cps.

(** [(long long)ARRAY_SIZE * sizeof(double) * 10 * REPEAT_COUNT] *)
Definition total_bytes : Z := ARRAY_SIZE * 8 * 10 * REPEAT_COUNT.

(** [(total_bytes / (1024.0 * 1024.0 * 1024.0)) / time_taken] *)
Definition bandwidth_gb_s (time_taken : float64) : float64 :=
  let k := F64.of_dyadic 1024 0 in
  F64.fdiv (F64.fdiv (F64.of_Z total_bytes) (F64.fmul (F64.fmul k k) k))
           time_taken.

Definition main : M Z :=
  let* a := malloc env_junk64 ARRAY_SIZE in
  let* b := malloc env_junk64 ARRAY_SIZE in
  let* c := malloc env_junk64 ARRAY_SIZE in
  match a, b, c with
  | Some a, Some b, Some c =>
      let* s := lift (initialize_arrays (Arrays a b c) ARRAY_SIZE) in
      let* start := clock in
      let* s := lift (passes REPEAT_COUNT s) in
      let* stop := clock in
      let* cps := clocks_per_sec in
      let time_taken := seconds start stop cps in
      let* _ := printf ("Stream benchmark completed in %f seconds" ++ nl)
                  [Elapsed time_taken] in
      let* a100 := lift (aget (arr_a s) 100) in
      let* b100 := lift (aget (arr_b s) 100) in
      let* _ := printf
                  ("Final result checksum: a[100] = %f, b[100] = %f" ++ nl)
                  [DataF a100; DataF b100] in
      let* _ := printf ("Approximate memory bandwidth: %.2f GB/s" ++ nl)
                  [Rate (bandwidth_gb_s time_taken)] in
      ret 0
  | _, _, _ =>
      let* _ := printf ("Memory allocation failed" ++ nl) [] in
      ret 1
  end.

End StreamBench.

(** ** kernels/kernel5.c *)

Module Kernel5.

Definition SIZE : Z := 10000.

(** The global arrays [h], [w] and [idx]. *)
Record globals := Globals {
  h : list float32;
  w : list float32;
  idx : list Z
}.

Definition static_globals : globals :=
  Globals (replicate (Z.to_nat SIZE) F32.pzero)
          (replicate (Z.to_nat SIZE) F32.pzero)
          (replicate (Z.to_nat SIZE) 0).

(** The index stored in [idx[i]] when [rand] has been called [r0] times
    since the generator was seeded with [seed]. *)
Definition idx_cell (e : env) (seed : Z) (r0 : nat) (i : Z) : Z :=
  Z.rem (Z.of_N (env_rand e seed (r0 + Z.to_nat i))) SIZE.

(** First loop of [main]. *)
Definition fill (g : globals) : M globals :=
  for_loopM 0 SIZE (fun i g =>
    let* h' := lift (aset (h g) i (F32.of_Z i)) in
    let* w' := lift (aset (w g) i (F32.of_Z (SIZE - i))) in
    let* r := rand in
    let* idx' := lift (aset (idx g) i (Z.rem r SIZE)) in
    ret (Globals h' w' idx')) g.

(** Second loop of [main]: [h[idx[i]] += w[i]]. *)
Definition scatter (g : globals) : option globals :=
  for_loop 0 SIZE (fun i g =>
    t ← aget (idx g) i;
    x ← aget (h g) t;
    y ← aget (w g) i;
    h' ← aset (h g) t (F32.fadd x y);
    Some (Globals h' (w g) (idx g))) g.

(** The value of [h[j]] after the first [k] iterations of the second
    loop, for index, weight and start functions [idxf], [wf], [hf]. *)
Fixpoint scatter_cell (idxf : Z -> Z) (wf hf : Z -> float32) (k : nat)
    (j : Z) : float32 :=
  match k with
  | O => hf j
  | Datatypes.S k' =>
      let acc := scatter_cell idxf wf hf k' j in
      if idxf (Z.of_nat k') =? j
      then F32.fadd acc (wf (Z.of_nat k')) else acc
  end.

Definition main_kernel : M globals :=
  let* g := fill static_globals in
  lift (scatter g).

Definition main : M Z :=
  let* _ := main_kernel in
  let* _ := printf ("Done." ++ nl) [] in
  ret 0.

End Kernel5.

(** ** Lab_2/kernels/kernel2.c *)

Module Lab2Kernel2.

Definition N : Z := 100000.

Definition static_A : list Z := replicate (Z.to_nat N) 0.

(** The value stored in [A[i]] when [rand] has been called [r0] times
    since the generator was seeded with [seed]. *)
Definition A_cell (e : env) (seed : Z) (r0 : nat) (i : Z) : Z :=
  Z.rem (Z.of_N (env_rand e seed (r0 + Z.to_nat i))) 100.

(** First loop of [main]. *)
Definition fill (A : list Z) : M (list Z) :=
  for_loopM 0 N (fun i A =>
    let* r := rand in
    lift (aset A i (Z.rem r 100))) A.

(** Second loop of [main]; the sum stays below [100 * N]. *)
Definition sum_even (A : list Z) : option Z :=
  for_loop 0 N (fun i sum =>
    x ← aget A i;
    Some (if Z.rem x 2 =? 0 then sum + x else sum)) 0.

(** The sum of the even ones of the first [k] values of [f]. *)
Fixpoint even_total (f : Z -> Z) (k : nat) : Z :=
  match k with
  | O => 0
  | Datatypes.S k' =>
      let x := f (Z.of_nat k') in
      even_total f k' + (if Z.rem x 2 =? 0 then x else 0)
  end.

Definition main_kernel : M (list Z * Z) :=
  let* A := fill static_A in
  let* sum := lift (sum_even A) in
  ret (A, sum).

Definition main : M Z :=
  let* r := main_kernel in
  let* _ := printf ("Sum = %d" ++ nl) [DataI (snd r)] in
  ret 0.

End Lab2Kernel2.

(** ** Lab_2/kernels/kernel4.c *)

Module Lab2Kernel4.

Definition STRIDE : Z := 4096.
Definition NUM_ACCESSES : Z := 10000.
Definition BLOCK_SIZE : Z := 64.
Definition ARRAY_SIZE : Z := STRIDE * NUM_ACCESSES.

Definition static_A : list Z := replicate (Z.to_nat ARRAY_SIZE) 0.

(** The initialisation loop. *)
Definition fill (A : list Z) : option (list Z) :=
  for_loop 0 ARRAY_SIZE (fun i A => aset A i i) A.

(** The index read at iteration [(block, i)]. *)
Definition read_index (block i : Z) : Z := (block + i) * STRIDE.

(** The blocked loop nest, over an array read through [rd]. *)
Definition blocked_sum (rd : Z -> option Z) : option Z :=
  for_step 0 NUM_ACCESSES BLOCK_SIZE (fun block sum =>
    for_loop 0 BLOCK_SIZE (fun i sum =>
      x ← rd (read_index block i);
      Some (sum + x)) sum) 0.

Definition main : M Z :=
  let* A := lift (fill static_A) in
  let* sum := lift (blocked_sum (aget A)) in
  let* _ := printf ("Sum = %lld" ++ nl) [DataI sum] in
  ret 0.

(** Reading the array once it is initialised: the index itself, if it
    lies inside the array. *)
Definition checked_read (i : Z) : option Z :=
  if (0 <=? i) && (i <? ARRAY_SIZE) then Some i else None.

End Lab2Kernel4.

(** ** Lab_1/kernels/kernel2.c *)

Module Lab1Kernel2.

Definition SIZE : Z := 10000.

(** The global arrays [A], [B] and the accumulator [sum]. *)
Record globals := Globals {
  A : list float32;
  B : list float32;
  sum : float32
}.

Definition static_globals : globals :=
  Globals (replicate (Z.to_nat SIZE) F32.pzero)
          (replicate (Z.to_nat SIZE) F32.pzero)
          (F32.of_Z 0).

(** [0.5f] *)
Definition half : float32 := F32.of_dyadic 1 (-1).

Definition A_val (i : Z) : float32 := F32.fmul (F32.of_Z i) half.
Definition B_val (i : Z) : float32 :=
  F32.fsub (F32.of_Z SIZE) (F32.fmul (F32.of_Z i) half).

(** First loop of [main]. *)
Definition fill (g : globals) : option globals :=
  for_loop 0 SIZE (fun i g =>
    a ← aset (A g) i (A_val i);
    b ← aset (B g) i (B_val i);
    Some (Globals a b (sum g))) g.

(** Second loop of [main]. *)
Definition accumulate (g : globals) : option globals :=
  for_loop 0 SIZE (fun i g =>
    a ← aget (A g) i;
    b ← aget (B g) i;
    let diff := F32.fsub a b in
    Some (if F32.ltb (F32.of_Z 0) diff
          then Globals (A g) (B g) (F32.fadd (sum g) diff)
          else g)) g.


Definition main_kernel : option globals :=
  g ← fill static_globals; accumulate g.

Definition main : M Z :=
  let* g := lift main_kernel in
  let* _ := printf ("Result: %f" ++ nl) [DataF (F64.of_float (sum g))] in
  ret 0.

End Lab1Kernel2.

(** ** The repository *)

Inductive program :=
  | stream_bench
  | kernel5
  | matrix_mult_unopt
  | image_blur_unopt
  | lab2_kernel2
  | lab2_kernel4
  | mmm
  | lab1_kernel2.

Definition programs : list program :=
  [stream_bench; kernel5; matrix_mult_unopt; image_blur_unopt;
   lab2_kernel2; lab2_kernel4; mmm; lab1_kernel2].

Definition main_of (p : program) : M Z :=
  match p with
  | stream_bench => StreamBench.main
  | kernel5 => Kernel5.main
  | matrix_mult_unopt => MatrixMultUnopt.main
  | image_blur_unopt => ImageBlurUnopt.main
  | lab2_kernel2 => Lab2Kernel2.main
  | lab2_kernel4 => Lab2Kernel4.main
  | mmm => Mmm.main
  | lab1_kernel2 => Lab1Kernel2.main
  end.

(** The outcome of a run: the exit code and what was printed, or [None]
    when the run has undefined behaviour. *)
Definition run (p : program) (e : env) : option (Z * list event) :=
  match main_of p (init_world e) with
  | Some (code, w) => Some (code, w_out w)
  | None => None
  end.

(** The number of calls of [clock()] in a run. *)
Definition clock_calls (p : program) (e : env) : option nat :=
  match main_of p (init_world e) with
  | Some (_, w) => Some (w_clocks w)
  | None => None
  end.

(** A line that reports the elapsed time, and a line that reports a value of
    the computed data. *)
Definition is_elapsed (a : parg) : bool :=
  match a with Elapsed _ => true | _ => false end.
Definition is_data (a : parg) : bool :=
  match a with DataF _ | DataI _ => true | _ => false end.
Definition timing_line (ev : event) : bool := existsb is_elapsed (ev_args ev).
Definition checksum_line (ev : event) : bool := existsb is_data (ev_args ev).

(** ** The text that [printf] writes *)

(** Decimal digits of a natural number, and the same padded with zeros on
    the left to [width] characters. *)
Definition dec (n : N) : string := NilZero.string_of_uint (N.to_uint n).

Fixpoint zeros_string (k : nat) : string :=
  match k with
  | O => EmptyString
  | Datatypes.S k' => String "0"%char (zeros_string k')
  end.

Definition pad (width : nat) (s : string) : string :=
  (zeros_string (width - String.length s) ++ s)%string.

(** [m * 2^e * 10^d] rounded to the nearest integer, ties to even. *)
Definition round_scaled (m : positive) (e : Z) (d : nat) : Z :=
  let num := Zpos m * 10 ^ Z.of_nat d in
  if 0 <=? e then num * 2 ^ e
  else
    let den := 2 ^ (- e) in
    let q := num / den in
    let r := num mod den in
    match 2 * r ?= den with
    | Lt => q
    | Gt => q + 1
    | Eq => if Z.even q then q else q + 1
    end.

(** Conversions [%.df] ([d > 0]) of a finite value and [%d] of an integer;
    the text for infinities and NaN is left out. *)
Definition render_fixed (d : nat) (x : float64) : option string :=
  match F64.bits x with
  | S754_zero s =>
      Some ((if s then "-" else "") ++ "0." ++ zeros_string d)%string
  | S754_finite s m e =>
      let q := round_scaled m e d in
      Some ((if s then "-" else "")
            ++ dec (Z.to_N (q / 10 ^ Z.of_nat d)%Z) ++ "."
            ++ pad d (dec (Z.to_N (q mod 10 ^ Z.of_nat d)%Z)))%string
  | _ => None
  end.

Definition render_int (z : Z) : string :=
  ((if (z <? 0)%Z then "-" else "") ++ dec (Z.to_N (Z.abs z)))%string.

Definition render_float_arg (d : nat) (args : list parg) : option string :=
  match args with
  | Elapsed x :: _ | Rate x :: _ | DataF x :: _ => render_fixed d x
  | _ => None
  end.

Definition render_int_arg (args : list parg) : option string :=
  match args with
  | DataI z :: _ => Some (render_int z)
  | _ => None
  end.

(** The text of one call: the format string with each of the conversions
    that the programs use ([%f], [%.2f], [%d], [%lld]) replaced by its
    argument. *)
Fixpoint render (fmt : string) (args : list parg) : option string :=
  match fmt with
  | EmptyString => Some EmptyString
  | String "%"%char (String "f"%char rest) =>
      x ← render_float_arg 6 args; r ← render rest (tail args);
      Some (x ++ r)%string
  | String "%"%char (String "."%char (String "2"%char (String "f"%char rest))) =>
      x ← render_float_arg 2 args; r ← render rest (tail args);
      Some (x ++ r)%string
  | String "%"%char (String "d"%char rest) =>
      x ← render_int_arg args; r ← render rest (tail args);
      Some (x ++ r)%string
  | String "%"%char (String "l"%char (String "l"%char (String "d"%char rest))) =>
      x ← render_int_arg args; r ← render rest (tail args);
      Some (x ++ r)%string
  | String c rest => r ← render rest args; Some (String c r)
  end.

(** The text on standard output after a run. *)
Fixpoint stdout_text (out : list event) : option string :=
  match out with
  | [] => Some EmptyString
  | ev :: out' =>
      x ← render (ev_fmt ev) (ev_args ev); r ← stdout_text out';
      Some (x ++ r)%string
  end.

(** ** Sample environments *)

(** A linear congruential generator, as many C libraries have. *)
Definition lcg (seed : Z) (k : nat) : N :=
  Z.to_N (Nat.iter (Datatypes.S k)
            (fun x => (x * 1103515245 + 12345) mod 2147483648) seed).

(** Two environments with the same generator in which every allocation
    succeeds, but with different clocks and different heap contents; and one
    in which the second allocation fails. *)
Definition env_a : env :=
  {| env_malloc := fun _ => true;
     env_junk8 := fun _ _ => 0;
     env_junk64 := fun _ _ => F64.pzero;
     env_clock := fun k => 1000 * Z.of_nat k;
     env_clocks_per_sec := 1000000;
     env_rand := lcg |}.

Definition env_b : env :=
  {| env_malloc := fun _ => true;
     env_junk8 := fun k i => Z.of_nat (k + i);
     env_junk64 := fun k i => F64.of_Z (Z.of_nat (k + i));
     env_clock := fun k => 7 + 250000 * Z.of_nat k;
     env_clocks_per_sec := 1000000;
     env_rand := lcg |}.

Definition env_oom : env :=
  {| env_malloc := fun k => negb (Nat.eqb k 1);
     env_junk8 := fun _ _ => 0;
     env_junk64 := fun _ _ => F64.pzero;
     env_clock := fun k => 1000 * Z.of_nat k;
     env_clocks_per_sec := 1000000;
     env_rand := lcg |}.

(** An environment in which only the allocation of the first row of the
    second image of image_blur_unopt.c fails. *)
Definition env_border : env :=
  {| env_malloc := fun k => negb (Nat.eqb k 514);
     env_junk8 := fun _ _ => 0;
     env_junk64 := fun _ _ => F64.pzero;
     env_clock := fun k => 1000 * Z.of_nat k;
     env_clocks_per_sec := 1000000;
     env_rand := lcg |}.

(** * Properties *)

(** ** Loops *)

Section LoopLemmas.
Context {S : Type}.
Implicit Types (body : Z -> S -> option S) (s : S).

Lemma for_iter_inv (P : Z -> S -> Prop) body step cnt i s :
  P i s ->
  (forall k t, (k < cnt)%nat -> P (i + step * Z.of_nat k) t ->
     exists t', body (i + step * Z.of_nat k) t = Some t' /\
                P (i + step * Z.of_nat (Datatypes.S k)) t') ->
  exists s', for_iter body step cnt i s = Some s' /\
             P (i + step * Z.of_nat cnt) s'.
Proof.
  revert i s. induction cnt as [|cnt IH]; intros i s Hi Hstep.
  - exists s. split; [reflexivity|].
    now replace (i + step * Z.of_nat 0) with i by lia.
  - assert (E0 : i + step * Z.of_nat 0 = i) by lia.
    assert (E1 : i + step * Z.of_nat 1 = i + step) by lia.
    destruct (Hstep O s) as (t & Hb & Ht); [lia | now rewrite E0 |].
    rewrite E0 in Hb. rewrite E1 in Ht.
    destruct (IH (i + step) t Ht) as (s' & Hs' & HP).
    + intros k u Hk Hu.
      assert (Ek : i + step + step * Z.of_nat k
                   = i + step * Z.of_nat (Datatypes.S k)) by lia.
      assert (Ek' : i + step + step * Z.of_nat (Datatypes.S k)
                    = i + step * Z.of_nat (Datatypes.S (Datatypes.S k)))
        by lia.
      rewrite Ek in *. rewrite Ek'. apply Hstep; [lia | exact Hu].
    + exists s'. split.
      * simpl. rewrite Hb. simpl. exact Hs'.
      * assert (Ec : i + step * Z.of_nat (Datatypes.S cnt)
                     = i + step + step * Z.of_nat cnt) by lia.
        now rewrite Ec.
Qed.

(** [trip_count] is the number of turns of the C loop: the values of the
    loop variable it covers are below [hi], and the next one is not. *)
Lemma trip_count_spec lo hi step :
  0 < step ->
  hi <= lo + step * Z.of_nat (trip_count lo hi step) /\
  (forall k, 0 <= k < Z.of_nat (trip_count lo hi step) ->
     lo + step * k < hi).
Proof.
  intros Hstep. unfold trip_count.
  pose proof (Z.div_mod (hi - lo + step - 1) step ltac:(lia)) as Hdiv.
  pose proof (Z.mod_pos_bound (hi - lo + step - 1) step Hstep) as Hmod.
  set (q := (hi - lo + step - 1) / step) in *.
  destruct (Z.le_gt_cases q 0) as [Hq|Hq].
  - replace (Z.to_nat q) with O by lia. split; [nia | intros k Hk; lia].
  - rewrite Z2Nat.id by lia. split; [nia | intros k Hk; nia].
Qed.

Lemma trip_count_1 lo hi : trip_count lo hi 1 = Z.to_nat (hi - lo).
Proof. unfold trip_count. f_equal. rewrite Z.div_1_r. lia. Qed.

(** The invariant rule for [for (i = lo; i < hi; i++)]. *)
Lemma for_loop_inv (P : Z -> S -> Prop) lo hi body s :
  lo <= hi ->
  P lo s ->
  (forall i t, lo <= i < hi -> P i t ->
     exists t', body i t = Some t' /\ P (i + 1) t') ->
  exists s', for_loop lo hi body s = Some s' /\ P hi s'.
Proof.
  intros Hle H0 Hstep. unfold for_loop, for_step. rewrite trip_count_1.
  destruct (for_iter_inv P body 1 (Z.to_nat (hi - lo)) lo s H0)
    as (s' & ? & HP).
  - intros k t Hk Ht.
    assert (Ek : lo + 1 * Z.of_nat (Datatypes.S k)
                 = lo + 1 * Z.of_nat k + 1) by lia.
    rewrite Ek. apply Hstep; [lia | exact Ht].
  - exists s'. split; [assumption|].
    assert (Eh : lo + 1 * Z.of_nat (Z.to_nat (hi - lo)) = hi) by lia.
    now rewrite Eh in HP.
Qed.

(** A loop whose bound is not above its start runs no iteration. *)
Lemma for_loop_empty lo hi body s :
  hi <= lo -> for_loop lo hi body s = Some s.
Proof.
  intros Hle. unfold for_loop, for_step. rewrite trip_count_1.
  now replace (Z.to_nat (hi - lo)) with O by lia.
Qed.

(** The invariant rule without the assumption that the loop is entered. *)
Lemma for_loop_inv_max (P : Z -> S -> Prop) lo hi body s :
  P lo s ->
  (forall i t, lo <= i < hi -> P i t ->
     exists t', body i t = Some t' /\ P (i + 1) t') ->
  exists s', for_loop lo hi body s = Some s' /\ P (Z.max lo hi) s'.
Proof.
  intros H0 Hstep. destruct (Z.le_gt_cases lo hi) as [Hle|Hgt].
  - rewrite Z.max_r by exact Hle. now apply for_loop_inv.
  - rewrite Z.max_l by lia. exists s. split; [|exact H0].
    apply for_loop_empty. lia.
Qed.

(** Two bodies that agree on the indices visited give the same loop. *)
Lemma for_iter_ext body1 body2 step cnt i s :
  (forall k t, (k < cnt)%nat ->
     body1 (i + step * Z.of_nat k) t = body2 (i + step * Z.of_nat k) t) ->
  for_iter body1 step cnt i s = for_iter body2 step cnt i s.
Proof.
  revert i s. induction cnt as [|cnt IH]; intros i s Hext; [reflexivity|].
  simpl. specialize (Hext O s) as H0.
  assert (E0 : i + step * Z.of_nat 0 = i) by lia.
  rewrite E0 in H0. rewrite H0 by lia.
  destruct (body2 i s) as [t|]; [simpl | reflexivity].
  apply IH. intros k u Hk.
  assert (Ek : i + step + step * Z.of_nat k
               = i + step * Z.of_nat (Datatypes.S k)) by lia.
  rewrite Ek. apply Hext. lia.
Qed.
End LoopLemmas.

Lemma all_from_spec (P : Z -> bool) cnt i :
  all_from P cnt i = true ->
  forall k, i <= k < i + Z.of_nat cnt -> P k = true.
Proof.
  revert i. induction cnt as [|cnt IH]; intros i Hall k Hk; [lia|].
  simpl in Hall. apply andb_prop in Hall as [Hi Hrest].
  destruct (Z.eq_dec k i) as [->|Hne]; [exact Hi|].
  apply (IH (i + 1) Hrest). lia.
Qed.

(** ** Arrays *)

Section ArrayLemmas.
Context {T : Type}.
Implicit Types (a : list T) (M : matrix T).

Lemma aget_Some a i v :
  aget a i = Some v <-> 0 <= i /\ a !! Z.to_nat i = Some v.
Proof.
  unfold aget. destruct (Z.leb_spec 0 i); split; intros H0;
    try tauto; try discriminate; lia.
Qed.

Lemma aget_of_nat a (i : nat) : aget a (Z.of_nat i) = a !! i.
Proof.
  unfold aget. destruct (Z.leb_spec 0 (Z.of_nat i)); [|lia].
  now rewrite Nat2Z.id.
Qed.

Lemma aget_in_range a i :
  0 <= i < Z.of_nat (length a) -> exists v, aget a i = Some v.
Proof.
  intros Hi. destruct (lookup_lt_is_Some_2 a (Z.to_nat i)) as [v Hv]; [lia|].
  exists v. apply aget_Some. split; [lia | exact Hv].
Qed.

Lemma aget_out_of_range a i :
  i < 0 \/ Z.of_nat (length a) <= i -> aget a i = None.
Proof.
  intros Hi. unfold aget. destruct (Z.leb_spec 0 i); [|reflexivity].
  apply lookup_ge_None_2. lia.
Qed.

Lemma aset_in_range a i v :
  0 <= i < Z.of_nat (length a) -> aset a i v = Some (<[Z.to_nat i := v]> a).
Proof.
  intros Hi. unfold aset.
  destruct (Z.leb_spec 0 i); [|lia].
  destruct (Z.ltb_spec i (Z.of_nat (length a))); [reflexivity | lia].
Qed.

Lemma aset_Some a i v a' :
  aset a i v = Some a' ->
  0 <= i < Z.of_nat (length a) /\ a' = <[Z.to_nat i := v]> a.
Proof.
  unfold aset.
  destruct (Z.leb_spec 0 i); destruct (Z.ltb_spec i (Z.of_nat (length a)));
    simpl; intros Heq; inversion Heq; subst; split; (lia || reflexivity).
Qed.

Lemma aget_insert a i j v :
  0 <= i < Z.of_nat (length a) ->
  aget (<[Z.to_nat i := v]> a) j = if j =? i then Some v else aget a j.
Proof.
  intros Hi. unfold aget. destruct (Z.eqb_spec j i) as [->|Hne].
  - destruct (Z.leb_spec 0 i); [|lia]. apply list_lookup_insert_eq. lia.
  - destruct (Z.leb_spec 0 j); [|reflexivity].
    apply list_lookup_insert_ne. lia.
Qed.
End ArrayLemmas.

(** ** Matrices *)

Section MatrixLemmas.
Context {T : Type}.
Implicit Types (M : matrix T) (f : Z -> Z -> T).

Lemma is_matrix_row n m M i :
  is_matrix n m M -> 0 <= i < n ->
  exists row, aget M i = Some row /\ Z.of_nat (length row) = m.
Proof.
  intros [Hn Hrows] Hi.
  destruct (aget_in_range M i) as [row Hrow]; [lia|].
  exists row. split; [exact Hrow|].
  apply aget_Some in Hrow as [_ Hrow].
  exact (Forall_lookup_1 _ _ _ _ Hrows Hrow).
Qed.

Lemma mget_in_range n m M i j :
  is_matrix n m M -> 0 <= i < n -> 0 <= j < m ->
  exists v, mget M i j = Some v.
Proof.
  intros HM Hi Hj. destruct (is_matrix_row n m M i HM Hi) as (row & Hrow & Hlen).
  destruct (aget_in_range row j) as [v Hv]; [lia|].
  exists v. unfold mget. rewrite Hrow. exact Hv.
Qed.

Lemma mset_in_range n m M i j v :
  is_matrix n m M -> 0 <= i < n -> 0 <= j < m ->
  exists M', mset M i j v = Some M'.
Proof.
  intros HM Hi Hj. destruct (is_matrix_row n m M i HM Hi) as (row & Hrow & Hlen).
  unfold mset. rewrite Hrow. simpl.
  rewrite aset_in_range by lia. simpl.
  destruct HM as [Hn _]. rewrite aset_in_range by lia. eauto.
Qed.

(** What a successful store changes: one cell, and no dimension. *)
Lemma mget_mset M i j v M' :
  mset M i j v = Some M' ->
  forall i' j',
    mget M' i' j' = if (i' =? i) && (j' =? j) then Some v else mget M i' j'.
Proof.
  unfold mset. intros Hset i' j'.
  destruct (aget M i) as [row|] eqn:Hrow; [simpl in Hset | discriminate].
  destruct (aset row j v) as [row'|] eqn:Hrow'; [simpl in Hset | discriminate].
  apply aset_Some in Hrow' as [Hj ->].
  apply aset_Some in Hset as [Hi ->].
  unfold mget. rewrite aget_insert by exact Hi.
  destruct (Z.eqb_spec i' i) as [->|Hne]; simpl.
  - rewrite aget_insert by exact Hj. rewrite Hrow. simpl.
    now destruct (j' =? j).
  - reflexivity.
Qed.

Lemma is_matrix_mset n m M i j v M' :
  is_matrix n m M -> mset M i j v = Some M' -> is_matrix n m M'.
Proof.
  unfold mset. intros [Hn Hrows] Hset.
  destruct (aget M i) as [row|] eqn:Hrow; [simpl in Hset | discriminate].
  destruct (aset row j v) as [row'|] eqn:Hrow'; [simpl in Hset | discriminate].
  apply aset_Some in Hrow' as [Hj ->].
  apply aset_Some in Hset as [Hi ->].
  split.
  - now rewrite length_insert.
  - apply Forall_insert; [exact Hrows|]. rewrite length_insert.
    apply aget_Some in Hrow as [_ Hrow].
    exact (Forall_lookup_1 _ _ _ _ Hrows Hrow).
Qed.

Lemma cells_are_cell d n m M : is_matrix n m M -> cells_are n m M (cell d M).
Proof.
  intros HM. split; [exact HM|]. intros i j Hi Hj.
  destruct (mget_in_range n m M i j HM Hi Hj) as [v Hv].
  unfold cell. now rewrite Hv.
Qed.

Lemma cells_are_ext n m M f g :
  (forall i j, 0 <= i < n -> 0 <= j < m -> f i j = g i j) ->
  cells_are n m M f -> cells_are n m M g.
Proof.
  intros Hfg [HM Hf]. split; [exact HM|].
  intros i j Hi Hj. rewrite <- Hfg by assumption. now apply Hf.
Qed.

Lemma cells_are_mset n m M f i j v :
  cells_are n m M f -> 0 <= i < n -> 0 <= j < m ->
  exists M', mset M i j v = Some M' /\ cells_are n m M' (upd f i j v).
Proof.
  intros [HM Hf] Hi Hj.
  destruct (mset_in_range n m M i j v HM Hi Hj) as [M' HM'].
  exists M'. split; [exact HM'|]. split.
  - eapply is_matrix_mset; eauto.
  - intros i' j' Hi' Hj'. rewrite (mget_mset _ _ _ _ _ HM'). unfold upd.
    destruct ((i' =? i) && (j' =? j)); [reflexivity | now apply Hf].
Qed.

(** A matrix is determined by its dimensions and its cells. *)
Lemma cells_are_inj n m M M' f :
  cells_are n m M f -> cells_are n m M' f -> M = M'.
Proof.
  intros [[Hn Hrows] Hf] [[Hn' Hrows'] Hf'].
  apply list_eq. intros i.
  destruct (Nat.lt_ge_cases i (length M)) as [Hlt|Hge].
  - destruct (lookup_lt_is_Some_2 M i Hlt) as [row Hrow].
    destruct (lookup_lt_is_Some_2 M' i) as [row' Hrow']; [lia|].
    rewrite Hrow, Hrow'. f_equal.
    assert (Hl : Z.of_nat (length row) = m)
      by exact (Forall_lookup_1 _ _ _ _ Hrows Hrow).
    assert (Hl' : Z.of_nat (length row') = m)
      by exact (Forall_lookup_1 _ _ _ _ Hrows' Hrow').
    apply list_eq. intros j.
    destruct (Nat.lt_ge_cases j (length row)) as [Hjlt|Hjge].
    + specialize (Hf (Z.of_nat i) (Z.of_nat j)).
      specialize (Hf' (Z.of_nat i) (Z.of_nat j)).
      unfold mget in Hf, Hf'. rewrite !aget_of_nat in Hf, Hf'.
      rewrite Hrow in Hf. rewrite Hrow' in Hf'. simpl in Hf, Hf'.
      rewrite !aget_of_nat in Hf, Hf'.
      rewrite Hf, Hf' by lia. reflexivity.
    + rewrite !lookup_ge_None_2 by lia. reflexivity.
  - rewrite !lookup_ge_None_2 by lia. reflexivity.
Qed.
End MatrixLemmas.

(** ** The two matrix-multiplication loop nests *)

Ltac progress_cases :=
  unfold ijk_progress, ikj_progress;
  repeat match goal with
         | |- context [?x <? ?y] => destruct (Z.ltb_spec x y); simpl
         | |- context [?x =? ?y] => destruct (Z.eqb_spec x y); simpl
         end;
  try lia; try reflexivity; try (f_equal; lia).

Section MultiplyAccumulate.
Context {T : Type} `{Arith T}.
Variables (n : Z) (A B : matrix T) (a b f : Z -> Z -> T).
Hypothesis HA : cells_are n n A a.
Hypothesis HB : cells_are n n B b.

Lemma dot_acc_S i j cnt c0 :
  dot_acc a b i j (Datatypes.S cnt) c0
  = add (dot_acc a b i j cnt c0) (mul (a i (Z.of_nat cnt)) (b (Z.of_nat cnt) j)).
Proof.
  unfold dot_acc. rewrite seq_S, fold_left_app. reflexivity.
Qed.

Lemma dotp_ext C p q :
  (forall i j, 0 <= i < n -> 0 <= j < n -> p i j = q i j) ->
  cells_are n n C (dotp a b f p) -> cells_are n n C (dotp a b f q).
Proof.
  intros Hpq. apply cells_are_ext. intros i j Hi Hj.
  unfold dotp. now rewrite Hpq.
Qed.

(** The statement [C[i][j] += A[i][k] * B[k][j]] adds term [k] to cell
    [(i, j)] and leaves the other cells alone. *)
Lemma mac_step C p i j k :
  cells_are n n C (dotp a b f p) ->
  0 <= i < n -> 0 <= j < n -> 0 <= k < n -> p i j = Z.to_nat k ->
  exists C',
    (c ← mget C i j; x ← mget A i k; y ← mget B k j;
     mset C i j (add c (mul x y))) = Some C' /\
    cells_are n n C'
      (dotp a b f (fun i' j' => if (i' =? i) && (j' =? j)
                                then Z.to_nat (k + 1) else p i' j')).
Proof.
  intros HC Hi Hj Hk Hp.
  destruct (cells_are_mset n n C _ i j
              (add (dotp a b f p i j) (mul (a i k) (b k j))) HC Hi Hj)
    as (C' & Hset & HC').
  exists C'. split.
  - rewrite (proj2 HC i j Hi Hj). simpl.
    rewrite (proj2 HA i k Hi Hk). simpl.
    rewrite (proj2 HB k j Hk Hj). simpl. exact Hset.
  - revert HC'. apply cells_are_ext. intros i' j' Hi' Hj'.
    unfold upd, dotp.
    destruct (Z.eqb_spec i' i) as [->|]; [|reflexivity].
    destruct (Z.eqb_spec j' j) as [->|]; [simpl | reflexivity].
    replace (Z.to_nat (k + 1)) with (Datatypes.S (Z.to_nat k)) by lia.
    rewrite dot_acc_S, Hp. now rewrite Z2Nat.id by lia.
Qed.

(** *** [i], [j], [k] order (mmm.c) *)

Lemma naive_k_loop C i j :
  cells_are n n C (dotp a b f (ijk_progress n i j 0)) ->
  0 <= i < n -> 0 <= j < n ->
  exists C',
    for_loop 0 n (fun k g =>
        c ← mget (Mmm.gC g) i j;
        x ← mget (Mmm.gA g) i k;
        y ← mget (Mmm.gB g) k j;
        c' ← mset (Mmm.gC g) i j (add c (mul x y));
        Some (Mmm.Globals (Mmm.gA g) (Mmm.gB g) c')) (Mmm.Globals A B C)
    = Some (Mmm.Globals A B C') /\
    cells_are n n C' (dotp a b f (ijk_progress n i (j + 1) 0)).
Proof.
  intros HC Hi Hj.
  edestruct (for_loop_inv
    (fun k g => Mmm.gA g = A /\ Mmm.gB g = B /\
                cells_are n n (Mmm.gC g) (dotp a b f (ijk_progress n i j k))))
    as (g' & Hloop & HgA & HgB & HgC); cycle 3.
  - destruct g' as [A' B' C']; simpl in *; subst.
    exists C'. split; [exact Hloop|].
    revert HgC. apply dotp_ext. intros; progress_cases.
  - lia.
  - simpl. auto.
  - intros k [A' B' C'] Hk (HA' & HB' & HC'). simpl in *. subst A' B'.
    destruct (mac_step C' _ i j k HC') as (C'' & Hstep & HC''); try lia.
    { progress_cases. }
    destruct (mget C' i j) as [c|]; [simpl in * | discriminate].
    destruct (mget A i k) as [x|]; [simpl in * | discriminate].
    destruct (mget B k j) as [y|]; [simpl in * | discriminate].
    rewrite Hstep. simpl. exists (Mmm.Globals A B C'').
    split; [reflexivity|]. simpl. repeat split; try apply HC''.
    revert HC''. apply dotp_ext. intros; progress_cases.
Qed.

Lemma naive_j_loop C i :
  cells_are n n C (dotp a b f (ijk_progress n i 0 0)) ->
  0 <= i < n ->
  exists C',
    for_loop 0 n (fun j g =>
      for_loop 0 n (fun k g =>
        c ← mget (Mmm.gC g) i j;
        x ← mget (Mmm.gA g) i k;
        y ← mget (Mmm.gB g) k j;
        c' ← mset (Mmm.gC g) i j (add c (mul x y));
        Some (Mmm.Globals (Mmm.gA g) (Mmm.gB g) c')) g) (Mmm.Globals A B C)
    = Some (Mmm.Globals A B C') /\
    cells_are n n C' (dotp a b f (ijk_progress n (i + 1) 0 0)).
Proof.
  intros HC Hi.
  edestruct (for_loop_inv
    (fun j g => Mmm.gA g = A /\ Mmm.gB g = B /\
                cells_are n n (Mmm.gC g) (dotp a b f (ijk_progress n i j 0))))
    as (g' & Hloop & HgA & HgB & HgC); cycle 3.
  - destruct g' as [A' B' C']; simpl in *; subst.
    exists C'. split; [exact Hloop|].
    revert HgC. apply dotp_ext. intros; progress_cases.
  - lia.
  - simpl. auto.
  - intros j [A' B' C'] Hj (HA' & HB' & HC'). simpl in *. subst A' B'.
    destruct (naive_k_loop C' i j HC') as (C'' & Hk & HC''); try lia.
    exists (Mmm.Globals A B C''). split; [exact Hk|]. simpl. auto.
Qed.

Lemma naive_i_loop C :
  cells_are n n C f ->
  exists C',
    Mmm.matrix_multiply_naive_n n (Mmm.Globals A B C)
    = Some (Mmm.Globals A B C') /\
    cells_are n n C' (fun i j => dot_acc a b i j (Z.to_nat n) (f i j)).
Proof.
  intros HC.
  assert (Hn : 0 <= n) by (destruct HC as [[Hn _] _]; lia).
  edestruct (for_loop_inv
    (fun i g => Mmm.gA g = A /\ Mmm.gB g = B /\
                cells_are n n (Mmm.gC g) (dotp a b f (ijk_progress n i 0 0))))
    as (g' & Hloop & HgA & HgB & HgC); cycle 3.
  - destruct g' as [A' B' C']; simpl in *; subst.
    exists C'. split; [exact Hloop|].
    revert HgC. apply cells_are_ext. intros i j Hi Hj.
    unfold dotp. f_equal. progress_cases.
  - exact Hn.
  - simpl. repeat split; try apply HC.
    intros i j Hi Hj. rewrite (proj2 HC i j Hi Hj). f_equal.
    unfold dotp. replace (ijk_progress n 0 0 0 i j) with O by progress_cases.
    reflexivity.
  - intros i [A' B' C'] Hi (HA' & HB' & HC'). simpl in *. subst A' B'.
    destruct (naive_j_loop C' i HC') as (C'' & Hj & HC''); try lia.
    exists (Mmm.Globals A B C''). split; [exact Hj|]. simpl. auto.
Qed.

(** *** [i], [k], [j] order (matrix_mult_unopt.c) *)

Lemma ikj_j_loop C i k :
  cells_are n n C (dotp a b f (ikj_progress n i k 0)) ->
  0 <= i < n -> 0 <= k < n ->
  exists C',
    for_loop 0 n (fun j C =>
        c ← mget C i j; x ← mget A i k; y ← mget B k j;
        mset C i j (add c (mul x y))) C
    = Some C' /\
    cells_are n n C' (dotp a b f (ikj_progress n i (k + 1) 0)).
Proof.
  intros HC Hi Hk.
  edestruct (for_loop_inv
    (fun j C => cells_are n n C (dotp a b f (ikj_progress n i k j))))
    as (C' & Hloop & HC'); cycle 3.
  - exists C'. split; [exact Hloop|].
    revert HC'. apply dotp_ext. intros; progress_cases.
  - lia.
  - exact HC.
  - intros j C' Hj HC'.
    destruct (mac_step C' _ i j k HC') as (C'' & Hstep & HC''); try lia.
    { progress_cases. }
    exists C''. split; [exact Hstep|].
    revert HC''. apply dotp_ext. intros; progress_cases.
Qed.

Lemma ikj_k_loop C i :
  cells_are n n C (dotp a b f (ikj_progress n i 0 0)) ->
  0 <= i < n ->
  exists C',
    for_loop 0 n (fun k C =>
      for_loop 0 n (fun j C =>
        c ← mget C i j; x ← mget A i k; y ← mget B k j;
        mset C i j (add c (mul x y))) C) C
    = Some C' /\
    cells_are n n C' (dotp a b f (ikj_progress n (i + 1) 0 0)).
Proof.
  intros HC Hi.
  edestruct (for_loop_inv
    (fun k C => cells_are n n C (dotp a b f (ikj_progress n i k 0))))
    as (C' & Hloop & HC'); cycle 3.
  - exists C'. split; [exact Hloop|].
    revert HC'. apply dotp_ext. intros; progress_cases.
  - lia.
  - exact HC.
  - intros k C' Hk HC'. now apply ikj_j_loop.
Qed.

Lemma ikj_i_loop C :
  cells_are n n C f ->
  exists C',
    MatrixMultUnopt.matrix_multiply A B C n = Some C' /\
    cells_are n n C' (fun i j => dot_acc a b i j (Z.to_nat n) (f i j)).
Proof.
  intros HC.
  assert (Hn : 0 <= n) by (destruct HC as [[Hn _] _]; lia).
  edestruct (for_loop_inv
    (fun i C => cells_are n n C (dotp a b f (ikj_progress n i 0 0))))
    as (C' & Hloop & HC'); cycle 3.
  - exists C'. split; [exact Hloop|].
    revert HC'. apply cells_are_ext. intros i j Hi Hj.
    unfold dotp. f_equal. progress_cases.
  - exact Hn.
  - revert HC. apply cells_are_ext. intros i j Hi Hj.
    unfold dotp. replace (ikj_progress n 0 0 0 i j) with O by progress_cases.
    reflexivity.
  - intros i C' Hi HC'. now apply ikj_k_loop.
Qed.
End MultiplyAccumulate.

(** ** Initialisation loops *)

Ltac done_cases :=
  unfold sel, upd, rows_done, cols_done;
  repeat match goal with
         | |- context [?x <? ?y] => destruct (Z.ltb_spec x y); simpl
         | |- context [?x =? ?y] => destruct (Z.eqb_spec x y); simpl
         end;
  subst; try lia; try reflexivity.

Section FillLemmas.
Context {T : Type}.
Implicit Types (M : matrix T) (v f : Z -> Z -> T).

(** Storing the final value of cell [(i, j)] marks it done. *)
Lemma cells_are_fill n m M d d' v f i j :
  cells_are n m M (sel d v f) -> 0 <= i < n -> 0 <= j < m ->
  (forall i' j', 0 <= i' < n -> 0 <= j' < m ->
     d' i' j' = ((i' =? i) && (j' =? j)) || d i' j') ->
  exists M', mset M i j (v i j) = Some M' /\ cells_are n m M' (sel d' v f).
Proof.
  intros HM Hi Hj Hd.
  destruct (cells_are_mset n m M _ i j (v i j) HM Hi Hj) as (M' & Hset & HM').
  exists M'. split; [exact Hset|].
  revert HM'. apply cells_are_ext. intros i' j' Hi' Hj'.
  unfold sel, upd. rewrite Hd by assumption.
  destruct (Z.eqb_spec i' i) as [->|]; [|reflexivity].
  destruct (Z.eqb_spec j' j) as [->|]; reflexivity.
Qed.

Lemma is_matrix_replicate n m (x : T) :
  0 <= n -> 0 <= m ->
  is_matrix n m (replicate (Z.to_nat n) (replicate (Z.to_nat m) x)).
Proof.
  intros Hn Hm. split.
  - rewrite length_replicate. lia.
  - apply Forall_replicate. rewrite length_replicate. lia.
Qed.

Lemma cells_are_is_matrix n m M f : cells_are n m M f -> is_matrix n m M.
Proof. now intros [HM _]. Qed.

Lemma cells_are_mget n m M f i j :
  cells_are n m M f -> 0 <= i < n -> 0 <= j < m -> mget M i j = Some (f i j).
Proof. intros [_ Hf]. apply Hf. Qed.
End FillLemmas.

Section InitMatrices.
Context {T : Type} `{Arith T}.
Variable n : Z.

Lemma init_matrices_spec (g : Mmm.globals T) :
  is_matrix n n (Mmm.gA g) -> is_matrix n n (Mmm.gB g) ->
  is_matrix n n (Mmm.gC g) ->
  exists g',
    Mmm.init_matrices_n n g = Some g' /\
    cells_are n n (Mmm.gA g') (fun i j => of_int (i + j)) /\
    cells_are n n (Mmm.gB g') (fun i j => of_int (i - j)) /\
    cells_are n n (Mmm.gC g') (fun _ _ => zero).
Proof.
  intros HA HB HC.
  assert (Hn : 0 <= n) by (destruct HA as [Hn _]; lia).
  set (va := fun i j : Z => of_int (i + j)).
  set (vb := fun i j : Z => of_int (i - j)).
  set (vc := fun _ _ : Z => zero).
  set (P := fun (i j : Z) (g' : Mmm.globals T) =>
    cells_are n n (Mmm.gA g') (sel (rows_done i j) va (cell zero (Mmm.gA g))) /\
    cells_are n n (Mmm.gB g') (sel (rows_done i j) vb (cell zero (Mmm.gB g))) /\
    cells_are n n (Mmm.gC g') (sel (rows_done i j) vc (cell zero (Mmm.gC g)))).
  destruct (for_loop_inv (fun i g' => P i 0 g') 0 n
    (fun i g => for_loop 0 n (fun j g =>
        a ← mset (Mmm.gA g) i j (of_int (i + j));
        b ← mset (Mmm.gB g) i j (of_int (i - j));
        c ← mset (Mmm.gC g) i j zero;
        Some (Mmm.Globals a b c)) g) g Hn)
    as (g' & Hloop & HA' & HB' & HC').
  - repeat split; try assumption;
      (eapply cells_are_ext; [|apply (cells_are_cell zero); eassumption]);
      intros; done_cases.
  - intros i g1 Hi HP.
    destruct (for_loop_inv (fun j g' => P i j g') 0 n
      (fun j g =>
        a ← mset (Mmm.gA g) i j (of_int (i + j));
        b ← mset (Mmm.gB g) i j (of_int (i - j));
        c ← mset (Mmm.gC g) i j zero;
        Some (Mmm.Globals a b c)) g1 Hn HP)
      as (g2 & Hloop & HA2 & HB2 & HC2).
    + intros j g2 Hj (HA2 & HB2 & HC2).
      destruct (cells_are_fill n n _ _ (rows_done i (j + 1)) va _ i j HA2)
        as (A' & HsA & HA'); try lia. { intros; done_cases. }
      destruct (cells_are_fill n n _ _ (rows_done i (j + 1)) vb _ i j HB2)
        as (B' & HsB & HB'); try lia. { intros; done_cases. }
      destruct (cells_are_fill n n _ _ (rows_done i (j + 1)) vc _ i j HC2)
        as (C' & HsC & HC'); try lia. { intros; done_cases. }
      exists (Mmm.Globals A' B' C'). split.
      * unfold va in HsA. unfold vb in HsB. unfold vc in HsC.
        rewrite HsA. simpl. rewrite HsB. simpl. rewrite HsC. reflexivity.
      * repeat split; simpl; try apply HA'; try apply HB'; apply HC'.
    + exists g2. split; [exact Hloop|].
      repeat split; try apply HA2; try apply HB2; try apply HC2;
        intros i' j' Hi' Hj'.
      * rewrite (cells_are_mget _ _ _ _ _ _ HA2 Hi' Hj'). f_equal. done_cases.
      * rewrite (cells_are_mget _ _ _ _ _ _ HB2 Hi' Hj'). f_equal. done_cases.
      * rewrite (cells_are_mget _ _ _ _ _ _ HC2 Hi' Hj'). f_equal. done_cases.
  - exists g'. split; [exact Hloop|].
    repeat split; try apply HA'; try apply HB'; try apply HC';
      intros i' j' Hi' Hj'.
    + rewrite (cells_are_mget _ _ _ _ _ _ HA' Hi' Hj'). f_equal. done_cases.
    + rewrite (cells_are_mget _ _ _ _ _ _ HB' Hi' Hj'). f_equal. done_cases.
    + rewrite (cells_are_mget _ _ _ _ _ _ HC' Hi' Hj'). f_equal. done_cases.
Qed.
End InitMatrices.

(** ** The matrix products *)

Lemma dot_acc_ext {T : Type} `{Arith T} (a b a' b' : Z -> Z -> T) i j cnt c0 :
  (forall k, 0 <= k < Z.of_nat cnt -> a i k = a' i k /\ b k j = b' k j) ->
  dot_acc a b i j cnt c0 = dot_acc a' b' i j cnt c0.
Proof.
  induction cnt as [|cnt IH]; intros Hext; [reflexivity|].
  unfold dot_acc in *. rewrite !seq_S, !fold_left_app. simpl.
  rewrite IH by (intros; apply Hext; lia).
  destruct (Hext (Z.of_nat cnt)) as [-> ->]; [lia | reflexivity].
Qed.

Lemma mmm_static_globals_ok {T : Type} `{Arith T} n :
  0 <= n ->
  is_matrix n n (Mmm.gA (Mmm.static_globals (T:=T) n)) /\
  is_matrix n n (Mmm.gB (Mmm.static_globals (T:=T) n)) /\
  is_matrix n n (Mmm.gC (Mmm.static_globals (T:=T) n)).
Proof.
  intros Hn. simpl. unfold Mmm.zeros.
  repeat split; try (rewrite length_replicate; lia);
    apply Forall_replicate; rewrite length_replicate; lia.
Qed.

(** What [init_matrices] followed by [matrix_multiply_naive] leaves in the
    globals of mmm.c. *)
Lemma mmm_kernel_spec :
  exists g1 C2,
    Mmm.init_matrices (Mmm.static_globals Mmm.N) = Some g1 /\
    Mmm.matrix_multiply_naive g1
    = Some (Mmm.Globals (Mmm.gA g1) (Mmm.gB g1) C2) /\
    cells_are Mmm.N Mmm.N (Mmm.gA g1) (fun i j => F32.of_Z (i + j)) /\
    cells_are Mmm.N Mmm.N (Mmm.gB g1) (fun i j => F32.of_Z (i - j)) /\
    cells_are Mmm.N Mmm.N (Mmm.gC g1) (fun _ _ => F32.pzero) /\
    cells_are Mmm.N Mmm.N C2
      (fun i j => dot_acc (fun i j => F32.of_Z (i + j))
                          (fun i j => F32.of_Z (i - j)) i j
                          (Z.to_nat Mmm.N) F32.pzero).
Proof.
  destruct (mmm_static_globals_ok (T:=float32) Mmm.N) as (HA & HB & HC);
    [unfold Mmm.N; lia|].
  destruct (init_matrices_spec Mmm.N _ HA HB HC)
    as ([A1 B1 C1] & Hinit & HA1 & HB1 & HC1).
  cbn [Mmm.gA Mmm.gB Mmm.gC] in HA1, HB1, HC1.
  destruct (naive_i_loop Mmm.N A1 B1 _ _ _ HA1 HB1 C1 HC1) as (C2 & Hmul & HC2).
  exists (Mmm.Globals A1 B1 C1), C2. cbn [Mmm.gA Mmm.gB Mmm.gC].
  split; [exact Hinit|]. split; [exact Hmul|].
  split; [exact HA1|]. split; [exact HB1|]. split; [exact HC1|]. exact HC2.
Qed.

(** C1. In mmm.c, after [init_matrices] (A[i][j] = i + j, B[i][j] = i - j,
    C zeroed) and [matrix_multiply_naive], the cell C[0][0] holds the dot
    product of row 0 of A and column 0 of B: the terms A[0][k] * B[k][0] for
    k = 0 .. 127 added to 0 in increasing order of k ([dot_acc] is that left
    fold).  In binary32 arithmetic the value is exactly 690880. *)
Theorem mmm_C00_is_dot_product :
  exists g1 g2 : Mmm.globals float32,
    Mmm.init_matrices (Mmm.static_globals Mmm.N) = Some g1 /\
    Mmm.matrix_multiply_naive g1 = Some g2 /\
    (forall i j, 0 <= i < Mmm.N -> 0 <= j < Mmm.N ->
       mget (Mmm.gA g1) i j = Some (F32.of_Z (i + j)) /\
       mget (Mmm.gB g1) i j = Some (F32.of_Z (i - j)) /\
       mget (Mmm.gC g1) i j = Some F32.pzero) /\
    mget (Mmm.gC g2) 0 0
    = Some (dot_acc (cell zero (Mmm.gA g1)) (cell zero (Mmm.gB g1)) 0 0
                    (Z.to_nat 128) F32.pzero) /\
    mget (Mmm.gC g2) 0 0 = Some (F32.of_Z 690880).
Proof.
  destruct mmm_kernel_spec as (g1 & C2 & Hinit & Hmul & HA & HB & HC & HC2).
  exists g1, (Mmm.Globals (Mmm.gA g1) (Mmm.gB g1) C2).
  split; [exact Hinit|]. split; [exact Hmul|]. split; [|split].
  - intros i j Hi Hj.
    rewrite (cells_are_mget _ _ _ _ _ _ HA Hi Hj).
    rewrite (cells_are_mget _ _ _ _ _ _ HB Hi Hj).
    rewrite (cells_are_mget _ _ _ _ _ _ HC Hi Hj). auto.
  - cbn [Mmm.gC]. rewrite (cells_are_mget _ _ _ _ 0 0 HC2) by (unfold Mmm.N; lia).
    f_equal. apply dot_acc_ext. intros k Hk.
    unfold cell.
    rewrite (cells_are_mget _ _ _ _ 0 k HA) by (unfold Mmm.N; lia).
    rewrite (cells_are_mget _ _ _ _ k 0 HB) by (unfold Mmm.N; lia).
    auto.
  - cbn [Mmm.gC]. rewrite (cells_are_mget _ _ _ _ 0 0 HC2) by (unfold Mmm.N; lia).
    apply f_equal. vm_compute. reflexivity.
Qed.

(** C6. The [i], [k], [j] nest of matrix_mult_unopt.c and the [i], [j], [k]
    nest of mmm.c agree: for every size [n] and all [n] x [n] matrices [A],
    [B], with [C] all zeros, both succeed and leave the same [C], whose cell
    [(i, j)] is the sum of the products A[i][k] * B[k][j] added to zero in
    increasing order of [k] -- whatever the addition and multiplication of
    the element type are, so also for floating-point numbers. *)
Theorem loop_orders_agree {T : Type} `{Arith T} (n : Z) (A B C : matrix T) :
  is_matrix n n A -> is_matrix n n B -> is_matrix n n C ->
  (forall i j, 0 <= i < n -> 0 <= j < n -> mget C i j = Some zero) ->
  exists C',
    MatrixMultUnopt.matrix_multiply A B C n = Some C' /\
    Mmm.matrix_multiply_naive_n n (Mmm.Globals A B C)
    = Some (Mmm.Globals A B C') /\
    forall i j, 0 <= i < n -> 0 <= j < n ->
      mget C' i j
      = Some (dot_acc (cell zero A) (cell zero B) i j (Z.to_nat n) zero).
Proof.
  intros HA HB HC Hzero.
  pose proof (cells_are_cell zero n n A HA) as HA'.
  pose proof (cells_are_cell zero n n B HB) as HB'.
  assert (HC' : cells_are n n C (fun _ _ => zero)) by (split; assumption).
  destruct (ikj_i_loop n A B _ _ _ HA' HB' C HC') as (C1 & H1 & HC1).
  destruct (naive_i_loop n A B _ _ _ HA' HB' C HC') as (C2 & H2 & HC2).
  assert (C2 = C1) as -> by (eapply cells_are_inj; eassumption).
  exists C1. split; [exact H1|]. split; [exact H2|].
  intros i j Hi Hj. now apply HC1.
Qed.

Lemma loop_orders_agree_witness :
  exists C',
    MatrixMultUnopt.matrix_multiply (T:=Z) [[1; 2]; [3; 4]] [[5; 6]; [7; 8]]
      [[0; 0]; [0; 0]] 2 = Some C' /\
    Mmm.matrix_multiply_naive_n 2
      (Mmm.Globals [[1; 2]; [3; 4]] [[5; 6]; [7; 8]] [[0; 0]; [0; 0]])
    = Some (Mmm.Globals [[1; 2]; [3; 4]] [[5; 6]; [7; 8]] C') /\
    forall i j, 0 <= i < 2 -> 0 <= j < 2 ->
      mget C' i j
      = Some (dot_acc (cell zero [[1; 2]; [3; 4]]) (cell zero [[5; 6]; [7; 8]])
                      i j (Z.to_nat 2) zero).
Proof.
  apply (loop_orders_agree (T:=Z) 2).
  - split; [reflexivity | repeat constructor].
  - split; [reflexivity | repeat constructor].
  - split; [reflexivity | repeat constructor].
  - intros i j Hi Hj.
    assert (Ei : i = 0 \/ i = 1) by lia. assert (Ej : j = 0 \/ j = 1) by lia.
    destruct Ei as [-> | ->]; destruct Ej as [-> | ->]; reflexivity.
Defined.

Example loop_orders_agree_value :
  MatrixMultUnopt.matrix_multiply (T:=Z) [[1; 2]; [3; 4]] [[5; 6]; [7; 8]]
    [[0; 0]; [0; 0]] 2 = Some [[19; 22]; [43; 50]].
Proof. reflexivity. Qed.

(** ** One-dimensional arrays *)

Section ElemsLemmas.
Context {T : Type}.
Implicit Types (a b : list T) (f v : Z -> T).

Lemma elems_are_aset n a f i x :
  elems_are n a f -> 0 <= i < n ->
  exists a', aset a i x = Some a' /\
             elems_are n a' (fun i' => if i' =? i then x else f i').
Proof.
  intros [Hn Hf] Hi. exists (<[Z.to_nat i := x]> a). split.
  - apply aset_in_range. lia.
  - split; [now rewrite length_insert|].
    intros i' Hi'. rewrite aget_insert by lia.
    destruct (i' =? i); [reflexivity | now apply Hf].
Qed.

Lemma elems_are_ext n a f g :
  (forall i, 0 <= i < n -> f i = g i) -> elems_are n a f -> elems_are n a g.
Proof.
  intros Hfg [Hn Hf]. split; [exact Hn|].
  intros i Hi. rewrite <- Hfg by exact Hi. now apply Hf.
Qed.

Lemma elems_are_self (d : T) a :
  elems_are (Z.of_nat (length a)) a (fun i => default d (aget a i)).
Proof.
  split; [reflexivity|]. intros i Hi.
  destruct (aget_in_range a i Hi) as [x Hx]. now rewrite Hx.
Qed.

Lemma elems_are_inj n a b f : elems_are n a f -> elems_are n b f -> a = b.
Proof.
  intros [Ha Hfa] [Hb Hfb]. apply list_eq. intros i.
  destruct (Nat.lt_ge_cases i (length a)) as [Hlt|Hge].
  - specialize (Hfa (Z.of_nat i)). specialize (Hfb (Z.of_nat i)).
    rewrite aget_of_nat in Hfa, Hfb. rewrite Hfa, Hfb by lia. reflexivity.
  - rewrite !lookup_ge_None_2 by lia. reflexivity.
Qed.

Lemma elems_are_replicate n (x : T) :
  0 <= n -> elems_are n (replicate (Z.to_nat n) x) (fun _ => x).
Proof.
  intros Hn. split; [rewrite length_replicate; lia|].
  intros i Hi. apply aget_Some. split; [lia|].
  apply lookup_replicate_2. lia.
Qed.

(** A loop that stores [v i] in cell [i], for every [i] below [n]. *)
Lemma fill_loop n (body : Z -> list T -> option (list T)) b f v :
  elems_are n b f ->
  (forall i b', 0 <= i < n -> body i b' = aset b' i (v i)) ->
  exists b', for_loop 0 n body b = Some b' /\ elems_are n b' v.
Proof.
  intros Hb Hbody.
  assert (Hn : 0 <= n) by (destruct Hb as [Hn _]; lia).
  destruct (for_loop_inv (fun k b' => elems_are n b' (sel1 k v f))
              0 n body b Hn) as (b' & Hloop & Hb').
  - revert Hb. apply elems_are_ext. intros i Hi. unfold sel1.
    destruct (Z.ltb_spec i 0); [lia | reflexivity].
  - intros i b1 Hi Hb1.
    destruct (elems_are_aset n b1 _ i (v i) Hb1 Hi) as (b2 & Hset & Hb2).
    exists b2. split; [now rewrite Hbody|].
    revert Hb2. apply elems_are_ext. intros i' Hi'. unfold sel1.
    destruct (Z.eqb_spec i' i); destruct (Z.ltb_spec i' (i + 1));
      destruct (Z.ltb_spec i' i); subst; try lia; reflexivity.
  - exists b'. split; [exact Hloop|].
    revert Hb'. apply elems_are_ext. intros i Hi. unfold sel1.
    destruct (Z.ltb_spec i n); [reflexivity | lia].
Qed.
End ElemsLemmas.

(** ** The stream kernels *)

Section Stream.
Import StreamBench.
Variable n : Z.
Variables (a b c : list float64) (fa fb fc : Z -> float64).
Hypothesis Ha : elems_are n a fa.
Hypothesis Hb : elems_are n b fb.
Hypothesis Hc : elems_are n c fc.

Lemma stream_copy_spec :
  exists c', stream_copy a c n = Some c' /\ elems_are n c' fa.
Proof.
  apply (fill_loop n _ c fc fa Hc). intros i c' Hi.
  now rewrite (proj2 Ha i Hi).
Qed.

Lemma stream_scale_spec scalar :
  exists b', stream_scale a b scalar n = Some b' /\
             elems_are n b' (fun i => F64.fmul scalar (fa i)).
Proof.
  apply (fill_loop n _ b fb _ Hb). intros i b' Hi.
  now rewrite (proj2 Ha i Hi).
Qed.

Lemma stream_add_spec :
  exists c', stream_add a b c n = Some c' /\
             elems_are n c' (fun i => F64.fadd (fa i) (fb i)).
Proof.
  apply (fill_loop n _ c fc _ Hc). intros i c' Hi.
  now rewrite (proj2 Ha i Hi), (proj2 Hb i Hi).
Qed.

Lemma stream_triad_spec scalar :
  exists a', stream_triad a b c scalar n = Some a' /\
             elems_are n a'
               (fun i => F64.fadd (fb i) (F64.fmul scalar (fc i))).
Proof.
  apply (fill_loop n _ a fa _ Ha). intros i a' Hi.
  now rewrite (proj2 Hb i Hi), (proj2 Hc i Hi).
Qed.

Lemma initialize_arrays_spec :
  exists s, initialize_arrays (Arrays a b c) n = Some s /\
    elems_are n (arr_a s) (fun _ => F64.of_dyadic 1 0) /\
    elems_are n (arr_b s) (fun _ => F64.of_dyadic 2 0) /\
    elems_are n (arr_c s) (fun _ => F64.of_dyadic 0 0).
Proof.
  assert (Hn : 0 <= n) by (destruct Ha as [Hn _]; lia).
  destruct (for_loop_inv
    (fun k s =>
       elems_are n (arr_a s) (sel1 k (fun _ => F64.of_dyadic 1 0) fa) /\
       elems_are n (arr_b s) (sel1 k (fun _ => F64.of_dyadic 2 0) fb) /\
       elems_are n (arr_c s) (sel1 k (fun _ => F64.of_dyadic 0 0) fc))
    0 n (fun i s =>
       a ← aset (arr_a s) i (F64.of_dyadic 1 0);
       b ← aset (arr_b s) i (F64.of_dyadic 2 0);
       c ← aset (arr_c s) i (F64.of_dyadic 0 0);
       Some (Arrays a b c)) (Arrays a b c) Hn)
    as (s & Hloop & Ha' & Hb' & Hc').
  - cbn [arr_a arr_b arr_c].
    split; [|split];
      [revert Ha | revert Hb | revert Hc]; apply elems_are_ext;
      intros i Hi; unfold sel1;
      (destruct (Z.ltb_spec i 0); [lia | reflexivity]).
  - intros i [a1 b1 c1] Hi (Ha1 & Hb1 & Hc1). cbn [arr_a arr_b arr_c] in *.
    destruct (elems_are_aset n a1 _ i (F64.of_dyadic 1 0) Ha1 Hi)
      as (a2 & -> & Ha2).
    destruct (elems_are_aset n b1 _ i (F64.of_dyadic 2 0) Hb1 Hi)
      as (b2 & -> & Hb2).
    destruct (elems_are_aset n c1 _ i (F64.of_dyadic 0 0) Hc1 Hi)
      as (c2 & -> & Hc2).
    exists (Arrays a2 b2 c2). split; [reflexivity|].
    cbn [arr_a arr_b arr_c].
    split; [|split];
      [revert Ha2 | revert Hb2 | revert Hc2]; apply elems_are_ext;
      intros i' Hi'; unfold sel1;
      (destruct (Z.eqb_spec i' i); destruct (Z.ltb_spec i' (i + 1));
       destruct (Z.ltb_spec i' i); subst; try lia; reflexivity).
  - exists s. split; [exact Hloop|].
    split; [|split];
      [revert Ha' | revert Hb' | revert Hc']; apply elems_are_ext;
      intros i Hi; unfold sel1;
      (destruct (Z.ltb_spec i n); [reflexivity | lia]).
Qed.
End Stream.

Section StreamPasses.
Import StreamBench.

(** One pass acts index by index, as [pass_elem]; proved at any array
    size [n]. *)
Lemma pass_body_spec n s fa fb fc :
  elems_are n (arr_a s) fa ->
  elems_are n (arr_b s) fb ->
  elems_are n (arr_c s) fc ->
  exists s',
    (c ← stream_copy (arr_a s) (arr_c s) n;
     b ← stream_scale c (arr_b s) (F64.of_dyadic 5 (-1)) n;
     c ← stream_add (arr_a s) b c n;
     a ← stream_triad (arr_a s) b c (F64.of_dyadic 3 (-1)) n;
     Some (Arrays a b c)) = Some s' /\
    elems_are n (arr_a s')
      (fun i => fst (fst (pass_elem (fa i, fb i, fc i)))) /\
    elems_are n (arr_b s')
      (fun i => snd (fst (pass_elem (fa i, fb i, fc i)))) /\
    elems_are n (arr_c s')
      (fun i => snd (pass_elem (fa i, fb i, fc i))).
Proof.
  intros Ha Hb Hc.
  destruct (stream_copy_spec _ _ _ _ _ Ha Hc) as (c1 & -> & Hc1).
  cbn [mbind option_bind].
  destruct (stream_scale_spec _ _ _ _ _ Hc1 Hb (F64.of_dyadic 5 (-1)))
    as (b1 & -> & Hb1).
  cbn [mbind option_bind].
  destruct (stream_add_spec _ _ _ _ _ _ _ Ha Hb1 Hc1) as (c2 & -> & Hc2).
  cbn [mbind option_bind].
  destruct (stream_triad_spec _ _ _ _ _ _ _ Ha Hb1 Hc2 (F64.of_dyadic 3 (-1)))
    as (a1 & -> & Ha1).
  cbn [mbind option_bind].
  exists (Arrays a1 b1 c2). split; [reflexivity|].
  cbn [arr_a arr_b arr_c]. auto.
Qed.

Lemma pass_spec s fa fb fc :
  elems_are ARRAY_SIZE (arr_a s) fa ->
  elems_are ARRAY_SIZE (arr_b s) fb ->
  elems_are ARRAY_SIZE (arr_c s) fc ->
  exists s', pass s = Some s' /\
    elems_are ARRAY_SIZE (arr_a s')
      (fun i => fst (fst (pass_elem (fa i, fb i, fc i)))) /\
    elems_are ARRAY_SIZE (arr_b s')
      (fun i => snd (fst (pass_elem (fa i, fb i, fc i)))) /\
    elems_are ARRAY_SIZE (arr_c s')
      (fun i => snd (pass_elem (fa i, fb i, fc i))).
Proof. exact (pass_body_spec ARRAY_SIZE s fa fb fc). Qed.

Lemma passes_spec (reps : nat) s :
  elems_are ARRAY_SIZE (arr_a s) (fun _ => F64.of_dyadic 1 0) ->
  elems_are ARRAY_SIZE (arr_b s) (fun _ => F64.of_dyadic 2 0) ->
  elems_are ARRAY_SIZE (arr_c s) (fun _ => F64.of_dyadic 0 0) ->
  exists s', passes (Z.of_nat reps) s = Some s' /\
    elems_are ARRAY_SIZE (arr_a s') (fun _ => fst (fst (elem_after reps))) /\
    elems_are ARRAY_SIZE (arr_b s') (fun _ => snd (fst (elem_after reps))) /\
    elems_are ARRAY_SIZE (arr_c s') (fun _ => snd (elem_after reps)).
Proof.
  intros Ha Hb Hc.
  destruct (for_loop_inv
    (fun k s' =>
       elems_are ARRAY_SIZE (arr_a s')
         (fun _ => fst (fst (elem_after (Z.to_nat k)))) /\
       elems_are ARRAY_SIZE (arr_b s')
         (fun _ => snd (fst (elem_after (Z.to_nat k)))) /\
       elems_are ARRAY_SIZE (arr_c s')
         (fun _ => snd (elem_after (Z.to_nat k))))
    0 (Z.of_nat reps) (fun _ s => pass s) s) as (s' & Hloop & HP).
  - lia.
  - change (Z.to_nat 0) with O.
    split; [exact Ha | split; [exact Hb | exact Hc]].
  - intros k s1 Hk (Ha1 & Hb1 & Hc1).
    destruct (pass_spec s1 _ _ _ Ha1 Hb1 Hc1) as (s2 & Hpass & Ha2 & Hb2 & Hc2).
    exists s2. split; [exact Hpass|].
    replace (Z.to_nat (k + 1)) with (Datatypes.S (Z.to_nat k)) by lia.
    change (elem_after (Datatypes.S (Z.to_nat k)))
      with (pass_elem (elem_after (Z.to_nat k))).
    destruct (elem_after (Z.to_nat k)) as [[x y] z].
    split; [exact Ha2 | split; [exact Hb2 | exact Hc2]].
  - exists s'. split; [exact Hloop|]. now rewrite Nat2Z.id in HP.
Qed.
End StreamPasses.

(** ** The stream benchmark, pass after pass *)

Section StreamRun.
Import StreamBench.

Lemma elems_are_of_length {T : Type} (d : T) n (a : list T) :
  Z.of_nat (length a) = n -> elems_are n a (fun i => default d (aget a i)).
Proof. intros <-. apply elems_are_self. Qed.

(** Initialisation followed by [reps] passes leaves, at every index, the
    three values [elem_after reps]. *)
Lemma stream_run_spec (a0 b0 c0 : list float64) (reps : nat) :
  Z.of_nat (length a0) = ARRAY_SIZE ->
  Z.of_nat (length b0) = ARRAY_SIZE ->
  Z.of_nat (length c0) = ARRAY_SIZE ->
  exists s0 s,
    initialize_arrays (Arrays a0 b0 c0) ARRAY_SIZE = Some s0 /\
    passes (Z.of_nat reps) s0 = Some s /\
    elems_are ARRAY_SIZE (arr_a s) (fun _ => fst (fst (elem_after reps))) /\
    elems_are ARRAY_SIZE (arr_b s) (fun _ => snd (fst (elem_after reps))) /\
    elems_are ARRAY_SIZE (arr_c s) (fun _ => snd (elem_after reps)).
Proof.
  intros Ha Hb Hc.
  destruct (initialize_arrays_spec ARRAY_SIZE a0 b0 c0 _ _ _
              (elems_are_of_length F64.pzero _ _ Ha)
              (elems_are_of_length F64.pzero _ _ Hb)
              (elems_are_of_length F64.pzero _ _ Hc))
    as (s0 & Hinit & Ha0 & Hb0 & Hc0).
  destruct (passes_spec reps s0 Ha0 Hb0 Hc0) as (s & Hrun & HP).
  exists s0, s. auto.
Qed.

Lemma triad_holds_each_pass :
  forallb triad_holds (seq 1 (Z.to_nat REPEAT_COUNT)) = true.
Proof. vm_compute. reflexivity. Qed.

Lemma scaled_fails_each_pass :
  forallb (fun r => negb (scaled_holds r)) (seq 1 (Z.to_nat REPEAT_COUNT))
  = true.
Proof. vm_compute. reflexivity. Qed.
End StreamRun.

(** C2 (amended). In stream_bench.c, starting from arrays of [ARRAY_SIZE]
    cells, after [initialize_arrays] (a[i] = 1.0, b[i] = 2.0, c[i] = 0.0) and
    any number [reps] of passes from 1 to [REPEAT_COUNT] of the sequence
    stream_copy(a, c), stream_scale(c, b, 2.5), stream_add(a, b, c),
    stream_triad(a, b, c, 1.5), every index [i] satisfies the triad identity
    a[i] == b[i] + 1.5 * c[i]. *)
Theorem stream_triad_identity (a0 b0 c0 : list float64) (reps i : Z) :
  Z.of_nat (length a0) = StreamBench.ARRAY_SIZE ->
  Z.of_nat (length b0) = StreamBench.ARRAY_SIZE ->
  Z.of_nat (length c0) = StreamBench.ARRAY_SIZE ->
  1 <= reps <= StreamBench.REPEAT_COUNT ->
  0 <= i < StreamBench.ARRAY_SIZE ->
  exists s0 s x y z,
    StreamBench.initialize_arrays (StreamBench.Arrays a0 b0 c0)
      StreamBench.ARRAY_SIZE = Some s0 /\
    StreamBench.passes reps s0 = Some s /\
    aget (StreamBench.arr_a s) i = Some x /\
    aget (StreamBench.arr_b s) i = Some y /\
    aget (StreamBench.arr_c s) i = Some z /\
    F64.eqb x (F64.fadd y (F64.fmul (F64.of_dyadic 3 (-1)) z)) = true.
Proof.
  intros Ha Hb Hc Hreps Hi.
  destruct (stream_run_spec a0 b0 c0 (Z.to_nat reps) Ha Hb Hc)
    as (s0 & s & Hinit & Hrun & Hsa & Hsb & Hsc).
  rewrite Z2Nat.id in Hrun by lia.
  exists s0, s. do 3 eexists.
  split; [exact Hinit|]. split; [exact Hrun|].
  split; [exact (proj2 Hsa i Hi)|]. split; [exact (proj2 Hsb i Hi)|].
  split; [exact (proj2 Hsc i Hi)|].
  pose proof triad_holds_each_pass as Hall.
  rewrite forallb_forall in Hall.
  specialize (Hall (Z.to_nat reps)). unfold StreamBench.triad_holds in Hall.
  destruct (StreamBench.elem_after (Z.to_nat reps)) as [[x y] z].
  apply Hall. apply in_seq. unfold StreamBench.REPEAT_COUNT in *. lia.
Qed.

Lemma stream_triad_identity_witness :
  exists s0 s x y z,
    StreamBench.initialize_arrays
      (StreamBench.Arrays
         (replicate (Z.to_nat StreamBench.ARRAY_SIZE) F64.pzero)
         (replicate (Z.to_nat StreamBench.ARRAY_SIZE) F64.pzero)
         (replicate (Z.to_nat StreamBench.ARRAY_SIZE) F64.pzero))
      StreamBench.ARRAY_SIZE = Some s0 /\
    StreamBench.passes 10 s0 = Some s /\
    aget (StreamBench.arr_a s) 100 = Some x /\
    aget (StreamBench.arr_b s) 100 = Some y /\
    aget (StreamBench.arr_c s) 100 = Some z /\
    F64.eqb x (F64.fadd y (F64.fmul (F64.of_dyadic 3 (-1)) z)) = true.
Proof.
  apply stream_triad_identity.
  - rewrite length_replicate. apply Z2Nat.id. discriminate.
  - rewrite length_replicate. apply Z2Nat.id. discriminate.
  - rewrite length_replicate. apply Z2Nat.id. discriminate.
  - unfold StreamBench.REPEAT_COUNT. lia.
  - unfold StreamBench.ARRAY_SIZE. lia.
Defined.

(** C2 as stated fails: after the first pass a[0] is 7.75 and c[0] is 3.5,
    so a[0] == 1.5 * c[0] is false; the same holds at the final pass. *)
Lemma stream_scaled_identity_fails :
  exists s0 s1 s10 x1 z1 x10 z10,
    StreamBench.initialize_arrays
      (StreamBench.Arrays
         (replicate (Z.to_nat StreamBench.ARRAY_SIZE) F64.pzero)
         (replicate (Z.to_nat StreamBench.ARRAY_SIZE) F64.pzero)
         (replicate (Z.to_nat StreamBench.ARRAY_SIZE) F64.pzero))
      StreamBench.ARRAY_SIZE = Some s0 /\
    StreamBench.passes 1 s0 = Some s1 /\
    aget (StreamBench.arr_a s1) 0 = Some x1 /\
    aget (StreamBench.arr_c s1) 0 = Some z1 /\
    x1 = F64.of_dyadic 31 (-2) /\ z1 = F64.of_dyadic 7 (-1) /\
    F64.eqb x1 (F64.fmul (F64.of_dyadic 3 (-1)) z1) = false /\
    StreamBench.passes StreamBench.REPEAT_COUNT s0 = Some s10 /\
    aget (StreamBench.arr_a s10) 0 = Some x10 /\
    aget (StreamBench.arr_c s10) 0 = Some z10 /\
    F64.eqb x10 (F64.fmul (F64.of_dyadic 3 (-1)) z10) = false.
Proof.
  set (z0 := replicate (Z.to_nat StreamBench.ARRAY_SIZE) F64.pzero).
  assert (Hlen : Z.of_nat (length z0) = StreamBench.ARRAY_SIZE).
  { unfold z0. rewrite length_replicate. apply Z2Nat.id. discriminate. }
  destruct (stream_run_spec z0 z0 z0 1 Hlen Hlen Hlen)
    as (s0 & s1 & Hinit & Hrun1 & Ha1 & _ & Hc1).
  destruct (stream_run_spec z0 z0 z0 10 Hlen Hlen Hlen)
    as (s0' & s10 & Hinit' & Hrun10 & Ha10 & _ & Hc10).
  assert (s0' = s0) as -> by congruence.
  assert (H0 : 0 <= 0 < StreamBench.ARRAY_SIZE)
    by (unfold StreamBench.ARRAY_SIZE; lia).
  exists s0, s1, s10. do 4 eexists.
  split; [exact Hinit|]. split; [exact Hrun1|].
  split; [exact (proj2 Ha1 0 H0)|]. split; [exact (proj2 Hc1 0 H0)|].
  split; [vm_compute; reflexivity|]. split; [vm_compute; reflexivity|].
  split; [vm_compute; reflexivity|]. split; [exact Hrun10|].
  split; [exact (proj2 Ha10 0 H0)|]. split; [exact (proj2 Hc10 0 H0)|].
  vm_compute. reflexivity.
Qed.

(** ** Lab_2/kernels/kernel4.c: the blocked reads *)

Section Kernel4.
Import Lab2Kernel4.

(** The initialisation loop at any array size: cell [i] receives [i]. *)
Lemma fill_body_spec n :
  0 <= n ->
  exists A, for_loop 0 n (fun i A => aset A i i) (replicate (Z.to_nat n) 0)
            = Some A /\
            elems_are n A (fun i => i).
Proof.
  intros Hn.
  apply (fill_loop n _ _ (fun _ => 0) (fun i => i)
           (elems_are_replicate n 0 Hn)).
  reflexivity.
Qed.

Lemma fill_spec :
  exists A, fill static_A = Some A /\ elems_are ARRAY_SIZE A (fun i => i).
Proof. apply (fill_body_spec ARRAY_SIZE). discriminate. Qed.

Lemma aget_filled A i :
  elems_are ARRAY_SIZE A (fun i => i) -> aget A i = checked_read i.
Proof.
  intros [Hlen Hget]. unfold checked_read.
  destruct (Z.leb_spec 0 i); destruct (Z.ltb_spec i ARRAY_SIZE); simpl.
  - apply Hget. lia.
  - apply aget_out_of_range. lia.
  - apply aget_out_of_range. lia.
  - apply aget_out_of_range. lia.
Qed.

Lemma blocked_sum_ext rd rd' :
  (forall i, rd i = rd' i) -> blocked_sum rd = blocked_sum rd'.
Proof.
  intros Hrd. unfold blocked_sum, for_step.
  apply for_iter_ext. intros k s _.
  unfold for_loop, for_step. apply for_iter_ext. intros k' s' _.
  now rewrite Hrd.
Qed.

Lemma blocked_sum_fails : blocked_sum checked_read = None.
Proof. vm_compute. reflexivity. Qed.

Lemma main_undefined w : main w = None.
Proof.
  unfold main, bind, lift.
  destruct fill_spec as (A & -> & HA).
  rewrite (blocked_sum_ext (aget A) checked_read)
    by (intros i; now apply aget_filled).
  now rewrite blocked_sum_fails.
Qed.
End Kernel4.

(** C3 (the code departs from it). The blocked loop of kernel4.c runs the
    block starting at 9984 = 64 * 156, which is below [NUM_ACCESSES]; at
    [i = 16] it reads index (9984 + 16) * [STRIDE] = [ARRAY_SIZE], one past
    the last cell of [A], and so the program has undefined behaviour.  The
    reads with [block + i < NUM_ACCESSES] are the ones inside the array. *)
Theorem kernel4_read_out_of_bounds :
  9984 = 0 + Lab2Kernel4.BLOCK_SIZE * 156 /\
  (156 < trip_count 0 Lab2Kernel4.NUM_ACCESSES Lab2Kernel4.BLOCK_SIZE)%nat /\
  9984 < Lab2Kernel4.NUM_ACCESSES /\
  0 <= 16 < Lab2Kernel4.BLOCK_SIZE /\
  Lab2Kernel4.read_index 9984 16 = Lab2Kernel4.ARRAY_SIZE /\
  (exists A, Lab2Kernel4.fill Lab2Kernel4.static_A = Some A /\
             Z.of_nat (length A) = Lab2Kernel4.ARRAY_SIZE /\
             aget A (Lab2Kernel4.read_index 9984 16) = None) /\
  (forall block i, 0 <= block -> 0 <= i ->
     (Lab2Kernel4.read_index block i < Lab2Kernel4.ARRAY_SIZE
      <-> block + i < Lab2Kernel4.NUM_ACCESSES)) /\
  (forall w, Lab2Kernel4.main w = None).
Proof.
  split; [reflexivity|]. split; [vm_compute; lia|].
  split; [reflexivity|]. split; [split; [discriminate | reflexivity]|].
  split; [reflexivity|]. split; [|split].
  - destruct fill_spec as (A & HA & Hel). exists A.
    split; [exact HA|]. split; [apply Hel|].
    rewrite (aget_filled A _ Hel). reflexivity.
  - intros block i Hb Hi.
    unfold Lab2Kernel4.read_index, Lab2Kernel4.ARRAY_SIZE,
      Lab2Kernel4.STRIDE, Lab2Kernel4.NUM_ACCESSES. lia.
  - exact main_undefined.
Qed.

(** ** Lab_1/kernels/kernel2.c *)

Section Lab1Kernel2Lemmas.
Import Lab1Kernel2.

(** In binary32 the difference A[i] - B[i] is exactly [i - SIZE], which is
    below zero. *)
Lemma diff_values :
  all_from (fun i =>
              let diff := F32.fsub (A_val i) (B_val i) in
              F32.eqb diff (F32.of_Z (i - SIZE))
              && negb (F32.ltb (F32.of_Z 0) diff)
              && F32.ltb diff (F32.of_Z 0))
           (Z.to_nat SIZE) 0 = true.
Proof. vm_compute. reflexivity. Qed.

Lemma diff_not_positive i :
  0 <= i < SIZE ->
  F32.eqb (F32.fsub (A_val i) (B_val i)) (F32.of_Z (i - SIZE)) = true /\
  F32.ltb (F32.of_Z 0) (F32.fsub (A_val i) (B_val i)) = false /\
  F32.ltb (F32.fsub (A_val i) (B_val i)) (F32.of_Z 0) = true.
Proof.
  intros Hi.
  pose proof (all_from_spec _ _ _ diff_values i) as Hall.
  cbv zeta in Hall. rewrite Z2Nat.id in Hall by (unfold SIZE; lia).
  specialize (Hall ltac:(lia)).
  apply andb_prop in Hall as [Hall H3]. apply andb_prop in Hall as [H1 H2].
  apply negb_true_iff in H2. auto.
Qed.

Lemma fill_globals_spec :
  exists g, fill static_globals = Some g /\
    elems_are SIZE (A g) A_val /\ elems_are SIZE (B g) B_val /\
    sum g = F32.of_Z 0.
Proof.
  assert (Hn : 0 <= SIZE) by discriminate.
  destruct (for_loop_inv
    (fun k g =>
       elems_are SIZE (A g) (sel1 k A_val (fun _ => F32.pzero)) /\
       elems_are SIZE (B g) (sel1 k B_val (fun _ => F32.pzero)) /\
       sum g = F32.of_Z 0)
    0 SIZE (fun i g =>
       a ← aset (A g) i (A_val i);
       b ← aset (B g) i (B_val i);
       Some (Globals a b (sum g))) static_globals Hn)
    as (g & Hloop & Ha & Hb & Hs).
  - cbn [A B sum static_globals].
    split; [|split; [|reflexivity]];
      (eapply elems_are_ext; [|apply (elems_are_replicate SIZE F32.pzero Hn)]);
      intros i Hi; unfold sel1;
      (destruct (Z.ltb_spec i 0); [lia | reflexivity]).
  - intros i [a1 b1 s1] Hi (Ha1 & Hb1 & Hs1). cbn [A B sum] in *.
    destruct (elems_are_aset SIZE a1 _ i (A_val i) Ha1 Hi) as (a2 & -> & Ha2).
    destruct (elems_are_aset SIZE b1 _ i (B_val i) Hb1 Hi) as (b2 & -> & Hb2).
    exists (Globals a2 b2 s1). split; [reflexivity|]. cbn [A B sum].
    split; [|split; [|exact Hs1]];
      [revert Ha2 | revert Hb2]; apply elems_are_ext;
      intros i' Hi'; unfold sel1;
      (destruct (Z.eqb_spec i' i); destruct (Z.ltb_spec i' (i + 1));
       destruct (Z.ltb_spec i' i); subst; try lia; reflexivity).
  - exists g. split; [exact Hloop|].
    split; [|split; [|exact Hs]];
      [revert Ha | revert Hb]; apply elems_are_ext;
      intros i Hi; unfold sel1;
      (destruct (Z.ltb_spec i SIZE); [reflexivity | lia]).
Qed.

(** The guarded addition is never executed: the loop returns the globals
    as it found them. *)
Lemma accumulate_spec g :
  elems_are SIZE (A g) A_val -> elems_are SIZE (B g) B_val ->
  accumulate g = Some g.
Proof.
  intros Ha Hb.
  destruct (for_loop_inv (fun _ g' => g' = g) 0 SIZE
    (fun i g =>
       a ← aget (A g) i;
       b ← aget (B g) i;
       let diff := F32.fsub a b in
       Some (if F32.ltb (F32.of_Z 0) diff
             then Globals (A g) (B g) (F32.fadd (sum g) diff)
             else g)) g) as (g' & Hloop & ->).
  - discriminate.
  - reflexivity.
  - intros i g1 Hi ->. exists g. split; [|reflexivity].
    rewrite (proj2 Ha i Hi), (proj2 Hb i Hi). cbn [mbind option_bind].
    destruct (diff_not_positive i Hi) as (_ & -> & _). reflexivity.
  - exact Hloop.
Qed.

Lemma main_kernel_spec :
  exists g, main_kernel = Some g /\
    elems_are SIZE (A g) A_val /\ elems_are SIZE (B g) B_val /\
    sum g = F32.of_Z 0.
Proof.
  destruct fill_globals_spec as (g & Hfill & Ha & Hb & Hs).
  exists g. split; [|auto]. unfold main_kernel. rewrite Hfill.
  cbn [mbind option_bind]. now apply accumulate_spec.
Qed.

Lemma lab1_main_spec w :
  main w = Some (0, add_out [Printf ("Result: %f" ++ nl)
                                    [DataF (F64.of_Z 0)]] w).
Proof.
  destruct main_kernel_spec as (g & Hk & _ & _ & Hs).
  unfold main, bind, lift, printf, ret. rewrite Hk, Hs. reflexivity.
Qed.
End Lab1Kernel2Lemmas.

(** ** kernels/image_blur_unopt.c *)

Section ImageLemmas.
Import ImageBlurUnopt.

Lemma int_ok_in_range z : INT_MIN <= z <= INT_MAX -> int_ok z = Some z.
Proof.
  intros Hz. unfold int_ok.
  destruct (Z.leb_spec INT_MIN z); destruct (Z.leb_spec z INT_MAX);
    try lia; reflexivity.
Qed.

Lemma to_uchar_rem z : 0 <= z -> to_uchar (Z.rem z 256) = z mod 256.
Proof.
  intros Hz. unfold to_uchar. rewrite Z.rem_mod_nonneg by lia.
  apply Z.mod_mod. lia.
Qed.

Lemma initialize_image_spec (image : matrix Z) width height :
  is_matrix height width image ->
  width + height <= INT_MAX + 2 ->
  exists image',
    initialize_image image width height = Some image' /\
    cells_are height width image' (fun y x => (x + y) mod 256).
Proof.
  intros Him Hsum.
  assert (Hh : 0 <= height) by (destruct Him as [Hn _]; lia).
  set (v := fun y x : Z => (x + y) mod 256).
  set (f := cell 0 image).
  destruct (Z.le_gt_cases 0 width) as [Hw|Hw]; cycle 1.
  { exists image. split; [apply for_loop_empty; lia|].
    split; [exact Him|]. intros; lia. }
  destruct (for_loop_inv
    (fun x im => cells_are height width im (sel (cols_done x 0) v f))
    0 width
    (fun x image => for_loop 0 height (fun y image =>
       s ← int_ok (x + y);
       mset image y x (to_uchar (Z.rem s 256))) image) image Hw)
    as (im' & Hloop & Him').
  - eapply cells_are_ext; [|apply (cells_are_cell 0); exact Him].
    intros; done_cases.
  - intros x im1 Hx Him1.
    destruct (for_loop_inv
      (fun y im => cells_are height width im (sel (cols_done x y) v f))
      0 height
      (fun y image =>
         s ← int_ok (x + y);
         mset image y x (to_uchar (Z.rem s 256))) im1 Hh Him1)
      as (im2 & Hloop2 & Him2).
    + intros y im2 Hy Him2.
      destruct (cells_are_fill height width im2 _ (cols_done x (y + 1))
                  v f y x Him2) as (im3 & Hset & Him3); try lia.
      { intros; done_cases. }
      exists im3. split; [|exact Him3].
      rewrite int_ok_in_range by (unfold INT_MIN, INT_MAX in *; lia).
      cbn [mbind option_bind]. rewrite to_uchar_rem by lia. exact Hset.
    + exists im2. split; [exact Hloop2|].
      revert Him2. apply cells_are_ext. intros; done_cases.
  - exists im'. split; [exact Hloop|].
    revert Him'. apply cells_are_ext. intros; done_cases.
Qed.

Lemma kernel_is_matrix : is_matrix 5 5 kernel.
Proof. split; [reflexivity | repeat constructor]. Qed.

(** Around an interior pixel every read of the two inner loops is inside
    the image and inside the kernel table. *)
Lemma convolve_interior input width height x y :
  is_matrix height width input ->
  2 <= x < width - 2 -> 2 <= y < height - 2 ->
  exists sum, convolve input x y = Some sum.
Proof.
  intros Hin Hx Hy. unfold convolve, weighted_sum. change offset with 2.
  destruct (for_loop_inv (fun _ (_ : Z) => True) (- (2)) (2 + 1)
    (fun kx sum => for_loop (- (2)) (2 + 1) (fun ky sum =>
       p ← mget input (y + ky) (x + kx);
       c ← mget kernel (ky + 2) (kx + 2);
       Some (sum + p * c)) sum) 0) as (sum & Hloop & _).
  - lia.
  - exact I.
  - intros kx s1 Hkx _.
    destruct (for_loop_inv (fun _ (_ : Z) => True) (- (2)) (2 + 1)
      (fun ky sum =>
         p ← mget input (y + ky) (x + kx);
         c ← mget kernel (ky + 2) (kx + 2);
         Some (sum + p * c)) s1) as (s2 & Hloop2 & _).
    + lia.
    + exact I.
    + intros ky s2 Hky _.
      destruct (mget_in_range height width input (y + ky) (x + kx) Hin)
        as (p & ->); try lia.
      destruct (mget_in_range 5 5 kernel (ky + 2) (kx + 2) kernel_is_matrix)
        as (c & ->); try lia.
      eexists. split; [reflexivity | exact I].
    + exists s2. split; [exact Hloop2 | exact I].
  - exists sum. exact Hloop.
Qed.

Ltac blur_cases :=
  unfold blur_done, interior, cols_done; change offset with 2;
  repeat match goal with
         | |- context [?x <? ?y] => destruct (Z.ltb_spec x y); simpl
         | |- context [?x <=? ?y] => destruct (Z.leb_spec x y); simpl
         | |- context [?x =? ?y] => destruct (Z.eqb_spec x y); simpl
         end;
  subst; try lia; try reflexivity.

Lemma image_blur_spec input output width height :
  is_matrix height width input -> is_matrix height width output ->
  0 <= width <= INT_MAX -> 0 <= height <= INT_MAX ->
  exists output',
    image_blur input output width height = Some output' /\
    cells_are height width output'
      (sel (fun y x => interior width height x y)
           (fun y x => blur_value input x y) (cell 0 output)).
Proof.
  intros Hin Hout Hw Hh.
  set (v := fun y x : Z => blur_value input x y).
  set (f := cell 0 output).
  unfold image_blur. change offset with 2.
  rewrite int_ok_in_range by (unfold INT_MIN, INT_MAX in *; lia).
  cbn [mbind option_bind].
  rewrite int_ok_in_range by (unfold INT_MIN, INT_MAX in *; lia).
  cbn [mbind option_bind].
  destruct (for_loop_inv_max
    (fun x out => cells_are height width out
                    (sel (blur_done width height x 2) v f))
    2 (width - 2)
    (fun x output => for_loop 2 (height - 2) (fun y output =>
       sum ← convolve input x y;
       mset output y x (to_uchar (Z.quot sum kernel_sum))) output) output)
    as (out' & Hloop & Hout').
  - eapply cells_are_ext; [|apply (cells_are_cell 0); exact Hout].
    intros y' x' Hy' Hx'. unfold sel. fold f.
    replace (blur_done width height 2 2 y' x') with false by blur_cases.
    reflexivity.
  - intros x out1 Hx Hout1.
    destruct (for_loop_inv_max
      (fun y out => cells_are height width out
                      (sel (blur_done width height x y) v f))
      2 (height - 2)
      (fun y output =>
         sum ← convolve input x y;
         mset output y x (to_uchar (Z.quot sum kernel_sum))) out1 Hout1)
      as (out2 & Hloop2 & Hout2).
    + intros y out2 Hy Hout2.
      destruct (convolve_interior input width height x y Hin Hx Hy)
        as (sum & Hsum).
      destruct (cells_are_fill height width out2 _
                  (blur_done width height x (y + 1)) v f y x Hout2)
        as (out3 & Hset & Hout3); try lia.
      { intros y' x' Hy' Hx'. blur_cases. }
      exists out3. split; [|exact Hout3].
      rewrite Hsum. cbn [mbind option_bind].
      unfold v, blur_value in Hset. rewrite Hsum in Hset. exact Hset.
    + exists out2. split; [exact Hloop2|].
      revert Hout2. apply cells_are_ext. intros y' x' Hy' Hx'.
      unfold sel.
      replace (blur_done width height (x + 1) 2 y' x')
        with (blur_done width height x (Z.max 2 (height - 2)) y' x')
        by (destruct (Z.max_spec 2 (height - 2)) as [[? ->]|[? ->]];
            blur_cases).
      reflexivity.
  - exists out'. split; [exact Hloop|].
    revert Hout'. apply cells_are_ext. intros y' x' Hy' Hx'.
    unfold sel.
    replace (blur_done width height (Z.max 2 (width - 2)) 2 y' x')
      with (interior width height x' y')
      by (destruct (Z.max_spec 2 (width - 2)) as [[? ->]|[? ->]];
          blur_cases).
    reflexivity.
Qed.
End ImageLemmas.

(** C10. After [initialize_image image width height] on an image of [height]
    rows of [width] pixels (with [width + height - 2], the largest [x + y],
    within [int]) every pixel [image[y][x]] holds [(x + y) mod 256]: the
    result is a function of the coordinates alone. *)
Theorem initialize_image_pattern (image : matrix Z) (width height : Z) :
  is_matrix height width image ->
  width + height <= INT_MAX + 2 ->
  exists image',
    ImageBlurUnopt.initialize_image image width height = Some image' /\
    is_matrix height width image' /\
    forall x y, 0 <= x < width -> 0 <= y < height ->
      mget image' y x = Some ((x + y) mod 256).
Proof.
  intros Him Hsum.
  destruct (initialize_image_spec image width height Him Hsum)
    as (image' & Hinit & Hcells).
  exists image'. split; [exact Hinit|]. split; [apply Hcells|].
  intros x y Hx Hy. now apply Hcells.
Qed.

Lemma initialize_image_pattern_witness :
  exists image',
    ImageBlurUnopt.initialize_image [[7; 7; 7]; [9; 9; 9]] 3 2 = Some image' /\
    is_matrix 2 3 image' /\
    forall x y, 0 <= x < 3 -> 0 <= y < 2 ->
      mget image' y x = Some ((x + y) mod 256).
Proof.
  apply (initialize_image_pattern [[7; 7; 7]; [9; 9; 9]] 3 2).
  - split; [reflexivity | repeat constructor].
  - vm_compute. discriminate.
Defined.

Example initialize_image_small :
  ImageBlurUnopt.initialize_image [[7; 7; 7]; [9; 9; 9]] 3 2
  = Some [[0; 1; 2]; [1; 2; 3]].
Proof. reflexivity. Qed.

(** C8. [image_blur] assigns interior pixels only.  On images of [height]
    rows of [width] pixels it succeeds, and afterwards every pixel
    [output[y][x]] with [x < 2], [x >= width - 2], [y < 2] or
    [y >= height - 2] (2 being [offset = KERNEL_SIZE / 2]) holds what it
    held before the call, while every pixel with both coordinates in
    [2, dim - 2) holds the weighted sum of its neighbourhood divided by
    [kernel_sum]. *)
Theorem image_blur_writes_interior_only (input output : matrix Z)
    (width height : Z) :
  is_matrix height width input -> is_matrix height width output ->
  0 <= width <= INT_MAX -> 0 <= height <= INT_MAX ->
  ImageBlurUnopt.offset = 2 /\
  exists output',
    ImageBlurUnopt.image_blur input output width height = Some output' /\
    is_matrix height width output' /\
    (forall x y, 0 <= x < width -> 0 <= y < height ->
       x < 2 \/ x >= width - 2 \/ y < 2 \/ y >= height - 2 ->
       mget output' y x = mget output y x) /\
    (forall x y, 2 <= x < width - 2 -> 2 <= y < height - 2 ->
       exists sum,
         ImageBlurUnopt.convolve input x y = Some sum /\
         mget output' y x
         = Some (to_uchar (Z.quot sum ImageBlurUnopt.kernel_sum))).
Proof.
  intros Hin Hout Hw Hh. split; [reflexivity|].
  destruct (image_blur_spec input output width height Hin Hout Hw Hh)
    as (output' & Hblur & Hcells).
  exists output'. split; [exact Hblur|]. split; [apply Hcells|]. split.
  - intros x y Hx Hy Hborder.
    rewrite (cells_are_mget _ _ _ _ _ _ Hcells Hy Hx).
    rewrite (cells_are_mget _ _ _ _ _ _ (cells_are_cell 0 _ _ _ Hout) Hy Hx).
    f_equal. unfold sel, ImageBlurUnopt.interior.
    change ImageBlurUnopt.offset with 2.
    destruct (Z.leb_spec 2 x); destruct (Z.ltb_spec x (width - 2));
      destruct (Z.leb_spec 2 y); destruct (Z.ltb_spec y (height - 2));
      simpl; try reflexivity; lia.
  - intros x y Hx Hy.
    destruct (convolve_interior input width height x y Hin Hx Hy)
      as (sum & Hsum).
    exists sum. split; [exact Hsum|].
    rewrite (cells_are_mget _ _ _ _ y x Hcells) by lia.
    f_equal. unfold sel, ImageBlurUnopt.interior, ImageBlurUnopt.blur_value.
    change ImageBlurUnopt.offset with 2. rewrite Hsum.
    destruct (Z.leb_spec 2 x); destruct (Z.ltb_spec x (width - 2));
      destruct (Z.leb_spec 2 y); destruct (Z.ltb_spec y (height - 2));
      simpl; try reflexivity; lia.
Qed.

Lemma image_blur_writes_interior_only_witness :
  ImageBlurUnopt.offset = 2 /\
  exists output',
    ImageBlurUnopt.image_blur
      (replicate 5 [10; 20; 30; 40; 50]) (replicate 5 (replicate 5 9)) 5 5
    = Some output' /\
    is_matrix 5 5 output' /\
    (forall x y, 0 <= x < 5 -> 0 <= y < 5 ->
       x < 2 \/ x >= 5 - 2 \/ y < 2 \/ y >= 5 - 2 ->
       mget output' y x = mget (replicate 5 (replicate 5 9)) y x) /\
    (forall x y, 2 <= x < 5 - 2 -> 2 <= y < 5 - 2 ->
       exists sum,
         ImageBlurUnopt.convolve (replicate 5 [10; 20; 30; 40; 50]) x y
         = Some sum /\
         mget output' y x
         = Some (to_uchar (Z.quot sum ImageBlurUnopt.kernel_sum))).
Proof.
  apply (image_blur_writes_interior_only
           (replicate 5 [10; 20; 30; 40; 50]) (replicate 5 (replicate 5 9)) 5 5).
  - split; [reflexivity | repeat constructor].
  - split; [reflexivity | repeat constructor].
  - vm_compute. split; discriminate.
  - vm_compute. split; discriminate.
Defined.

Example image_blur_small :
  ImageBlurUnopt.image_blur
    (replicate 5 [10; 20; 30; 40; 50]) (replicate 5 (replicate 5 9)) 5 5
  = Some [[9; 9; 9; 9; 9]; [9; 9; 9; 9; 9]; [9; 9; 30; 9; 9];
          [9; 9; 9; 9; 9]; [9; 9; 9; 9; 9]].
Proof. reflexivity. Qed.

(** ** Programs in the world monad *)

Section MonadLemmas.
Context {A B : Type}.

Lemma bindM_Some (c : M A) (k : A -> M B) w b w' :
  bind c k w = Some (b, w') <->
  exists a w1, c w = Some (a, w1) /\ k a w1 = Some (b, w').
Proof.
  unfold bind. split.
  - destruct (c w) as [[a w1]|]; [eauto | discriminate].
  - intros (a & w1 & -> & Hk). exact Hk.
Qed.

Lemma bindM_eq (c : M A) (k : A -> M B) w a w1 :
  c w = Some (a, w1) -> bind c k w = k a w1.
Proof. unfold bind. now intros ->. Qed.

Lemma bindM_None (c : M A) (k : A -> M B) w :
  c w = None -> bind c k w = None.
Proof. unfold bind. now intros ->. Qed.

Lemma liftM_eq (o : option A) (a : A) w : o = Some a -> lift o w = Some (a, w).
Proof. now intros ->. Qed.
End MonadLemmas.

Section LoopMLemmas.
Context {S : Type}.

Lemma for_loopM_inv (P : Z -> S -> world -> Prop) lo hi
    (body : Z -> S -> M S) s w :
  lo <= hi ->
  P lo s w ->
  (forall i t u, lo <= i < hi -> P i t u ->
     exists t' u', body i t u = Some (t', u') /\ P (i + 1) t' u') ->
  exists s' w', for_loopM lo hi body s w = Some (s', w') /\ P hi s' w'.
Proof.
  intros Hle H0 Hstep. unfold for_loopM.
  destruct (for_loop_inv (fun i sw => P i (fst sw) (snd sw)) lo hi
              (fun i sw => body i (fst sw) (snd sw)) (s, w) Hle H0)
    as ([s' w'] & Hloop & HP).
  - intros i [t u] Hi Ht.
    destruct (Hstep i t u Hi Ht) as (t' & u' & Hb & HP).
    exists (t', u'). auto.
  - exists s', w'. auto.
Qed.

(** A loop whose first iteration fails fails. *)
Lemma for_loop_first_fails lo hi (body : Z -> S -> option S) s :
  lo < hi -> body lo s = None -> for_loop lo hi body s = None.
Proof.
  intros Hlt Hb. unfold for_loop, for_step. rewrite trip_count_1.
  destruct (Z.to_nat (hi - lo)) as [|cnt] eqn:Hcnt; [lia|].
  simpl. now rewrite Hb.
Qed.

(** Whatever a loop returns satisfies what its iterations preserve. *)
Lemma for_iter_post (Q : S -> Prop) (body : Z -> S -> option S)
    step cnt i s s' :
  Q s ->
  (forall k t t', body k t = Some t' -> Q t -> Q t') ->
  for_iter body step cnt i s = Some s' -> Q s'.
Proof.
  revert i s. induction cnt as [|cnt IH]; intros i s Hs Hpres Hrun.
  - simpl in Hrun. now inversion Hrun; subst.
  - simpl in Hrun. destruct (body i s) as [t|] eqn:Hb; [|discriminate].
    simpl in Hrun. eapply IH; [|exact Hpres|exact Hrun]. eauto.
Qed.
End LoopMLemmas.

(** ** Allocation *)

Ltac world_eq :=
  unfold set_mallocs, set_clocks, set_rand, add_out;
  cbn [w_env w_mallocs w_clocks w_seed w_rands w_out];
  try reflexivity; f_equal; try lia.

Section Allocation.
Context {T : Type}.
Variable junk : env -> nat -> nat -> T.

Lemma malloc_ok n w :
  env_malloc (w_env w) (w_mallocs w) = true ->
  malloc junk n w
  = Some (Some (map (junk (w_env w) (w_mallocs w)) (seq 0 (Z.to_nat n))),
          set_mallocs (Datatypes.S (w_mallocs w)) w).
Proof. unfold malloc. now intros ->. Qed.

Lemma malloc_fails n w :
  env_malloc (w_env w) (w_mallocs w) = false ->
  malloc junk n w = Some (None, set_mallocs (Datatypes.S (w_mallocs w)) w).
Proof. unfold malloc. now intros ->. Qed.

(** The loop that fills the row table, when every [malloc] succeeds. *)
Lemma alloc_rows_ok rows cols (tbl : matrix T) w :
  0 <= cols -> Z.of_nat (length tbl) = rows ->
  mallocs_ok (w_env w) (w_mallocs w) (Z.to_nat rows) ->
  exists m,
    for_loopM 0 rows (fun i m =>
      let* row := malloc junk cols in
      lift (aset m i (cells row))) tbl w
    = Some (m, set_mallocs (w_mallocs w + Z.to_nat rows) w) /\
    is_matrix rows cols m.
Proof.
  intros Hcols Hlen Hok.
  destruct (for_loopM_inv
    (fun i m u =>
       u = set_mallocs (w_mallocs w + Z.to_nat i) w /\
       Z.of_nat (length m) = rows /\
       forall k row, (k < Z.to_nat i)%nat -> m !! k = Some row ->
                     Z.of_nat (length row) = cols)
    0 rows
    (fun i m => let* row := malloc junk cols in lift (aset m i (cells row)))
    tbl w) as (m & w' & Hloop & -> & Hm & Hrows).
  - lia.
  - split; [|split; [exact Hlen|]].
    + destruct w. world_eq.
    + intros k row Hk. simpl in Hk. lia.
  - intros i m u Hi (-> & Hm & Hrows).
    set (u := set_mallocs (w_mallocs w + Z.to_nat i) w).
    assert (Hu : env_malloc (w_env u) (w_mallocs u) = true)
      by (apply Hok; cbn [u w_mallocs set_mallocs]; lia).
    rewrite (bindM_eq _ _ _ _ _ (malloc_ok cols u Hu)).
    cbn [cells]. subst u. cbn [w_env w_mallocs set_mallocs].
    rewrite (liftM_eq _ _ _ (aset_in_range m i _ ltac:(lia))).
    do 2 eexists. split; [reflexivity|]. split; [world_eq|].
    split; [now rewrite length_insert|].
    intros k row Hk Hrow.
    destruct (Nat.eq_dec k (Z.to_nat i)) as [->|Hne].
    + rewrite list_lookup_insert_eq in Hrow by lia.
      inversion Hrow; subst. rewrite length_map, length_seq. lia.
    + rewrite list_lookup_insert_ne in Hrow by lia.
      apply (Hrows k row); [lia | exact Hrow].
  - exists m. split; [exact Hloop|]. split; [exact Hm|].
    apply Forall_lookup_2. intros k row Hrow.
    apply (Hrows k row); [|exact Hrow].
    apply lookup_lt_Some in Hrow. lia.
Qed.

(** With a NULL row table the first store of the loop is undefined. *)
Lemma alloc_rows_null rows cols w :
  0 < rows ->
  for_loopM 0 rows (fun i m =>
    let* row := malloc junk cols in
    lift (aset m i (cells row))) (@nil (list T)) w = None.
Proof.
  intros Hrows. unfold for_loopM. apply for_loop_first_fails; [exact Hrows|].
  cbn [fst snd]. unfold bind, malloc, lift.
  destruct (env_malloc (w_env w) (w_mallocs w)); reflexivity.
Qed.
End Allocation.

(** ** kernels/matrix_mult_unopt.c: the whole program *)

Section MatrixMain.
Import MatrixMultUnopt.

Lemma allocate_matrix_ok n w :
  0 <= n ->
  mallocs_ok (w_env w) (w_mallocs w) (Datatypes.S (Z.to_nat n)) ->
  exists m,
    allocate_matrix n w
    = Some (m, set_mallocs (w_mallocs w + Datatypes.S (Z.to_nat n)) w) /\
    is_matrix n n m.
Proof.
  intros Hn Hok. unfold allocate_matrix.
  assert (Hk : env_malloc (w_env w) (w_mallocs w) = true)
    by (apply Hok; lia).
  rewrite (bindM_eq _ _ _ _ _ (malloc_ok _ n w Hk)).
  cbn [cells].
  destruct (alloc_rows_ok env_junk64 n n
              (map (fun _ : nat => @nil float64) (seq 0 (Z.to_nat n)))
              (set_mallocs (Datatypes.S (w_mallocs w)) w) Hn)
    as (m & Hloop & Hm).
  - rewrite length_map, length_seq. lia.
  - intros j Hj. apply Hok. cbn [w_mallocs set_mallocs] in Hj. lia.
  - exists m. split; [|exact Hm].
    cbn [w_env set_mallocs] in Hloop. rewrite Hloop. f_equal. f_equal.
    world_eq.
Qed.

Lemma allocate_matrix_null n w :
  0 < n -> env_malloc (w_env w) (w_mallocs w) = false ->
  allocate_matrix n w = None.
Proof.
  intros Hn Hfail. unfold allocate_matrix.
  rewrite (bindM_eq _ _ _ _ _ (malloc_fails _ n w Hfail)).
  cbn [cells]. now apply alloc_rows_null.
Qed.

Lemma initialize_matrix_spec m n w :
  is_matrix n n m ->
  exists m',
    initialize_matrix m n w
    = Some (m', set_rand (w_seed w) (w_rands w + Z.to_nat (n * n)) w) /\
    cells_are n n m'
      (fun i j => rand_cell (w_env w) (w_seed w)
                    (w_rands w + Z.to_nat (i * n + j))).
Proof.
  intros Hm.
  assert (Hn : 0 <= n) by (destruct Hm as [Hn _]; lia).
  set (v := fun i j => rand_cell (w_env w) (w_seed w)
                         (w_rands w + Z.to_nat (i * n + j))).
  set (f := cell F64.pzero m).
  set (body := fun i j (m : matrix float64) =>
    let* r := rand in
    lift (mset m i j (F64.fdiv (F64.of_Z (Z.rem r 100))
                               (F64.of_dyadic 10 0)))).
  set (P := fun i j (m' : matrix float64) (u : world) =>
    u = set_rand (w_seed w) (w_rands w + Z.to_nat (i * n + j)) w /\
    cells_are n n m' (sel (rows_done i j) v f)).
  destruct (for_loopM_inv (fun i => P i 0) 0 n
              (fun i m => for_loopM 0 n (body i) m) m w Hn)
    as (m' & w' & Hloop & -> & Hm').
  - split.
    + destruct w. world_eq.
    + eapply cells_are_ext; [|apply (cells_are_cell F64.pzero); exact Hm].
      intros; done_cases.
  - intros i m1 u Hi HP.
    destruct (for_loopM_inv (fun j => P i j) 0 n (body i) m1 u Hn HP)
      as (m2 & u2 & Hloop2 & -> & Hm2).
    + intros j m2 u2 Hj (-> & Hm2).
      destruct (cells_are_fill n n m2 _ (rows_done i (j + 1)) v f i j Hm2)
        as (m3 & Hset & Hm3); try lia.
      { intros; done_cases. }
      exists m3. eexists. split.
      * unfold body, bind, rand.
        cbn [w_env w_seed w_rands set_rand].
        unfold v, rand_cell in Hset.
        rewrite (liftM_eq _ _ _ Hset). reflexivity.
      * split; [|exact Hm3]. world_eq; nia.
    + exists m2. eexists. split; [exact Hloop2|]. split.
      * world_eq; nia.
      * revert Hm2. apply cells_are_ext. intros; done_cases.
  - exists m'. split.
    + change (initialize_matrix m n w)
        with (for_loopM 0 n (fun i m => for_loopM 0 n (body i) m) m w).
      rewrite Hloop. do 2 f_equal. world_eq.
    + revert Hm'. apply cells_are_ext. intros; done_cases.
Qed.

Lemma zero_matrix_spec {T : Type} `{Arith T} (m : matrix T) n :
  is_matrix n n m ->
  exists m', zero_matrix m n = Some m' /\ cells_are n n m' (fun _ _ => zero).
Proof.
  intros Hm.
  assert (Hn : 0 <= n) by (destruct Hm as [Hn _]; lia).
  set (v := fun _ _ : Z => zero).
  set (f := cell zero m).
  destruct (for_loop_inv
    (fun i m' => cells_are n n m' (sel (rows_done i 0) v f)) 0 n
    (fun i m => for_loop 0 n (fun j m => mset m i j zero) m) m Hn)
    as (m' & Hloop & Hm').
  - eapply cells_are_ext; [|apply (cells_are_cell zero); exact Hm].
    intros; done_cases.
  - intros i m1 Hi Hm1.
    destruct (for_loop_inv
      (fun j m' => cells_are n n m' (sel (rows_done i j) v f)) 0 n
      (fun j m => mset m i j zero) m1 Hn Hm1) as (m2 & Hloop2 & Hm2).
    + intros j m2 Hj Hm2.
      destruct (cells_are_fill n n m2 _ (rows_done i (j + 1)) v f i j Hm2)
        as (m3 & Hset & Hm3); try lia.
      { intros; done_cases. }
      exists m3. split; [exact Hset | exact Hm3].
    + exists m2. split; [exact Hloop2|].
      revert Hm2. apply cells_are_ext. intros; done_cases.
  - exists m'. split; [exact Hloop|].
    revert Hm'. apply cells_are_ext. intros; done_cases.
Qed.
End MatrixMain.

Section MatrixProgram.
Import MatrixMultUnopt.

Lemma SIZE_pos : 0 <= SIZE.
Proof. discriminate. Qed.

(** [main] up to the second [clock()], when every allocation succeeds. *)
Lemma matrix_main_kernel_spec e :
  mallocs_ok e 0 malloc_calls ->
  exists A B C,
    main_kernel (init_world e)
    = Some ((A, B, C, env_clock e 0, env_clock e 1),
            set_clocks 2
              (set_rand 42 (Z.to_nat (SIZE * SIZE) + Z.to_nat (SIZE * SIZE))
                 (set_mallocs malloc_calls (init_world e)))) /\
    cells_are SIZE SIZE A (A_cell e) /\
    cells_are SIZE SIZE B (B_cell e) /\
    cells_are SIZE SIZE C (C_cell e).
Proof.
  intros Hok. pose proof SIZE_pos as Hn.
  unfold malloc_calls in *.
  set (w0 := set_rand 42 0 (init_world e)).
  destruct (allocate_matrix_ok SIZE w0 Hn) as (A0 & HA0 & HmA0).
  { intros j Hj. apply Hok. cbn [w0 w_mallocs set_rand init_world] in Hj. lia. }
  set (w1 := set_mallocs _ w0) in HA0.
  destruct (allocate_matrix_ok SIZE w1 Hn) as (B0 & HB0 & HmB0).
  { intros j Hj. apply Hok.
    cbn [w1 w0 w_mallocs set_mallocs set_rand init_world] in Hj. lia. }
  set (w2 := set_mallocs _ w1) in HB0.
  destruct (allocate_matrix_ok SIZE w2 Hn) as (C0 & HC0 & HmC0).
  { intros j Hj. apply Hok.
    cbn [w2 w1 w0 w_mallocs set_mallocs set_rand init_world] in Hj. lia. }
  set (w3 := set_mallocs _ w2) in HC0.
  destruct (initialize_matrix_spec A0 SIZE w3 HmA0) as (A & HA & HcA).
  set (w4 := set_rand _ _ w3) in HA.
  destruct (initialize_matrix_spec B0 SIZE w4 HmB0) as (B & HB & HcB).
  set (w5 := set_rand _ _ w4) in HB.
  destruct (zero_matrix_spec C0 SIZE HmC0) as (C1 & HC1 & HcC1).
  destruct (ikj_i_loop SIZE A B _ _ _ HcA HcB C1 HcC1) as (C & HC & HcC).
  exists A, B, C. split; [|split; [|split]].
  - unfold main_kernel.
    rewrite (bindM_eq (srand 42) _ (init_world e) tt w0 eq_refl).
    rewrite (bindM_eq _ _ _ _ _ HA0), (bindM_eq _ _ _ _ _ HB0),
      (bindM_eq _ _ _ _ _ HC0), (bindM_eq _ _ _ _ _ HA),
      (bindM_eq _ _ _ _ _ HB).
    rewrite (bindM_eq _ _ _ _ _ (liftM_eq _ _ w5 HC1)).
    rewrite (bindM_eq clock _ w5 _ _ eq_refl).
    rewrite (bindM_eq _ _ _ _ _ (liftM_eq _ _ _ HC)).
    rewrite (bindM_eq clock _ _ _ _ eq_refl).
    unfold ret. f_equal.
  - revert HcA. apply cells_are_ext. intros i j Hi Hj. reflexivity.
  - revert HcB. apply cells_are_ext. intros i j Hi Hj.
    unfold B_cell.
    cbn [w4 w3 w2 w1 w0 w_env w_seed w_rands set_rand set_mallocs init_world].
    reflexivity.
  - exact HcC.
Qed.

Lemma matrix_main_spec e :
  mallocs_ok e 0 malloc_calls ->
  exists w,
    main (init_world e) = Some (0, w) /\
    w_out w
    = [Printf ("Matrix multiplication completed in %f seconds" ++ nl)
         [Elapsed (seconds (env_clock e 0) (env_clock e 1)
                     (F64.of_Z (env_clocks_per_sec e)))];
       Printf ("Result checksum: C[0][0] = %f, C[100][100] = %f" ++ nl)
         [DataF (C_cell e 0 0); DataF (C_cell e 100 100)]] /\
    w_clocks w = 2%nat.
Proof.
  intros Hok.
  destruct (matrix_main_kernel_spec e Hok) as (A & B & C & Hk & _ & _ & HC).
  assert (H0 : mget C 0 0 = Some (C_cell e 0 0))
    by (apply HC; split; discriminate || reflexivity).
  assert (H100 : mget C 100 100 = Some (C_cell e 100 100))
    by (apply HC; split; discriminate || reflexivity).
  eexists. split; [|split].
  - unfold main. rewrite (bindM_eq _ _ _ _ _ Hk). cbv iota beta.
    rewrite (bindM_eq clocks_per_sec _ _ _ _ eq_refl).
    rewrite (bindM_eq (printf _ _) _ _ _ _ eq_refl).
    rewrite (bindM_eq _ _ _ _ _ (liftM_eq _ _ _ H0)).
    rewrite (bindM_eq _ _ _ _ _ (liftM_eq _ _ _ H100)).
    rewrite (bindM_eq (printf _ _) _ _ _ _ eq_refl).
    unfold free_matrix.
    rewrite !(bindM_eq (ret tt) _ _ _ _ eq_refl).
    unfold ret. reflexivity.
  - reflexivity.
  - reflexivity.
Qed.

(** When the first [malloc] returns NULL the row table is written through
    the NULL pointer: the run is undefined. *)
Lemma matrix_main_null e :
  env_malloc e 0 = false -> main (init_world e) = None.
Proof.
  intros Hfail. unfold main. apply (bindM_None main_kernel).
  unfold main_kernel.
  rewrite (bindM_eq (srand 42) _ (init_world e) tt _ eq_refl).
  apply (bindM_None (allocate_matrix SIZE)).
  apply allocate_matrix_null; [reflexivity | exact Hfail].
Qed.
End MatrixProgram.

(** ** kernels/image_blur_unopt.c: the whole program *)

Section ImageProgram.
Import ImageBlurUnopt.

Lemma allocate_image_ok width height w :
  0 <= width -> 0 <= height ->
  mallocs_ok (w_env w) (w_mallocs w) (Datatypes.S (Z.to_nat height)) ->
  exists m,
    allocate_image width height w
    = Some (m, set_mallocs (w_mallocs w + Datatypes.S (Z.to_nat height)) w) /\
    is_matrix height width m.
Proof.
  intros Hw Hh Hok. unfold allocate_image.
  assert (Hk : env_malloc (w_env w) (w_mallocs w) = true)
    by (apply Hok; lia).
  rewrite (bindM_eq _ _ _ _ _ (malloc_ok _ height w Hk)).
  cbn [cells].
  destruct (alloc_rows_ok junk_pixel height width
              (map (fun _ : nat => @nil Z) (seq 0 (Z.to_nat height)))
              (set_mallocs (Datatypes.S (w_mallocs w)) w) Hw)
    as (m & Hloop & Hm).
  - rewrite length_map, length_seq. lia.
  - intros j Hj. apply Hok. cbn [w_mallocs set_mallocs] in Hj. lia.
  - exists m. split; [|exact Hm].
    cbn [w_env set_mallocs] in Hloop. rewrite Hloop. f_equal. f_equal.
    world_eq.
Qed.

Lemma allocate_image_null width height w :
  0 < height -> env_malloc (w_env w) (w_mallocs w) = false ->
  allocate_image width height w = None.
Proof.
  intros Hh Hfail. unfold allocate_image.
  rewrite (bindM_eq _ _ _ _ _ (malloc_fails _ height w Hfail)).
  cbn [cells]. now apply alloc_rows_null.
Qed.

(** The weighted sum depends on the image only through the pixels read. *)
Lemma weighted_sum_ext rd rd' x y :
  (forall kx ky, -2 <= kx <= 2 -> -2 <= ky <= 2 ->
     rd (y + ky) (x + kx) = rd' (y + ky) (x + kx)) ->
  weighted_sum rd x y = weighted_sum rd' x y.
Proof.
  intros Hrd. unfold weighted_sum, for_loop, for_step. change offset with 2.
  apply for_iter_ext. intros k s Hk.
  apply for_iter_ext. intros k' s' Hk'.
  rewrite trip_count_1 in Hk, Hk'. rewrite Hrd by lia. reflexivity.
Qed.

Lemma checksum_100 : weighted_sum pattern 100 100 = Some (35 * 200).
Proof. reflexivity. Qed.

Lemma checksum_200 : weighted_sum pattern 200 200 = Some (35 * 144).
Proof. reflexivity. Qed.

Lemma image_main_spec e :
  mallocs_ok e 0 malloc_calls ->
  exists w,
    main (init_world e) = Some (0, w) /\
    w_out w
    = [Printf ("Image blur completed in %f seconds" ++ nl)
         [Elapsed (seconds (env_clock e 0) (env_clock e 1)
                     (F64.of_Z (env_clocks_per_sec e)))];
       Printf ("Result checksum: output[100][100] = %d, output[200][200] = %d"
               ++ nl)
         [DataI 200; DataI 144]] /\
    w_clocks w = 2%nat.
Proof.
  intros Hok. unfold malloc_calls in Hok.
  assert (Hw : 0 <= WIDTH) by discriminate.
  assert (Hh : 0 <= HEIGHT) by discriminate.
  set (w0 := init_world e).
  destruct (allocate_image_ok WIDTH HEIGHT w0 Hw Hh) as (in0 & Hin0 & Hmin0).
  { intros j Hj. apply Hok. cbn [w0 w_mallocs init_world] in Hj. lia. }
  set (w1 := set_mallocs _ w0) in Hin0.
  destruct (allocate_image_ok WIDTH HEIGHT w1 Hw Hh) as (out0 & Hout0 & Hmout0).
  { intros j Hj. apply Hok.
    cbn [w1 w0 w_mallocs set_mallocs init_world] in Hj. lia. }
  set (w2 := set_mallocs _ w1) in Hout0.
  destruct (initialize_image_spec in0 WIDTH HEIGHT Hmin0)
    as (input & Hinit & Hinput); [vm_compute; discriminate|].
  destruct (image_blur_spec input out0 WIDTH HEIGHT
              (cells_are_is_matrix _ _ _ _ Hinput) Hmout0)
    as (output & Hblur & Houtput);
    [split; discriminate | split; discriminate |].
  assert (Hrd : forall x y, 2 <= x < WIDTH - 2 -> 2 <= y < HEIGHT - 2 ->
            convolve input x y = weighted_sum pattern x y).
  { intros x y Hx Hy. apply weighted_sum_ext. intros kx ky Hkx Hky.
    unfold pattern. apply Hinput; lia. }
  assert (H100 : mget output 100 100 = Some 200).
  { rewrite (cells_are_mget _ _ _ _ 100 100 Houtput)
      by (split; discriminate || reflexivity).
    unfold sel, blur_value.
    rewrite Hrd by (split; discriminate || reflexivity).
    reflexivity. }
  assert (H200 : mget output 200 200 = Some 144).
  { rewrite (cells_are_mget _ _ _ _ 200 200 Houtput)
      by (split; discriminate || reflexivity).
    unfold sel, blur_value.
    rewrite Hrd by (split; discriminate || reflexivity).
    reflexivity. }
  eexists. split; [|split].
  - unfold main. fold w0.
    rewrite (bindM_eq _ _ _ _ _ Hin0), (bindM_eq _ _ _ _ _ Hout0).
    rewrite (bindM_eq _ _ _ _ _ (liftM_eq _ _ w2 Hinit)).
    rewrite (bindM_eq clock _ w2 _ _ eq_refl).
    rewrite (bindM_eq _ _ _ _ _ (liftM_eq _ _ _ Hblur)).
    rewrite (bindM_eq clock _ _ _ _ eq_refl).
    rewrite (bindM_eq clocks_per_sec _ _ _ _ eq_refl).
    rewrite (bindM_eq (printf _ _) _ _ _ _ eq_refl).
    rewrite (bindM_eq _ _ _ _ _ (liftM_eq _ _ _ H100)).
    rewrite (bindM_eq _ _ _ _ _ (liftM_eq _ _ _ H200)).
    rewrite (bindM_eq (printf _ _) _ _ _ _ eq_refl).
    unfold free_image.
    rewrite !(bindM_eq (ret tt) _ _ _ _ eq_refl).
    unfold ret. reflexivity.
  - reflexivity.
  - reflexivity.
Qed.

(** When the first [malloc] returns NULL the row table is written through
    the NULL pointer: the run is undefined. *)
Lemma image_main_null e :
  env_malloc e 0 = false -> main (init_world e) = None.
Proof.
  intros Hfail. unfold main.
  apply (bindM_None (allocate_image WIDTH HEIGHT)).
  apply allocate_image_null; [reflexivity | exact Hfail].
Qed.
End ImageProgram.

(** ** kernels/stream_bench.c: the whole program *)

Section StreamProgram.
Import StreamBench.

Lemma malloc_length {T : Type} (junk : env -> nat -> nat -> T) e k n :
  0 <= n ->
  Z.of_nat (length (map (junk e k) (seq 0 (Z.to_nat n)))) = n.
Proof. intros Hn. rewrite length_map, length_seq. lia. Qed.

(** The three calls of [malloc] at the start of [main]. *)
Lemma stream_mallocs (k : option (list float64) -> option (list float64) ->
                          option (list float64) -> M Z) e :
  (let* a := malloc env_junk64 ARRAY_SIZE in
   let* b := malloc env_junk64 ARRAY_SIZE in
   let* c := malloc env_junk64 ARRAY_SIZE in
   k a b c) (init_world e)
  = k (if env_malloc e 0
       then Some (map (env_junk64 e 0) (seq 0 (Z.to_nat ARRAY_SIZE)))
       else None)
      (if env_malloc e 1
       then Some (map (env_junk64 e 1) (seq 0 (Z.to_nat ARRAY_SIZE)))
       else None)
      (if env_malloc e 2
       then Some (map (env_junk64 e 2) (seq 0 (Z.to_nat ARRAY_SIZE)))
       else None)
      (set_mallocs 3 (init_world e)).
Proof. reflexivity. Qed.

(** An allocation failed: the message, and exit code 1. *)
Lemma stream_main_fails e :
  env_malloc e 0 && env_malloc e 1 && env_malloc e 2 = false ->
  exists w,
    main (init_world e) = Some (1, w) /\
    w_out w = [Printf ("Memory allocation failed" ++ nl) []] /\
    w_clocks w = 0%nat.
Proof.
  intros Hfail. unfold main. rewrite stream_mallocs.
  destruct (env_malloc e 0); destruct (env_malloc e 1);
    destruct (env_malloc e 2); try discriminate Hfail;
    (eexists; split; [reflexivity | split; reflexivity]).
Qed.

(** Every allocation succeeded: three lines, and exit code 0. *)
Lemma stream_main_ok e :
  env_malloc e 0 && env_malloc e 1 && env_malloc e 2 = true ->
  exists w,
    main (init_world e) = Some (0, w) /\
    w_out w
    = (let time_taken := seconds (env_clock e 0) (env_clock e 1)
                           (F64.of_Z (env_clocks_per_sec e)) in
       [Printf ("Stream benchmark completed in %f seconds" ++ nl)
          [Elapsed time_taken];
        Printf ("Final result checksum: a[100] = %f, b[100] = %f" ++ nl)
          [DataF (fst (fst (elem_after 10)));
           DataF (snd (fst (elem_after 10)))];
        Printf ("Approximate memory bandwidth: %.2f GB/s" ++ nl)
          [Rate (bandwidth_gb_s time_taken)]]) /\
    w_clocks w = 2%nat.
Proof.
  intros Hok. unfold main. rewrite stream_mallocs.
  apply andb_prop in Hok as [Hok ->]. apply andb_prop in Hok as [-> ->].
  assert (Hn : 0 <= ARRAY_SIZE) by (unfold ARRAY_SIZE; lia).
  assert (H100 : 0 <= 100 < ARRAY_SIZE) by (unfold ARRAY_SIZE; lia).
  destruct (stream_run_spec _ _ _ 10
              (malloc_length env_junk64 e 0 _ Hn)
              (malloc_length env_junk64 e 1 _ Hn)
              (malloc_length env_junk64 e 2 _ Hn))
    as (s0 & s & Hinit & Hrun & Ha & Hb & _).
  set (w3 := set_mallocs 3 (init_world e)).
  eexists. split; [|split].
  - rewrite (bindM_eq _ _ _ _ _ (liftM_eq _ _ w3 Hinit)).
    rewrite (bindM_eq clock _ w3 _ _ eq_refl).
    change (Z.of_nat 10) with REPEAT_COUNT in Hrun.
    rewrite (bindM_eq _ _ _ _ _ (liftM_eq _ _ _ Hrun)).
    rewrite (bindM_eq clock _ _ _ _ eq_refl).
    rewrite (bindM_eq clocks_per_sec _ _ _ _ eq_refl).
    cbv zeta.
    rewrite (bindM_eq (printf _ _) _ _ _ _ eq_refl).
    rewrite (bindM_eq _ _ _ _ _ (liftM_eq _ _ _ (proj2 Ha 100 H100))).
    rewrite (bindM_eq _ _ _ _ _ (liftM_eq _ _ _ (proj2 Hb 100 H100))).
    rewrite (bindM_eq (printf _ _) _ _ _ _ eq_refl).
    rewrite (bindM_eq (printf _ _) _ _ _ _ eq_refl).
    unfold ret. reflexivity.
  - reflexivity.
  - reflexivity.
Qed.
End StreamProgram.

(** ** kernels/kernel5.c *)

Ltac sel1_cases :=
  unfold sel1;
  repeat match goal with
         | |- context [?x <? ?y] => destruct (Z.ltb_spec x y)
         | |- context [?x =? ?y] => destruct (Z.eqb_spec x y)
         end;
  subst; try lia; try reflexivity.

Section Kernel5Program.

Lemma kernel5_fill_spec w :
  exists g,
    Kernel5.fill Kernel5.static_globals w
    = Some (g, set_rand (w_seed w) (w_rands w + Z.to_nat Kernel5.SIZE) w) /\
    elems_are Kernel5.SIZE (Kernel5.h g) (fun i => F32.of_Z i) /\
    elems_are Kernel5.SIZE (Kernel5.w g)
      (fun i => F32.of_Z (Kernel5.SIZE - i)) /\
    elems_are Kernel5.SIZE (Kernel5.idx g)
      (Kernel5.idx_cell (w_env w) (w_seed w) (w_rands w)).
Proof.
  assert (Hn : 0 <= Kernel5.SIZE) by (unfold Kernel5.SIZE; lia).
  set (vh := fun i : Z => F32.of_Z i).
  set (vw := fun i : Z => F32.of_Z (Kernel5.SIZE - i)).
  set (vi := Kernel5.idx_cell (w_env w) (w_seed w) (w_rands w)).
  destruct (for_loopM_inv
    (fun i g u =>
       u = set_rand (w_seed w) (w_rands w + Z.to_nat i) w /\
       elems_are Kernel5.SIZE (Kernel5.h g) (sel1 i vh (fun _ => F32.pzero)) /\
       elems_are Kernel5.SIZE (Kernel5.w g) (sel1 i vw (fun _ => F32.pzero)) /\
       elems_are Kernel5.SIZE (Kernel5.idx g) (sel1 i vi (fun _ => 0)))
    0 Kernel5.SIZE
    (fun i g =>
       let* h' := lift (aset (Kernel5.h g) i (F32.of_Z i)) in
       let* w' := lift (aset (Kernel5.w g) i (F32.of_Z (Kernel5.SIZE - i))) in
       let* r := rand in
       let* idx' := lift (aset (Kernel5.idx g) i (Z.rem r Kernel5.SIZE)) in
       ret (Kernel5.Globals h' w' idx'))
    Kernel5.static_globals w Hn) as (g & w' & Hloop & -> & Hh & Hw & Hi).
  - cbn [Kernel5.h Kernel5.w Kernel5.idx Kernel5.static_globals].
    split; [destruct w; world_eq|].
    split; [|split].
    + eapply elems_are_ext;
        [|apply (elems_are_replicate Kernel5.SIZE F32.pzero Hn)].
      intros; sel1_cases.
    + eapply elems_are_ext;
        [|apply (elems_are_replicate Kernel5.SIZE F32.pzero Hn)].
      intros; sel1_cases.
    + eapply elems_are_ext;
        [|apply (elems_are_replicate Kernel5.SIZE 0 Hn)].
      intros; sel1_cases.
  - intros i [h1 w1 i1] u Hi (-> & Hh1 & Hw1 & Hi1).
    cbn [Kernel5.h Kernel5.w Kernel5.idx] in *.
    destruct (elems_are_aset _ h1 _ i (vh i) Hh1 Hi) as (h2 & Hseth & Hh2).
    destruct (elems_are_aset _ w1 _ i (vw i) Hw1 Hi) as (w2 & Hsetw & Hw2).
    destruct (elems_are_aset _ i1 _ i (vi i) Hi1 Hi) as (i2 & Hseti & Hi2).
    exists (Kernel5.Globals h2 w2 i2). eexists. split.
    + rewrite (bindM_eq _ _ _ _ _ (liftM_eq _ _ _ Hseth)).
      rewrite (bindM_eq _ _ _ _ _ (liftM_eq _ _ _ Hsetw)).
      rewrite (bindM_eq rand _ _ _ _ eq_refl).
      cbn [w_env w_seed w_rands set_rand].
      unfold vi, Kernel5.idx_cell in Hseti.
      rewrite (bindM_eq _ _ _ _ _ (liftM_eq _ _ _ Hseti)).
      reflexivity.
    + cbn [Kernel5.h Kernel5.w Kernel5.idx].
      split; [world_eq|]. split; [|split].
      * revert Hh2. apply elems_are_ext. intros; sel1_cases.
      * revert Hw2. apply elems_are_ext. intros; sel1_cases.
      * revert Hi2. apply elems_are_ext. intros; sel1_cases.
  - exists g. split; [exact Hloop|]. split; [|split].
    + revert Hh. apply elems_are_ext. intros; sel1_cases.
    + revert Hw. apply elems_are_ext. intros; sel1_cases.
    + revert Hi. apply elems_are_ext. intros; sel1_cases.
Qed.

(** Every index in [idx] is inside [h], so the scattered additions are
    all defined. *)
Lemma kernel5_scatter_spec g e seed r0 :
  Z.of_nat (length (Kernel5.h g)) = Kernel5.SIZE ->
  Z.of_nat (length (Kernel5.w g)) = Kernel5.SIZE ->
  elems_are Kernel5.SIZE (Kernel5.idx g) (Kernel5.idx_cell e seed r0) ->
  exists g', Kernel5.scatter g = Some g' /\
             Kernel5.w g' = Kernel5.w g /\ Kernel5.idx g' = Kernel5.idx g /\
             Z.of_nat (length (Kernel5.h g')) = Kernel5.SIZE.
Proof.
  intros Hh Hw Hidx.
  destruct (for_loop_inv
    (fun _ g' => Kernel5.w g' = Kernel5.w g /\
                 Kernel5.idx g' = Kernel5.idx g /\
                 Z.of_nat (length (Kernel5.h g')) = Kernel5.SIZE)
    0 Kernel5.SIZE
    (fun i g =>
       t ← aget (Kernel5.idx g) i;
       x ← aget (Kernel5.h g) t;
       y ← aget (Kernel5.w g) i;
       h' ← aset (Kernel5.h g) t (F32.fadd x y);
       Some (Kernel5.Globals h' (Kernel5.w g) (Kernel5.idx g))) g)
    as (g' & Hloop & HP).
  - unfold Kernel5.SIZE. lia.
  - auto.
  - intros i [h1 w1 i1] Hi (Hw1 & Hi1 & Hh1).
    cbn [Kernel5.h Kernel5.w Kernel5.idx] in *. subst w1 i1.
    rewrite (proj2 Hidx i Hi). cbn [mbind option_bind].
    assert (Ht : 0 <= Kernel5.idx_cell e seed r0 i < Kernel5.SIZE).
    { unfold Kernel5.idx_cell. apply Z.rem_bound_pos; [lia|].
      unfold Kernel5.SIZE. lia. }
    destruct (aget_in_range h1 _ ltac:(rewrite Hh1; exact Ht)) as (x & ->).
    cbn [mbind option_bind].
    destruct (aget_in_range (Kernel5.w g) i ltac:(rewrite Hw; exact Hi))
      as (y & ->).
    cbn [mbind option_bind].
    rewrite aset_in_range by (rewrite Hh1; exact Ht).
    cbn [mbind option_bind].
    eexists. split; [reflexivity|].
    cbn [Kernel5.h Kernel5.w Kernel5.idx].
    rewrite length_insert. auto.
  - exists g'. auto.
Qed.

Lemma kernel5_main_kernel_spec w :
  exists g g',
    Kernel5.fill Kernel5.static_globals w
    = Some (g, set_rand (w_seed w) (w_rands w + Z.to_nat Kernel5.SIZE) w) /\
    Kernel5.scatter g = Some g' /\
    Kernel5.main_kernel w
    = Some (g', set_rand (w_seed w) (w_rands w + Z.to_nat Kernel5.SIZE) w) /\
    elems_are Kernel5.SIZE (Kernel5.h g) (fun i => F32.of_Z i) /\
    elems_are Kernel5.SIZE (Kernel5.w g)
      (fun i => F32.of_Z (Kernel5.SIZE - i)) /\
    elems_are Kernel5.SIZE (Kernel5.idx g)
      (Kernel5.idx_cell (w_env w) (w_seed w) (w_rands w)).
Proof.
  destruct (kernel5_fill_spec w) as (g & Hfill & Hh & Hw & Hi).
  destruct (kernel5_scatter_spec g _ _ _ (proj1 Hh) (proj1 Hw) Hi)
    as (g' & Hsc & _).
  exists g, g'. split; [exact Hfill|]. split; [exact Hsc|].
  split; [|auto].
  unfold Kernel5.main_kernel. rewrite (bindM_eq _ _ _ _ _ Hfill).
  now apply liftM_eq.
Qed.

Lemma kernel5_main_spec w :
  Kernel5.main w
  = Some (0, add_out [Printf ("Done." ++ nl) []]
               (set_rand (w_seed w) (w_rands w + Z.to_nat Kernel5.SIZE) w)).
Proof.
  destruct (kernel5_main_kernel_spec w) as (g & g' & _ & _ & Hk & _).
  unfold Kernel5.main. rewrite (bindM_eq _ _ _ _ _ Hk). reflexivity.
Qed.
End Kernel5Program.

(** ** Lab_2/kernels/kernel2.c *)

Section Lab2Kernel2Program.
Import Lab2Kernel2.

Lemma lab2_fill_spec w :
  exists A,
    fill static_A w
    = Some (A, set_rand (w_seed w) (w_rands w + Z.to_nat N) w) /\
    elems_are N A (A_cell (w_env w) (w_seed w) (w_rands w)).
Proof.
  assert (Hn : 0 <= N) by (unfold N; lia).
  set (v := A_cell (w_env w) (w_seed w) (w_rands w)).
  destruct (for_loopM_inv
    (fun i A u =>
       u = set_rand (w_seed w) (w_rands w + Z.to_nat i) w /\
       elems_are N A (sel1 i v (fun _ => 0)))
    0 N
    (fun i A => let* r := rand in lift (aset A i (Z.rem r 100)))
    static_A w Hn) as (A & w' & Hloop & -> & HA).
  - split; [destruct w; world_eq|].
    eapply elems_are_ext; [|apply (elems_are_replicate N 0 Hn)].
    intros; sel1_cases.
  - intros i A u Hi (-> & HA).
    destruct (elems_are_aset _ A _ i (v i) HA Hi) as (A' & Hset & HA').
    exists A'. eexists. split.
    + rewrite (bindM_eq rand _ _ _ _ eq_refl).
      cbn [w_env w_seed w_rands set_rand].
      unfold v, A_cell in Hset. rewrite (liftM_eq _ _ _ Hset). reflexivity.
    + split; [world_eq|].
      revert HA'. apply elems_are_ext. intros; sel1_cases.
  - exists A. split; [exact Hloop|].
    revert HA. apply elems_are_ext. intros; sel1_cases.
Qed.

(** The sum of the even elements is defined and stays within
    [0, 100 * N), far inside [int]. *)
Lemma lab2_sum_even_spec A e seed r0 :
  elems_are N A (A_cell e seed r0) ->
  exists sum, sum_even A = Some sum /\ 0 <= sum <= 99 * N.
Proof.
  intros HA.
  destruct (for_loop_inv (fun i sum => 0 <= sum <= 99 * i) 0 N
    (fun i sum =>
       x ← aget A i;
       Some (if Z.rem x 2 =? 0 then sum + x else sum)) 0)
    as (sum & Hloop & Hsum).
  - unfold N. lia.
  - lia.
  - intros i sum Hi Hsum. rewrite (proj2 HA i Hi). cbn [mbind option_bind].
    eexists. split; [reflexivity|].
    assert (Hx : 0 <= A_cell e seed r0 i < 100)
      by (unfold A_cell; apply Z.rem_bound_pos; lia).
    destruct (Z.rem (A_cell e seed r0 i) 2 =? 0); lia.
  - exists sum. auto.
Qed.

Lemma lab2_main_kernel_spec w :
  exists A sum,
    main_kernel w
    = Some ((A, sum), set_rand (w_seed w) (w_rands w + Z.to_nat N) w) /\
    elems_are N A (A_cell (w_env w) (w_seed w) (w_rands w)) /\
    sum_even A = Some sum /\ INT_MIN <= sum <= INT_MAX.
Proof.
  destruct (lab2_fill_spec w) as (A & Hfill & HA).
  destruct (lab2_sum_even_spec A _ _ _ HA) as (sum & Hsum & Hrange).
  exists A, sum. split; [|split; [exact HA | split; [exact Hsum|]]].
  - unfold main_kernel. rewrite (bindM_eq _ _ _ _ _ Hfill).
    rewrite (bindM_eq _ _ _ _ _ (liftM_eq _ _ _ Hsum)). reflexivity.
  - unfold N, INT_MIN, INT_MAX in *. lia.
Qed.

Lemma lab2_main_spec w :
  exists A sum,
    main_kernel w
    = Some ((A, sum), set_rand (w_seed w) (w_rands w + Z.to_nat N) w) /\
    main w
    = Some (0, add_out [Printf ("Sum = %d" ++ nl) [DataI sum]]
                 (set_rand (w_seed w) (w_rands w + Z.to_nat N) w)).
Proof.
  destruct (lab2_main_kernel_spec w) as (A & sum & Hk & _).
  exists A, sum. split; [exact Hk|].
  unfold main. rewrite (bindM_eq _ _ _ _ _ Hk). reflexivity.
Qed.
End Lab2Kernel2Program.

(** ** Lab_2/kernels/mmm.c: the whole program *)

Section MmmProgram.
Import Mmm.

Lemma mmm_C00_value :
  dot_acc (fun i j => F32.of_Z (i + j)) (fun i j => F32.of_Z (i - j)) 0 0
    (Z.to_nat N) F32.pzero = F32.of_Z 690880.
Proof. vm_compute. reflexivity. Qed.

Lemma mmm_C00_printed : F64.of_float (F32.of_Z 690880) = F64.of_Z 690880.
Proof. vm_compute. reflexivity. Qed.

Lemma mmm_main_spec w :
  main w
  = Some (0, add_out
               [Printf ("Done MMM Naive. C[0][0]=%f Time=%.2f ms" ++ nl)
                  [DataF (F64.of_Z 690880);
                   Elapsed (millis (env_clock (w_env w) (w_clocks w))
                              (env_clock (w_env w)
                                 (Datatypes.S (w_clocks w)))
                              (F64.of_Z (env_clocks_per_sec (w_env w))))]]
               (set_clocks (Datatypes.S (Datatypes.S (w_clocks w))) w)).
Proof.
  destruct mmm_kernel_spec as (g1 & C2 & Hinit & Hmul & _ & _ & _ & HC2).
  assert (H00 : mget C2 0 0 = Some (F32.of_Z 690880)).
  { rewrite (cells_are_mget _ _ _ _ 0 0 HC2) by (unfold N; lia).
    now rewrite mmm_C00_value. }
  unfold main, main_kernel.
  rewrite (bindM_eq (let* start := clock in _) _ w
             (Globals (gA g1) (gB g1) C2,
              env_clock (w_env w) (w_clocks w),
              env_clock (w_env w) (Datatypes.S (w_clocks w)))
             (set_clocks (Datatypes.S (Datatypes.S (w_clocks w))) w)).
  - cbv iota beta. cbn [gC].
    rewrite (bindM_eq _ _ _ _ _ (liftM_eq _ _ _ H00)).
    rewrite (bindM_eq clocks_per_sec _ _ _ _ eq_refl).
    rewrite mmm_C00_printed. reflexivity.
  - rewrite (bindM_eq clock _ w _ _ eq_refl).
    rewrite (bindM_eq _ _ _ _ _ (liftM_eq _ _ _ Hinit)).
    rewrite (bindM_eq _ _ _ _ _ (liftM_eq _ _ _ Hmul)).
    rewrite (bindM_eq clock _ _ _ _ eq_refl).
    unfold ret. destruct w. reflexivity.
Qed.
End MmmProgram.

(** ** Runs of the eight programs *)

Ltac invert_binds H :=
  repeat match type of H with
         | bind _ _ _ = Some _ =>
             let a := fresh "a" in
             let u := fresh "u" in
             let Hc := fresh "Hc" in
             apply bindM_Some in H as (a & u & Hc & H)
         | (let '(_, _) := ?r in _) _ = Some _ => destruct r
         end.

Section ExitCodes.

(** [main] of matrix_mult_unopt.c and of image_blur_unopt.c end in
    [return 0] with no other [return] before: whatever the allocations
    do, a run that returns returns 0. *)
Lemma matrix_main_code w code w' :
  MatrixMultUnopt.main w = Some (code, w') -> code = 0.
Proof.
  unfold MatrixMultUnopt.main. intros H. invert_binds H.
  unfold ret in H. now inversion H.
Qed.

Lemma image_main_code w code w' :
  ImageBlurUnopt.main w = Some (code, w') -> code = 0.
Proof.
  unfold ImageBlurUnopt.main. intros H. invert_binds H.
  unfold ret in H. now inversion H.
Qed.

Lemma run_Some p e code out :
  run p e = Some (code, out) <->
  exists w, main_of p (init_world e) = Some (code, w) /\ w_out w = out.
Proof.
  unfold run. destruct (main_of p (init_world e)) as [[c w]|]; split.
  - intros H. inversion H; subst. eauto.
  - intros (w0 & H & <-). now inversion H.
  - discriminate.
  - intros (w0 & H & _). discriminate.
Qed.

Lemma run_of_main p e code w :
  main_of p (init_world e) = Some (code, w) ->
  run p e = Some (code, w_out w).
Proof. unfold run. now intros ->. Qed.

Lemma clock_calls_of_main p e code w :
  main_of p (init_world e) = Some (code, w) ->
  clock_calls p e = Some (w_clocks w).
Proof. unfold clock_calls. now intros ->. Qed.

Lemma stream_run_fails e :
  env_malloc e 0 && env_malloc e 1 && env_malloc e 2 = false ->
  run stream_bench e
  = Some (1, [Printf ("Memory allocation failed" ++ nl) []]) /\
  clock_calls stream_bench e = Some 0%nat.
Proof.
  intros Hfail. destruct (stream_main_fails e Hfail) as (w & Hmain & Hout & Hc).
  rewrite (run_of_main stream_bench e 1 w Hmain), Hout.
  rewrite (clock_calls_of_main stream_bench e 1 w Hmain), Hc. auto.
Qed.

Lemma stream_run_ok e :
  env_malloc e 0 && env_malloc e 1 && env_malloc e 2 = true ->
  run stream_bench e
  = Some (0,
      let time_taken :=
        StreamBench.seconds (env_clock e 0) (env_clock e 1)
          (F64.of_Z (env_clocks_per_sec e)) in
      [Printf ("Stream benchmark completed in %f seconds" ++ nl)
         [Elapsed time_taken];
       Printf ("Final result checksum: a[100] = %f, b[100] = %f" ++ nl)
         [DataF (fst (fst (StreamBench.elem_after 10)));
          DataF (snd (fst (StreamBench.elem_after 10)))];
       Printf ("Approximate memory bandwidth: %.2f GB/s" ++ nl)
         [Rate (StreamBench.bandwidth_gb_s time_taken)]]) /\
  clock_calls stream_bench e = Some 2%nat.
Proof.
  intros Hok. destruct (stream_main_ok e Hok) as (w & Hmain & Hout & Hc).
  rewrite (run_of_main stream_bench e 0 w Hmain), Hout.
  rewrite (clock_calls_of_main stream_bench e 0 w Hmain), Hc. auto.
Qed.

Lemma matrix_run_ok e :
  mallocs_ok e 0 MatrixMultUnopt.malloc_calls ->
  run matrix_mult_unopt e
  = Some (0,
      [Printf ("Matrix multiplication completed in %f seconds" ++ nl)
         [Elapsed (MatrixMultUnopt.seconds (env_clock e 0) (env_clock e 1)
                     (F64.of_Z (env_clocks_per_sec e)))];
       Printf ("Result checksum: C[0][0] = %f, C[100][100] = %f" ++ nl)
         [DataF (MatrixMultUnopt.C_cell e 0 0);
          DataF (MatrixMultUnopt.C_cell e 100 100)]]) /\
  clock_calls matrix_mult_unopt e = Some 2%nat.
Proof.
  intros Hok. destruct (matrix_main_spec e Hok) as (w & Hmain & Hout & Hc).
  rewrite (run_of_main matrix_mult_unopt e 0 w Hmain), Hout.
  rewrite (clock_calls_of_main matrix_mult_unopt e 0 w Hmain), Hc. auto.
Qed.

Lemma image_run_ok e :
  mallocs_ok e 0 ImageBlurUnopt.malloc_calls ->
  run image_blur_unopt e
  = Some (0,
      [Printf ("Image blur completed in %f seconds" ++ nl)
         [Elapsed (ImageBlurUnopt.seconds (env_clock e 0) (env_clock e 1)
                     (F64.of_Z (env_clocks_per_sec e)))];
       Printf ("Result checksum: output[100][100] = %d, output[200][200] = %d"
               ++ nl)
         [DataI 200; DataI 144]]) /\
  clock_calls image_blur_unopt e = Some 2%nat.
Proof.
  intros Hok. destruct (image_main_spec e Hok) as (w & Hmain & Hout & Hc).
  rewrite (run_of_main image_blur_unopt e 0 w Hmain), Hout.
  rewrite (clock_calls_of_main image_blur_unopt e 0 w Hmain), Hc. auto.
Qed.

Lemma mmm_run e :
  run mmm e
  = Some (0,
      [Printf ("Done MMM Naive. C[0][0]=%f Time=%.2f ms" ++ nl)
         [DataF (F64.of_Z 690880);
          Elapsed (Mmm.millis (env_clock e 0) (env_clock e 1)
                     (F64.of_Z (env_clocks_per_sec e)))]]) /\
  clock_calls mmm e = Some 2%nat.
Proof.
  pose proof (mmm_main_spec (init_world e)) as Hmain.
  rewrite (run_of_main mmm e _ _ Hmain).
  rewrite (clock_calls_of_main mmm e _ _ Hmain). auto.
Qed.

Lemma lab1_kernel2_run e :
  run lab1_kernel2 e
  = Some (0, [Printf ("Result: %f" ++ nl) [DataF (F64.of_Z 0)]]) /\
  clock_calls lab1_kernel2 e = Some 0%nat.
Proof.
  pose proof (lab1_main_spec (init_world e)) as Hmain.
  rewrite (run_of_main lab1_kernel2 e _ _ Hmain).
  rewrite (clock_calls_of_main lab1_kernel2 e _ _ Hmain). auto.
Qed.

Lemma lab2_kernel2_run e :
  exists A sum,
    Lab2Kernel2.main_kernel (init_world e)
    = Some ((A, sum),
            set_rand 1 (Z.to_nat Lab2Kernel2.N) (init_world e)) /\
    run lab2_kernel2 e = Some (0, [Printf ("Sum = %d" ++ nl) [DataI sum]]) /\
    clock_calls lab2_kernel2 e = Some 0%nat.
Proof.
  destruct (lab2_main_spec (init_world e)) as (A & sum & Hk & Hmain).
  exists A, sum. split; [exact Hk|].
  rewrite (run_of_main lab2_kernel2 e _ _ Hmain).
  rewrite (clock_calls_of_main lab2_kernel2 e _ _ Hmain). auto.
Qed.

Lemma kernel5_run e :
  run kernel5 e = Some (0, [Printf ("Done." ++ nl) []]) /\
  clock_calls kernel5 e = Some 0%nat.
Proof.
  pose proof (kernel5_main_spec (init_world e)) as Hmain.
  rewrite (run_of_main kernel5 e _ _ Hmain).
  rewrite (clock_calls_of_main kernel5 e _ _ Hmain). auto.
Qed.

Lemma lab2_kernel4_run e :
  run lab2_kernel4 e = None /\ clock_calls lab2_kernel4 e = None.
Proof.
  unfold run, clock_calls. cbn [main_of]. now rewrite main_undefined.
Qed.
End ExitCodes.

(** C9. In Lab_1/kernels/kernel2.c, for every [i] in [0, SIZE) the
    difference A[i] - B[i] computed in binary32 equals [i - SIZE] and is
    below zero, so the test [diff > 0] fails; the second loop leaves the
    globals as the first one set them, [sum] is still 0 at the end, and every
    run prints the text "Result: 0.000000" and returns 0. *)
Theorem lab1_kernel2_sum_is_zero :
  (forall i, 0 <= i < Lab1Kernel2.SIZE ->
     F32.eqb (F32.fsub (Lab1Kernel2.A_val i) (Lab1Kernel2.B_val i))
             (F32.of_Z (i - Lab1Kernel2.SIZE)) = true /\
     F32.ltb (F32.fsub (Lab1Kernel2.A_val i) (Lab1Kernel2.B_val i))
             (F32.of_Z 0) = true /\
     F32.ltb (F32.of_Z 0)
             (F32.fsub (Lab1Kernel2.A_val i) (Lab1Kernel2.B_val i)) = false) /\
  (exists g,
     Lab1Kernel2.fill Lab1Kernel2.static_globals = Some g /\
     (forall i, 0 <= i < Lab1Kernel2.SIZE ->
        aget (Lab1Kernel2.A g) i = Some (Lab1Kernel2.A_val i) /\
        aget (Lab1Kernel2.B g) i = Some (Lab1Kernel2.B_val i)) /\
     Lab1Kernel2.accumulate g = Some g /\
     Lab1Kernel2.sum g = F32.pzero) /\
  (forall e,
     run lab1_kernel2 e
     = Some (0, [Printf ("Result: %f" ++ nl) [DataF F64.pzero]]) /\
     stdout_text [Printf ("Result: %f" ++ nl) [DataF F64.pzero]]
     = Some ("Result: 0.000000" ++ nl)%string).
Proof.
  split; [|split].
  - intros i Hi. destruct (diff_not_positive i Hi) as (H1 & H2 & H3). auto.
  - destruct fill_globals_spec as (g & Hfill & Ha & Hb & Hs).
    exists g. split; [exact Hfill|]. split; [|split].
    + intros i Hi. split; [apply Ha | apply Hb]; exact Hi.
    + now apply accumulate_spec.
    + exact Hs.
  - intros e. split; [apply lab1_kernel2_run | reflexivity].
Qed.

(** C4. Exit codes.  A run that returns returns 0, except that stream_bench.c
    returns 1; it does so exactly when one of its three calls of [malloc]
    returns NULL, printing "Memory allocation failed", and returns 0
    otherwise.  The other programs return 0 whenever they run to the end
    (kernel5.c, Lab_2's kernel2.c, mmm.c and Lab_1's kernel2.c always;
    matrix_mult_unopt.c and image_blur_unopt.c when their allocations
    succeed), and none of them tests the result of [malloc]: with the first
    allocation failing, matrix_mult_unopt.c and image_blur_unopt.c store
    through the NULL pointer (an undefined run) instead of returning an
    error code. *)
Theorem exit_codes (e : env) :
  (forall p code out,
     run p e = Some (code, out) -> code = 0 \/ (p = stream_bench /\ code = 1)) /\
  (env_malloc e 0 && env_malloc e 1 && env_malloc e 2 = false <->
   exists out, run stream_bench e = Some (1, out)) /\
  (env_malloc e 0 && env_malloc e 1 && env_malloc e 2 = false ->
   run stream_bench e
   = Some (1, [Printf ("Memory allocation failed" ++ nl) []])) /\
  (env_malloc e 0 && env_malloc e 1 && env_malloc e 2 = true ->
   exists out, run stream_bench e = Some (0, out)) /\
  (exists out, run kernel5 e = Some (0, out)) /\
  (exists out, run lab2_kernel2 e = Some (0, out)) /\
  (exists out, run mmm e = Some (0, out)) /\
  (exists out, run lab1_kernel2 e = Some (0, out)) /\
  (mallocs_ok e 0 MatrixMultUnopt.malloc_calls ->
   exists out, run matrix_mult_unopt e = Some (0, out)) /\
  (mallocs_ok e 0 ImageBlurUnopt.malloc_calls ->
   exists out, run image_blur_unopt e = Some (0, out)) /\
  (env_malloc e 0 = false ->
   run matrix_mult_unopt e = None /\ run image_blur_unopt e = None).
Proof.
  assert (Hstream : forall code out,
            run stream_bench e = Some (code, out) ->
            (code = 1 /\ env_malloc e 0 && env_malloc e 1 && env_malloc e 2
                         = false) \/
            (code = 0 /\ env_malloc e 0 && env_malloc e 1 && env_malloc e 2
                         = true)).
  { intros code out Hrun.
    destruct (env_malloc e 0 && env_malloc e 1 && env_malloc e 2) eqn:Hm.
    - destruct (stream_run_ok e Hm) as [Hok _]. rewrite Hok in Hrun.
      inversion Hrun. auto.
    - destruct (stream_run_fails e Hm) as [Hf _]. rewrite Hf in Hrun.
      inversion Hrun. auto. }
  repeat split.
  - intros p code out Hrun. destruct p.
    + destruct (Hstream code out Hrun) as [[-> _]|[-> _]]; auto.
    + rewrite (proj1 (kernel5_run e)) in Hrun. inversion Hrun. auto.
    + apply run_Some in Hrun as (w & Hmain & _). left.
      exact (matrix_main_code _ _ _ Hmain).
    + apply run_Some in Hrun as (w & Hmain & _). left.
      exact (image_main_code _ _ _ Hmain).
    + destruct (lab2_kernel2_run e) as (A & sum & _ & Hr & _).
      rewrite Hr in Hrun. inversion Hrun. auto.
    + rewrite (proj1 (lab2_kernel4_run e)) in Hrun. discriminate.
    + rewrite (proj1 (mmm_run e)) in Hrun. inversion Hrun. auto.
    + rewrite (proj1 (lab1_kernel2_run e)) in Hrun. inversion Hrun. auto.
  - intros Hm. eexists. apply (stream_run_fails e Hm).
  - intros (out & Hrun).
    destruct (Hstream 1 out Hrun) as [[_ Hm]|[Hc _]]; [exact Hm | discriminate].
  - intros Hm. apply (stream_run_fails e Hm).
  - intros Hm. eexists. apply (stream_run_ok e Hm).
  - eexists. apply kernel5_run.
  - destruct (lab2_kernel2_run e) as (A & sum & _ & Hr & _). eauto.
  - eexists. apply mmm_run.
  - eexists. apply lab1_kernel2_run.
  - intros Hok. eexists. apply (matrix_run_ok e Hok).
  - intros Hok. eexists. apply (image_run_ok e Hok).
  - unfold run. cbn [main_of]. now rewrite matrix_main_null.
  - unfold run. cbn [main_of]. now rewrite image_main_null.
Qed.

Lemma exit_codes_witness :
  (exists out, run matrix_mult_unopt env_a = Some (0, out)) /\
  run stream_bench env_oom
  = Some (1, [Printf ("Memory allocation failed" ++ nl) []]).
Proof.
  split.
  - destruct (exit_codes env_a) as (_ & _ & _ & _ & _ & _ & _ & _ & Hok & _).
    apply Hok. intros j Hj. reflexivity.
  - destruct (exit_codes env_oom) as (_ & _ & Hfail & _).
    apply Hfail. reflexivity.
Defined.

(** ** Runs under two environments with the same generator *)

Section SameGenerator.
Variables e1 e2 : env.
Hypothesis Hrand : forall seed k, env_rand e1 seed k = env_rand e2 seed k.

Lemma rand_cell_same seed k :
  MatrixMultUnopt.rand_cell e1 seed k = MatrixMultUnopt.rand_cell e2 seed k.
Proof. unfold MatrixMultUnopt.rand_cell. now rewrite Hrand. Qed.

Lemma C_cell_same i j :
  MatrixMultUnopt.C_cell e1 i j = MatrixMultUnopt.C_cell e2 i j.
Proof.
  unfold MatrixMultUnopt.C_cell. apply dot_acc_ext. intros k Hk.
  unfold MatrixMultUnopt.A_cell, MatrixMultUnopt.B_cell.
  now rewrite !rand_cell_same.
Qed.

Lemma matrix_kernels_same :
  mallocs_ok e1 0 MatrixMultUnopt.malloc_calls ->
  mallocs_ok e2 0 MatrixMultUnopt.malloc_calls ->
  exists A B C w1 w2,
    MatrixMultUnopt.main_kernel (init_world e1)
    = Some ((A, B, C, env_clock e1 0, env_clock e1 1), w1) /\
    MatrixMultUnopt.main_kernel (init_world e2)
    = Some ((A, B, C, env_clock e2 0, env_clock e2 1), w2) /\
    cells_are MatrixMultUnopt.SIZE MatrixMultUnopt.SIZE C
      (MatrixMultUnopt.C_cell e1).
Proof.
  intros Hok1 Hok2.
  destruct (matrix_main_kernel_spec e1 Hok1)
    as (A1 & B1 & C1 & Hk1 & HA1 & HB1 & HC1).
  destruct (matrix_main_kernel_spec e2 Hok2)
    as (A2 & B2 & C2 & Hk2 & HA2 & HB2 & HC2).
  assert (A2 = A1) as ->.
  { eapply cells_are_inj; [|exact HA1]. revert HA2. apply cells_are_ext.
    intros i j _ _. unfold MatrixMultUnopt.A_cell.
    now rewrite rand_cell_same. }
  assert (B2 = B1) as ->.
  { eapply cells_are_inj; [|exact HB1]. revert HB2. apply cells_are_ext.
    intros i j _ _. unfold MatrixMultUnopt.B_cell.
    now rewrite rand_cell_same. }
  assert (C2 = C1) as ->.
  { eapply cells_are_inj; [|exact HC1]. revert HC2. apply cells_are_ext.
    intros i j _ _. now rewrite C_cell_same. }
  exists A1, B1, C1. do 2 eexists.
  split; [exact Hk1|]. split; [exact Hk2 | exact HC1].
Qed.

Lemma kernel5_kernels_same :
  exists g w1 w2,
    Kernel5.main_kernel (init_world e1) = Some (g, w1) /\
    Kernel5.main_kernel (init_world e2) = Some (g, w2).
Proof.
  destruct (kernel5_main_kernel_spec (init_world e1))
    as (g1 & g1' & _ & Hs1 & Hk1 & Hh1 & Hw1 & Hi1).
  destruct (kernel5_main_kernel_spec (init_world e2))
    as (g2 & g2' & _ & Hs2 & Hk2 & Hh2 & Hw2 & Hi2).
  assert (g2 = g1) as ->.
  { destruct g1 as [h1 w1 i1], g2 as [h2 w2 i2].
    cbn [Kernel5.h Kernel5.w Kernel5.idx] in *.
    f_equal.
    - exact (elems_are_inj _ _ _ _ Hh2 Hh1).
    - exact (elems_are_inj _ _ _ _ Hw2 Hw1).
    - eapply elems_are_inj; [|exact Hi1]. revert Hi2.
      apply elems_are_ext. intros i _.
      cbn [w_env w_seed w_rands init_world]. unfold Kernel5.idx_cell.
      now rewrite Hrand. }
  assert (g2' = g1') as -> by congruence.
  exists g1'. do 2 eexists. split; [exact Hk1 | exact Hk2].
Qed.

Lemma lab2_kernels_same :
  exists A sum w1 w2,
    Lab2Kernel2.main_kernel (init_world e1) = Some ((A, sum), w1) /\
    Lab2Kernel2.main_kernel (init_world e2) = Some ((A, sum), w2) /\
    run lab2_kernel2 e1 = Some (0, [Printf ("Sum = %d" ++ nl) [DataI sum]]) /\
    run lab2_kernel2 e2 = Some (0, [Printf ("Sum = %d" ++ nl) [DataI sum]]).
Proof.
  destruct (lab2_main_kernel_spec (init_world e1))
    as (A1 & s1 & Hk1 & HA1 & Hs1 & _).
  destruct (lab2_main_kernel_spec (init_world e2))
    as (A2 & s2 & Hk2 & HA2 & Hs2 & _).
  assert (A2 = A1) as ->.
  { eapply elems_are_inj; [|exact HA1]. revert HA2.
    apply elems_are_ext. intros i _.
    cbn [w_env w_seed w_rands init_world]. unfold Lab2Kernel2.A_cell.
    now rewrite Hrand. }
  assert (s2 = s1) as -> by congruence.
  destruct (lab2_kernel2_run e1) as (A1' & s1' & Hk1' & Hr1 & _).
  destruct (lab2_kernel2_run e2) as (A2' & s2' & Hk2' & Hr2 & _).
  assert (s1' = s1) as -> by congruence.
  assert (s2' = s1) as -> by congruence.
  exists A1, s1. do 2 eexists.
  split; [exact Hk1|]. split; [exact Hk2|]. split; [exact Hr1 | exact Hr2].
Qed.
End SameGenerator.

(** C5. The kernels that draw their data from [rand()] are deterministic:
    matrix_mult_unopt.c seeds the generator with [srand(42)], kernel5.c and
    Lab_2's kernel2.c use it unseeded (seed 1).  Two runs with the same
    generator, whatever the clock readings, [CLOCKS_PER_SEC] and the
    contents of fresh heap memory, end with the same arrays and print the
    same checksum values: for matrix_mult_unopt.c the same [A], [B], [C]
    and the same line with C[0][0] and C[100][100]. *)
Theorem fixed_seed_runs_agree (e1 e2 : env) :
  (forall seed k, env_rand e1 seed k = env_rand e2 seed k) ->
  mallocs_ok e1 0 MatrixMultUnopt.malloc_calls ->
  mallocs_ok e2 0 MatrixMultUnopt.malloc_calls ->
  (exists A B C w1 w2 t1 t2 c0 c100,
     MatrixMultUnopt.main_kernel (init_world e1)
     = Some ((A, B, C, env_clock e1 0, env_clock e1 1), w1) /\
     MatrixMultUnopt.main_kernel (init_world e2)
     = Some ((A, B, C, env_clock e2 0, env_clock e2 1), w2) /\
     mget C 0 0 = Some c0 /\ mget C 100 100 = Some c100 /\
     run matrix_mult_unopt e1
     = Some (0, [t1; Printf ("Result checksum: C[0][0] = %f, C[100][100] = %f"
                             ++ nl) [DataF c0; DataF c100]]) /\
     run matrix_mult_unopt e2
     = Some (0, [t2; Printf ("Result checksum: C[0][0] = %f, C[100][100] = %f"
                             ++ nl) [DataF c0; DataF c100]])) /\
  (exists g w1 w2,
     Kernel5.main_kernel (init_world e1) = Some (g, w1) /\
     Kernel5.main_kernel (init_world e2) = Some (g, w2) /\
     run kernel5 e1 = run kernel5 e2) /\
  (exists A sum w1 w2,
     Lab2Kernel2.main_kernel (init_world e1) = Some ((A, sum), w1) /\
     Lab2Kernel2.main_kernel (init_world e2) = Some ((A, sum), w2) /\
     run lab2_kernel2 e1 = Some (0, [Printf ("Sum = %d" ++ nl) [DataI sum]]) /\
     run lab2_kernel2 e2 = Some (0, [Printf ("Sum = %d" ++ nl) [DataI sum]])).
Proof.
  intros Hrand Hok1 Hok2. split; [|split].
  - destruct (matrix_kernels_same e1 e2 Hrand Hok1 Hok2)
      as (A & B & C & w1 & w2 & Hk1 & Hk2 & HC).
    exists A, B, C, w1, w2. do 2 eexists.
    exists (MatrixMultUnopt.C_cell e1 0 0), (MatrixMultUnopt.C_cell e1 100 100).
    split; [exact Hk1|]. split; [exact Hk2|].
    split; [apply HC; unfold MatrixMultUnopt.SIZE; lia|].
    split; [apply HC; unfold MatrixMultUnopt.SIZE; lia|].
    split.
    + apply (matrix_run_ok e1 Hok1).
    + rewrite !(C_cell_same e1 e2 Hrand). apply (matrix_run_ok e2 Hok2).
  - destruct (kernel5_kernels_same e1 e2 Hrand) as (g & w1 & w2 & Hk1 & Hk2).
    exists g, w1, w2. split; [exact Hk1|]. split; [exact Hk2|].
    now rewrite (proj1 (kernel5_run e1)), (proj1 (kernel5_run e2)).
  - apply (lab2_kernels_same e1 e2 Hrand).
Qed.

Lemma fixed_seed_runs_agree_witness :
  (exists A B C w1 w2 t1 t2 c0 c100,
     MatrixMultUnopt.main_kernel (init_world env_a)
     = Some ((A, B, C, env_clock env_a 0, env_clock env_a 1), w1) /\
     MatrixMultUnopt.main_kernel (init_world env_b)
     = Some ((A, B, C, env_clock env_b 0, env_clock env_b 1), w2) /\
     mget C 0 0 = Some c0 /\ mget C 100 100 = Some c100 /\
     run matrix_mult_unopt env_a
     = Some (0, [t1; Printf ("Result checksum: C[0][0] = %f, C[100][100] = %f"
                             ++ nl) [DataF c0; DataF c100]]) /\
     run matrix_mult_unopt env_b
     = Some (0, [t2; Printf ("Result checksum: C[0][0] = %f, C[100][100] = %f"
                             ++ nl) [DataF c0; DataF c100]])) /\
  (exists g w1 w2,
     Kernel5.main_kernel (init_world env_a) = Some (g, w1) /\
     Kernel5.main_kernel (init_world env_b) = Some (g, w2) /\
     run kernel5 env_a = run kernel5 env_b) /\
  (exists A sum w1 w2,
     Lab2Kernel2.main_kernel (init_world env_a) = Some ((A, sum), w1) /\
     Lab2Kernel2.main_kernel (init_world env_b) = Some ((A, sum), w2) /\
     run lab2_kernel2 env_a
     = Some (0, [Printf ("Sum = %d" ++ nl) [DataI sum]]) /\
     run lab2_kernel2 env_b
     = Some (0, [Printf ("Sum = %d" ++ nl) [DataI sum]])).
Proof.
  apply (fixed_seed_runs_agree env_a env_b).
  - reflexivity.
  - intros j Hj. reflexivity.
  - intros j Hj. reflexivity.
Defined.

(** C7 (amended). What the programs print.  matrix_mult_unopt.c and
    image_blur_unopt.c, when their allocations succeed, and stream_bench.c,
    when its three allocations succeed, print a timing line (the time
    between two readings of [clock()]) and then a checksum line, to which
    stream_bench.c adds a bandwidth line; mmm.c prints one line that carries
    both the checksum C[0][0] and the elapsed time.  Lab_1's kernel2.c and
    Lab_2's kernel2.c print one line with their result and never call
    [clock()]; kernel5.c prints only "Done."; stream_bench.c prints only
    "Memory allocation failed" when an allocation fails. *)
Theorem printed_lines (e : env) :
  (mallocs_ok e 0 MatrixMultUnopt.malloc_calls ->
   exists t c,
     run matrix_mult_unopt e = Some (0, [t; c]) /\
     timing_line t = true /\ checksum_line c = true /\
     clock_calls matrix_mult_unopt e = Some 2%nat) /\
  (mallocs_ok e 0 ImageBlurUnopt.malloc_calls ->
   exists t c,
     run image_blur_unopt e = Some (0, [t; c]) /\
     timing_line t = true /\ checksum_line c = true /\
     clock_calls image_blur_unopt e = Some 2%nat) /\
  (env_malloc e 0 && env_malloc e 1 && env_malloc e 2 = true ->
   exists t c r,
     run stream_bench e = Some (0, [t; c; r]) /\
     timing_line t = true /\ checksum_line c = true /\
     timing_line r = false /\ checksum_line r = false /\
     clock_calls stream_bench e = Some 2%nat) /\
  (env_malloc e 0 && env_malloc e 1 && env_malloc e 2 = false ->
   run stream_bench e
   = Some (1, [Printf ("Memory allocation failed" ++ nl) []]) /\
   clock_calls stream_bench e = Some 0%nat) /\
  (exists l,
     run mmm e = Some (0, [l]) /\
     timing_line l = true /\ checksum_line l = true /\
     clock_calls mmm e = Some 2%nat) /\
  (exists l,
     run lab1_kernel2 e = Some (0, [l]) /\
     timing_line l = false /\ checksum_line l = true /\
     clock_calls lab1_kernel2 e = Some 0%nat) /\
  (exists l,
     run lab2_kernel2 e = Some (0, [l]) /\
     timing_line l = false /\ checksum_line l = true /\
     clock_calls lab2_kernel2 e = Some 0%nat) /\
  (run kernel5 e = Some (0, [Printf ("Done." ++ nl) []]) /\
   clock_calls kernel5 e = Some 0%nat).
Proof.
  split; [|split; [|split; [|split; [|split; [|split; [|split]]]]]].
  - intros Hok. destruct (matrix_run_ok e Hok) as [Hrun Hclk].
    do 2 eexists. split; [exact Hrun|]. auto.
  - intros Hok. destruct (image_run_ok e Hok) as [Hrun Hclk].
    do 2 eexists. split; [exact Hrun|]. auto.
  - intros Hok. destruct (stream_run_ok e Hok) as [Hrun Hclk].
    do 3 eexists. split; [exact Hrun|]. repeat split; (reflexivity || exact Hclk).
  - intros Hfail. exact (stream_run_fails e Hfail).
  - destruct (mmm_run e) as [Hrun Hclk].
    eexists. split; [exact Hrun|]. auto.
  - destruct (lab1_kernel2_run e) as [Hrun Hclk].
    eexists. split; [exact Hrun|]. auto.
  - destruct (lab2_kernel2_run e) as (A & sum & _ & Hrun & Hclk).
    eexists. split; [exact Hrun|]. auto.
  - exact (kernel5_run e).
Qed.

Lemma printed_lines_witness :
  (exists t c,
     run matrix_mult_unopt env_a = Some (0, [t; c]) /\
     timing_line t = true /\ checksum_line c = true /\
     clock_calls matrix_mult_unopt env_a = Some 2%nat) /\
  (run stream_bench env_oom
   = Some (1, [Printf ("Memory allocation failed" ++ nl) []]) /\
   clock_calls stream_bench env_oom = Some 0%nat).
Proof.
  split.
  - destruct (printed_lines env_a) as (Hmatrix & _).
    apply Hmatrix. intros j Hj. reflexivity.
  - destruct (printed_lines env_oom) as (_ & _ & _ & Hfail & _).
    apply Hfail. reflexivity.
Defined.

(** C7 as stated fails: kernel5.c prints the single line "Done.", which
    carries no value at all, and never calls [clock()]; so not every program
    prints a timing line and a checksum line. *)
Lemma kernel5_prints_neither_line :
  run kernel5 env_a = Some (0, [Printf ("Done." ++ nl) []]) /\
  stdout_text [Printf ("Done." ++ nl) []] = Some ("Done." ++ nl)%string /\
  clock_calls kernel5 env_a = Some 0%nat /\
  ~ (forall p e code out,
       run p e = Some (code, out) ->
       existsb timing_line out = true /\ existsb checksum_line out = true).
Proof.
  destruct (kernel5_run env_a) as [Hrun Hclk].
  split; [exact Hrun|]. split; [reflexivity|]. split; [exact Hclk|].
  intros Hall. destruct (Hall kernel5 env_a _ _ Hrun) as [Ht _].
  discriminate Ht.
Qed.

(** * Further properties of the kernels *)

(** ** kernels/matrix_mult_unopt.c and Lab_2/kernels/mmm.c *)

(** X1. [matrix_multiply] adds to [C], it does not overwrite it: on [n] x [n]
    matrices it succeeds and cell [(i, j)] of the result is the old
    [C[i][j]] to which the products A[i][k] * B[k][j] have been added in
    increasing order of [k].  The caller has to zero [C] first. *)
Theorem matrix_multiply_accumulates {T : Type} `{Arith T} (n : Z)
    (A B C : matrix T) :
  is_matrix n n A -> is_matrix n n B -> is_matrix n n C ->
  exists C',
    MatrixMultUnopt.matrix_multiply A B C n = Some C' /\
    is_matrix n n C' /\
    forall i j, 0 <= i < n -> 0 <= j < n ->
      mget C' i j
      = Some (dot_acc (cell zero A) (cell zero B) i j (Z.to_nat n)
                      (cell zero C i j)).
Proof.
  intros HA HB HC.
  destruct (ikj_i_loop n A B _ _ _ (cells_are_cell zero n n A HA)
              (cells_are_cell zero n n B HB) C (cells_are_cell zero n n C HC))
    as (C' & Hmul & HC').
  exists C'. split; [exact Hmul|]. split; [apply HC'|].
  intros i j Hi Hj. now apply HC'.
Qed.

Lemma matrix_multiply_accumulates_witness :
  exists C',
    MatrixMultUnopt.matrix_multiply (T:=Z) [[1; 2]; [3; 4]] [[5; 6]; [7; 8]]
      [[100; 200]; [300; 400]] 2 = Some C' /\
    is_matrix 2 2 C' /\
    forall i j, 0 <= i < 2 -> 0 <= j < 2 ->
      mget C' i j
      = Some (dot_acc (cell zero [[1; 2]; [3; 4]]) (cell zero [[5; 6]; [7; 8]])
                      i j (Z.to_nat 2) (cell zero [[100; 200]; [300; 400]] i j)).
Proof.
  apply (matrix_multiply_accumulates (T:=Z) 2).
  - split; [reflexivity | repeat constructor].
  - split; [reflexivity | repeat constructor].
  - split; [reflexivity | repeat constructor].
Defined.

Example matrix_multiply_accumulates_value :
  MatrixMultUnopt.matrix_multiply (T:=Z) [[1; 2]; [3; 4]] [[5; 6]; [7; 8]]
    [[100; 200]; [300; 400]] 2 = Some [[119; 222]; [343; 450]].
Proof. reflexivity. Qed.

(** X2. [matrix_multiply_naive], at any size, leaves the globals [A] and [B]
    as they are and adds to [C] exactly what [matrix_multiply] adds: the two
    loop orders agree whatever [C] holds at the start. *)
Theorem matrix_multiply_naive_accumulates {T : Type} `{Arith T} (n : Z)
    (A B C : matrix T) :
  is_matrix n n A -> is_matrix n n B -> is_matrix n n C ->
  exists C',
    Mmm.matrix_multiply_naive_n n (Mmm.Globals A B C)
    = Some (Mmm.Globals A B C') /\
    MatrixMultUnopt.matrix_multiply A B C n = Some C' /\
    forall i j, 0 <= i < n -> 0 <= j < n ->
      mget C' i j
      = Some (dot_acc (cell zero A) (cell zero B) i j (Z.to_nat n)
                      (cell zero C i j)).
Proof.
  intros HA HB HC.
  pose proof (cells_are_cell zero n n A HA) as HA'.
  pose proof (cells_are_cell zero n n B HB) as HB'.
  pose proof (cells_are_cell zero n n C HC) as HC'.
  destruct (ikj_i_loop n A B _ _ _ HA' HB' C HC') as (C1 & H1 & HC1).
  destruct (naive_i_loop n A B _ _ _ HA' HB' C HC') as (C2 & H2 & HC2).
  assert (C2 = C1) as -> by (eapply cells_are_inj; eassumption).
  exists C1. split; [exact H2|]. split; [exact H1|].
  intros i j Hi Hj. now apply HC1.
Qed.

Lemma matrix_multiply_naive_accumulates_witness :
  exists C',
    Mmm.matrix_multiply_naive_n 2
      (Mmm.Globals [[1; 2]; [3; 4]] [[5; 6]; [7; 8]] [[100; 200]; [300; 400]])
    = Some (Mmm.Globals [[1; 2]; [3; 4]] [[5; 6]; [7; 8]] C') /\
    MatrixMultUnopt.matrix_multiply (T:=Z) [[1; 2]; [3; 4]] [[5; 6]; [7; 8]]
      [[100; 200]; [300; 400]] 2 = Some C' /\
    forall i j, 0 <= i < 2 -> 0 <= j < 2 ->
      mget C' i j
      = Some (dot_acc (cell zero [[1; 2]; [3; 4]]) (cell zero [[5; 6]; [7; 8]])
                      i j (Z.to_nat 2) (cell zero [[100; 200]; [300; 400]] i j)).
Proof.
  apply (matrix_multiply_naive_accumulates (T:=Z) 2).
  - split; [reflexivity | repeat constructor].
  - split; [reflexivity | repeat constructor].
  - split; [reflexivity | repeat constructor].
Defined.

(** X3. Edge behaviour of [matrix_multiply]: with [n <= 0] no cell is read
    or written and [C] comes back as it was; with [n > 0] and a matrix that
    has no cell [(0, 0)] (a NULL or empty table or row) the very first
    iteration is an access outside an array, so the call is undefined. *)
Theorem matrix_multiply_edge {T : Type} `{Arith T} (A B C : matrix T) (n : Z) :
  (n <= 0 -> MatrixMultUnopt.matrix_multiply A B C n = Some C) /\
  (0 < n -> mget C 0 0 = None \/ mget A 0 0 = None \/ mget B 0 0 = None ->
   MatrixMultUnopt.matrix_multiply A B C n = None).
Proof.
  split.
  - intros Hn. unfold MatrixMultUnopt.matrix_multiply.
    apply for_loop_empty. exact Hn.
  - intros Hn Hnone. unfold MatrixMultUnopt.matrix_multiply.
    apply for_loop_first_fails; [exact Hn|].
    apply for_loop_first_fails; [exact Hn|].
    apply for_loop_first_fails; [exact Hn|].
    destruct (mget C 0 0) as [c|]; [|reflexivity]. cbn [mbind option_bind].
    destruct (mget A 0 0) as [a|]; [|reflexivity]. cbn [mbind option_bind].
    destruct (mget B 0 0) as [b|]; [|reflexivity].
    destruct Hnone as [Hc|[Ha|Hb]]; discriminate.
Qed.

Lemma matrix_multiply_edge_witness :
  MatrixMultUnopt.matrix_multiply (T:=Z) [[1]] [[2]] [[3]] 0 = Some [[3]] /\
  MatrixMultUnopt.matrix_multiply (T:=Z) [[1]] [[2]] [] 1 = None.
Proof.
  split.
  - apply (matrix_multiply_edge (T:=Z) [[1]] [[2]] [[3]] 0). lia.
  - apply (matrix_multiply_edge (T:=Z) [[1]] [[2]] [] 1); [lia|].
    left. reflexivity.
Defined.

(** X4. [zero_matrix] stores zero in every cell of an [n] x [n] matrix,
    whatever it held, and keeps its shape. *)
Theorem zero_matrix_zeroes {T : Type} `{Arith T} (m : matrix T) (n : Z) :
  is_matrix n n m ->
  exists m',
    MatrixMultUnopt.zero_matrix m n = Some m' /\
    is_matrix n n m' /\
    forall i j, 0 <= i < n -> 0 <= j < n -> mget m' i j = Some zero.
Proof.
  intros Hm. destruct (zero_matrix_spec m n Hm) as (m' & Hz & Hm').
  exists m'. split; [exact Hz|]. split; [apply Hm'|].
  intros i j Hi Hj. now apply Hm'.
Qed.

Lemma zero_matrix_zeroes_witness :
  exists m',
    MatrixMultUnopt.zero_matrix (T:=Z) [[1; 2]; [3; 4]] 2 = Some m' /\
    is_matrix 2 2 m' /\
    forall i j, 0 <= i < 2 -> 0 <= j < 2 -> mget m' i j = Some zero.
Proof.
  apply (zero_matrix_zeroes (T:=Z) [[1; 2]; [3; 4]] 2).
  split; [reflexivity | repeat constructor].
Defined.

Lemma tenths_in_range :
  all_from (fun r => let v := F64.fdiv (F64.of_Z r) (F64.of_dyadic 10 0) in
              F64.leb F64.pzero v && F64.ltb v (F64.of_dyadic 10 0))
           100 0 = true.
Proof. vm_compute. reflexivity. Qed.

(** X5. [initialize_matrix] draws exactly [n * n] numbers from [rand()], in
    row-major order, and stores in cell [(i, j)] the value
    [(rand() % 100) / 10.0] of the draw number [i * n + j]; every cell ends
    up in the range from 0.0 included to 10.0 excluded, whatever the
    generator and whatever the matrix held. *)
Theorem initialize_matrix_fills (m : matrix float64) (n : Z) (w : world) :
  is_matrix n n m ->
  exists m',
    MatrixMultUnopt.initialize_matrix m n w
    = Some (m', set_rand (w_seed w) (w_rands w + Z.to_nat (n * n)) w) /\
    is_matrix n n m' /\
    forall i j, 0 <= i < n -> 0 <= j < n ->
      exists r,
        r = Z.rem (Z.of_N (env_rand (w_env w) (w_seed w)
                             (w_rands w + Z.to_nat (i * n + j)))) 100 /\
        0 <= r <= 99 /\
        mget m' i j = Some (F64.fdiv (F64.of_Z r) (F64.of_dyadic 10 0)) /\
        F64.leb F64.pzero (F64.fdiv (F64.of_Z r) (F64.of_dyadic 10 0)) = true /\
        F64.ltb (F64.fdiv (F64.of_Z r) (F64.of_dyadic 10 0))
                (F64.of_dyadic 10 0) = true.
Proof.
  intros Hm. destruct (initialize_matrix_spec m n w Hm) as (m' & Hinit & Hm').
  exists m'. split; [exact Hinit|]. split; [apply Hm'|].
  intros i j Hi Hj. eexists. split; [reflexivity|].
  set (r := Z.rem _ 100).
  assert (Hr : 0 <= r < 100) by (apply Z.rem_bound_pos; lia).
  split; [lia|]. split; [exact (proj2 Hm' i j Hi Hj)|].
  pose proof (all_from_spec _ _ _ tenths_in_range r ltac:(lia)) as Hall.
  cbv zeta in Hall. apply andb_prop in Hall. exact Hall.
Qed.

Lemma initialize_matrix_fills_witness :
  exists m',
    MatrixMultUnopt.initialize_matrix
      [[F64.pzero; F64.pzero]; [F64.pzero; F64.pzero]] 2 (init_world env_a)
    = Some (m', set_rand (w_seed (init_world env_a))
                  (w_rands (init_world env_a) + Z.to_nat (2 * 2))
                  (init_world env_a)) /\
    is_matrix 2 2 m' /\
    forall i j, 0 <= i < 2 -> 0 <= j < 2 ->
      exists r,
        r = Z.rem (Z.of_N (env_rand (w_env (init_world env_a))
                             (w_seed (init_world env_a))
                             (w_rands (init_world env_a)
                              + Z.to_nat (i * 2 + j)))) 100 /\
        0 <= r <= 99 /\
        mget m' i j = Some (F64.fdiv (F64.of_Z r) (F64.of_dyadic 10 0)) /\
        F64.leb F64.pzero (F64.fdiv (F64.of_Z r) (F64.of_dyadic 10 0)) = true /\
        F64.ltb (F64.fdiv (F64.of_Z r) (F64.of_dyadic 10 0))
                (F64.of_dyadic 10 0) = true.
Proof.
  apply (initialize_matrix_fills
           [[F64.pzero; F64.pzero]; [F64.pzero; F64.pzero]] 2
           (init_world env_a)).
  split; [reflexivity | repeat constructor].
Defined.

(** ** Allocation failures *)

Section RowFailures.
Context {T : Type}.
Implicit Type m : list (list T).

(** A store in a matrix cannot create or repair an empty row. *)
Lemma mset_keeps_empty_row m i j v m' (i0 : nat) :
  mset m i j v = Some m' -> m !! i0 = Some [] -> m' !! i0 = Some [].
Proof.
  unfold mset. intros Hset Hrow.
  destruct (aget m i) as [row|] eqn:Hget; [simpl in Hset | discriminate].
  destruct (aset row j v) as [row'|] eqn:Hrow'; [simpl in Hset | discriminate].
  apply aset_Some in Hrow' as [Hj ->].
  apply aset_Some in Hset as [Hi ->].
  apply aget_Some in Hget as [_ Hget].
  destruct (Nat.eq_dec (Z.to_nat i) i0) as [Heq|Hne].
  - subst i0. rewrite Hrow in Hget. inversion Hget; subst.
    simpl in Hj. lia.
  - now rewrite list_lookup_insert_ne.
Qed.

Lemma mset_empty_row m (i0 : nat) j v :
  m !! i0 = Some [] -> mset m (Z.of_nat i0) j v = None.
Proof.
  intros Hrow. unfold mset. rewrite aget_of_nat, Hrow. simpl.
  unfold aset. simpl.
  destruct (Z.leb_spec 0 j); destruct (Z.ltb_spec j (Z.of_nat 0));
    simpl; try reflexivity; lia.
Qed.

Lemma mget_empty_row m (i0 : nat) j :
  m !! i0 = Some [] -> mget m (Z.of_nat i0) j = None.
Proof.
  intros Hrow. unfold mget. rewrite aget_of_nat, Hrow. simpl.
  unfold aget. destruct (0 <=? j); [apply lookup_nil | reflexivity].
Qed.
End RowFailures.

Section FailingLoops.
Context {S : Type}.

(** A loop fails as soon as one of its iterations fails in every state
    that the earlier iterations can leave. *)
Lemma for_iter_fails (Q : S -> Prop) (body : Z -> S -> option S)
    step cnt i s (k0 : nat) :
  (k0 < cnt)%nat -> Q s ->
  (forall k t t', body k t = Some t' -> Q t -> Q t') ->
  (forall t, Q t -> body (i + step * Z.of_nat k0) t = None) ->
  for_iter body step cnt i s = None.
Proof.
  revert i s k0. induction cnt as [|cnt IH]; intros i s k0 Hk Hs Hpres Hfail;
    [lia|].
  simpl. destruct k0 as [|k0].
  - assert (E : i + step * Z.of_nat 0 = i) by lia.
    rewrite E in Hfail. now rewrite (Hfail s Hs).
  - destruct (body i s) as [t|] eqn:Hb; [simpl | reflexivity].
    apply (IH (i + step) t k0); [lia | eauto | exact Hpres |].
    intros u Hu.
    assert (E : i + step + step * Z.of_nat k0
                = i + step * Z.of_nat (Datatypes.S k0)) by lia.
    rewrite E. now apply Hfail.
Qed.

Lemma for_loop_fails (Q : S -> Prop) (body : Z -> S -> option S)
    lo hi s i0 :
  lo <= i0 < hi -> Q s ->
  (forall k t t', body k t = Some t' -> Q t -> Q t') ->
  (forall t, Q t -> body i0 t = None) ->
  for_loop lo hi body s = None.
Proof.
  intros Hi Hs Hpres Hfail. unfold for_loop, for_step.
  rewrite trip_count_1.
  apply (for_iter_fails Q body 1 _ lo s (Z.to_nat (i0 - lo)));
    [lia | exact Hs | exact Hpres |].
  intros t Ht.
  assert (E : lo + 1 * Z.of_nat (Z.to_nat (i0 - lo)) = i0) by lia.
  rewrite E. now apply Hfail.
Qed.

Lemma for_loop_post (Q : S -> Prop) (body : Z -> S -> option S)
    lo hi s s' :
  Q s ->
  (forall k t t', body k t = Some t' -> Q t -> Q t') ->
  for_loop lo hi body s = Some s' -> Q s'.
Proof. intros Hs Hpres. unfold for_loop, for_step. now apply for_iter_post. Qed.
End FailingLoops.

Lemma all_or_one_fails (f : nat -> bool) (n : nat) :
  (forall k, (k < n)%nat -> f k = true) \/
  (exists k, (k < n)%nat /\ f k = false).
Proof.
  induction n as [|n [IH|(k & Hk & Hf)]].
  - left. intros k Hk. lia.
  - destruct (f n) eqn:Hn.
    + left. intros k Hk. destruct (Nat.eq_dec k n) as [->|]; [exact Hn|].
      apply IH. lia.
    + right. exists n. split; [lia | exact Hn].
  - right. exists k. split; [lia | exact Hf].
Qed.

Section AllocationAny.
Context {T : Type}.
Variable junk : env -> nat -> nat -> T.

(** The loop that fills the row table, whatever [malloc] returns: the row
    of a failed allocation is a NULL pointer, with no cell behind it, and
    nothing is reported. *)
Lemma alloc_rows_any rows cols (tbl : list (list T)) w :
  0 <= cols -> Z.of_nat (length tbl) = rows ->
  exists m,
    for_loopM 0 rows (fun i m =>
      let* row := malloc junk cols in
      lift (aset m i (cells row))) tbl w
    = Some (m, set_mallocs (w_mallocs w + Z.to_nat rows) w) /\
    Z.of_nat (length m) = rows /\
    forall k row, m !! k = Some row ->
      Z.of_nat (length row)
      = if env_malloc (w_env w) (w_mallocs w + k) then cols else 0.
Proof.
  intros Hcols Hlen.
  destruct (for_loopM_inv
    (fun i m u =>
       u = set_mallocs (w_mallocs w + Z.to_nat i) w /\
       Z.of_nat (length m) = rows /\
       forall k row, (k < Z.to_nat i)%nat -> m !! k = Some row ->
         Z.of_nat (length row)
         = if env_malloc (w_env w) (w_mallocs w + k) then cols else 0)
    0 rows
    (fun i m => let* row := malloc junk cols in lift (aset m i (cells row)))
    tbl w) as (m & w' & Hloop & -> & Hm & Hrows).
  - lia.
  - split; [|split; [exact Hlen|]].
    + destruct w. world_eq.
    + intros k row Hk. simpl in Hk. lia.
  - intros i m u Hi (-> & Hm & Hrows).
    unfold bind, malloc. cbn [w_env w_mallocs set_mallocs].
    rewrite (liftM_eq _ _ _ (aset_in_range m i _ ltac:(lia))).
    do 2 eexists. split; [reflexivity|]. split; [world_eq|].
    split; [now rewrite length_insert|].
    intros k row Hk Hrow.
    destruct (Nat.eq_dec k (Z.to_nat i)) as [->|Hne].
    + rewrite list_lookup_insert_eq in Hrow by lia.
      inversion Hrow; subst.
      destruct (env_malloc (w_env w) (w_mallocs w + Z.to_nat i)); simpl.
      * rewrite length_map, length_seq. lia.
      * reflexivity.
    + rewrite list_lookup_insert_ne in Hrow by lia.
      apply (Hrows k row); [lia | exact Hrow].
  - exists m. split; [exact Hloop|]. split; [exact Hm|].
    intros k row Hrow. apply (Hrows k row); [|exact Hrow].
    apply lookup_lt_Some in Hrow. lia.
Qed.

(** A table with every row allocated is a matrix; one with a failed row
    has an empty row. *)
Lemma rows_all_or_empty rows cols (m : list (list T)) (f : nat -> bool) :
  0 < cols -> Z.of_nat (length m) = rows ->
  (forall k row, m !! k = Some row ->
     Z.of_nat (length row) = if f k then cols else 0) ->
  ((forall k, (k < Z.to_nat rows)%nat -> f k = true) /\ is_matrix rows cols m)
  \/ (exists i0, (i0 < Z.to_nat rows)%nat /\ f i0 = false /\
                 m !! i0 = Some []).
Proof.
  intros Hcols Hlen Hrows.
  destruct (all_or_one_fails f (Z.to_nat rows)) as [Hall|(i0 & Hi0 & Hf)].
  - left. split; [exact Hall|]. split; [exact Hlen|].
    apply Forall_lookup_2. intros k row Hrow.
    rewrite (Hrows k row Hrow), Hall; [reflexivity|].
    apply lookup_lt_Some in Hrow. lia.
  - right. exists i0. split; [exact Hi0|]. split; [exact Hf|].
    destruct (lookup_lt_is_Some_2 m i0 ltac:(lia)) as [row Hrow].
    pose proof (Hrows i0 row Hrow) as Hl. rewrite Hf in Hl.
    destruct row; [exact Hrow | simpl in Hl; lia].
Qed.
End AllocationAny.

Section MatrixFailures.
Import MatrixMultUnopt.

Lemma allocate_matrix_any n w :
  0 <= n -> env_malloc (w_env w) (w_mallocs w) = true ->
  exists m,
    allocate_matrix n w
    = Some (m, set_mallocs (w_mallocs w + Datatypes.S (Z.to_nat n)) w) /\
    Z.of_nat (length m) = n /\
    forall k row, m !! k = Some row ->
      Z.of_nat (length row)
      = if env_malloc (w_env w) (Datatypes.S (w_mallocs w) + k)
        then n else 0.
Proof.
  intros Hn Hk. unfold allocate_matrix.
  rewrite (bindM_eq _ _ _ _ _ (malloc_ok _ n w Hk)). cbn [cells].
  destruct (alloc_rows_any env_junk64 n n
              (map (fun _ : nat => @nil float64) (seq 0 (Z.to_nat n)))
              (set_mallocs (Datatypes.S (w_mallocs w)) w) Hn)
    as (m & Hloop & Hm & Hrows).
  - rewrite length_map, length_seq. lia.
  - exists m. split; [|split; [exact Hm | exact Hrows]].
    rewrite Hloop. do 2 f_equal. world_eq.
Qed.

(** Initialising or zeroing a matrix with a NULL row is undefined. *)
Lemma initialize_matrix_empty_row (m : list (list float64)) n w (i0 : nat) :
  (i0 < Z.to_nat n)%nat -> m !! i0 = Some [] ->
  initialize_matrix m n w = None.
Proof.
  intros Hi0 Hrow. unfold initialize_matrix, for_loopM.
  apply (for_loop_fails (fun mw => fst mw !! i0 = Some []) _ 0 n (m, w)
           (Z.of_nat i0)); [lia | exact Hrow | |].
  - intros k [m1 w1] [m2 w2] Hbody Hq. cbn [fst snd] in *.
    revert Hbody. apply (for_loop_post (fun mw => fst mw !! i0 = Some []));
      [exact Hq|].
    intros j [m3 w3] [m4 w4] Hb Hq3. cbn [fst snd] in *.
    unfold bind, rand, lift in Hb.
    destruct (mset m3 k j _) as [m5|] eqn:Hset; [|discriminate].
    inversion Hb; subst. exact (mset_keeps_empty_row _ _ _ _ _ _ Hset Hq3).
  - intros [m1 w1] Hq. cbn [fst snd] in *.
    apply for_loop_first_fails; [lia|]. cbn [fst snd].
    unfold bind, rand, lift. now rewrite (mset_empty_row m1 i0 0 _ Hq).
Qed.

Lemma zero_matrix_empty_row (m : list (list float64)) n (i0 : nat) :
  (i0 < Z.to_nat n)%nat -> m !! i0 = Some [] -> zero_matrix m n = None.
Proof.
  intros Hi0 Hrow. unfold zero_matrix.
  apply (for_loop_fails (fun m => m !! i0 = Some []) _ 0 n m (Z.of_nat i0));
    [lia | exact Hrow | |].
  - intros k m1 m2 Hbody Hq.
    revert Hbody. apply (for_loop_post (fun m => m !! i0 = Some []));
      [exact Hq|].
    intros j m3 m4 Hset Hq3. exact (mset_keeps_empty_row _ _ _ _ _ _ Hset Hq3).
  - intros m1 Hq. apply for_loop_first_fails; [lia|].
    exact (mset_empty_row m1 i0 0 _ Hq).
Qed.
End MatrixFailures.

Section MatrixMainFailures.
Import MatrixMultUnopt.

Lemma SIZE_nat : Z.to_nat SIZE = 256%nat.
Proof. reflexivity. Qed.

Lemma matrix_main_undefined e k :
  (k < malloc_calls)%nat -> env_malloc e k = false ->
  main (init_world e) = None.
Proof.
  intros Hk Hfail. unfold malloc_calls in Hk. rewrite SIZE_nat in Hk.
  assert (Hn : 0 <= SIZE) by (unfold SIZE; lia).
  assert (Hn' : 0 < SIZE) by (unfold SIZE; lia).
  unfold main. apply (bindM_None main_kernel). unfold main_kernel.
  rewrite (bindM_eq (srand 42) _ (init_world e) tt _ eq_refl).
  set (w0 := set_rand 42 0 (init_world e)).
  (* the table and the rows of A *)
  destruct (env_malloc e 0) eqn:H0; cycle 1.
  { apply (bindM_None (allocate_matrix SIZE)).
    now apply allocate_matrix_null. }
  destruct (allocate_matrix_any SIZE w0 Hn H0) as (A0 & HA0 & HlA & HrA).
  rewrite (bindM_eq _ _ _ _ _ HA0).
  set (w1 := set_mallocs _ w0).
  (* the table and the rows of B *)
  destruct (env_malloc e 257) eqn:H257; cycle 1.
  { apply (bindM_None (allocate_matrix SIZE)).
    apply allocate_matrix_null; [exact Hn' | exact H257]. }
  destruct (allocate_matrix_any SIZE w1 Hn H257) as (B0 & HB0 & HlB & HrB).
  rewrite (bindM_eq _ _ _ _ _ HB0).
  set (w2 := set_mallocs _ w1).
  (* the table and the rows of C *)
  destruct (env_malloc e 514) eqn:H514; cycle 1.
  { apply (bindM_None (allocate_matrix SIZE)).
    apply allocate_matrix_null; [exact Hn' | exact H514]. }
  destruct (allocate_matrix_any SIZE w2 Hn H514) as (C0 & HC0 & HlC & HrC).
  rewrite (bindM_eq _ _ _ _ _ HC0).
  set (w3 := set_mallocs _ w2).
  destruct (rows_all_or_empty SIZE SIZE A0
              (fun j => env_malloc e (1 + j)) Hn' HlA HrA)
    as [[HallA _]|(i0 & Hi0 & _ & Hrow)]; cycle 1.
  { apply (bindM_None (initialize_matrix A0 SIZE)).
    exact (initialize_matrix_empty_row A0 SIZE w3 i0 Hi0 Hrow). }
  destruct (initialize_matrix A0 SIZE w3) as [[A1 w4]|] eqn:HiA;
    [|now apply (bindM_None (initialize_matrix A0 SIZE))].
  rewrite (bindM_eq _ _ _ _ _ HiA).
  destruct (rows_all_or_empty SIZE SIZE B0
              (fun j => env_malloc e (258 + j)) Hn' HlB HrB)
    as [[HallB _]|(i0 & Hi0 & _ & Hrow)]; cycle 1.
  { apply (bindM_None (initialize_matrix B0 SIZE)).
    exact (initialize_matrix_empty_row B0 SIZE w4 i0 Hi0 Hrow). }
  destruct (initialize_matrix B0 SIZE w4) as [[B1 w5]|] eqn:HiB;
    [|now apply (bindM_None (initialize_matrix B0 SIZE))].
  rewrite (bindM_eq _ _ _ _ _ HiB).
  destruct (rows_all_or_empty SIZE SIZE C0
              (fun j => env_malloc e (515 + j)) Hn' HlC HrC)
    as [[HallC _]|(i0 & Hi0 & _ & Hrow)]; cycle 1.
  { apply (bindM_None (lift (zero_matrix C0 SIZE))).
    unfold lift. now rewrite (zero_matrix_empty_row C0 SIZE i0 Hi0 Hrow). }
  (* every call succeeded: there is no failing [k] *)
  exfalso. rewrite SIZE_nat in HallA, HallB, HallC.
  destruct (Nat.eq_dec k 0%nat) as [->|]; [congruence|].
  destruct (Nat.eq_dec k 257%nat) as [->|]; [congruence|].
  destruct (Nat.eq_dec k 514%nat) as [->|]; [congruence|].
  destruct (Nat.lt_ge_cases k 257%nat).
  - specialize (HallA (k - 1)%nat ltac:(lia)).
    replace (1 + (k - 1))%nat with k in HallA by lia. congruence.
  - destruct (Nat.lt_ge_cases k 514%nat).
    + specialize (HallB (k - 258)%nat ltac:(lia)).
      replace (258 + (k - 258))%nat with k in HallB by lia. congruence.
    + specialize (HallC (k - 515)%nat ltac:(lia)).
      replace (515 + (k - 515))%nat with k in HallC by lia. congruence.
Qed.
End MatrixMainFailures.

(** X6. matrix_mult_unopt.c completes exactly when every one of its 771
    allocations succeeds.  If any call of [malloc] returns NULL (a row
    table or any single row of [A], [B] or [C]), nothing tests it and the
    initialisation loops store through the NULL pointer: the run is
    undefined, and no run ends early or with another exit code. *)
Theorem matrix_main_needs_every_allocation (e : env) :
  (mallocs_ok e 0 MatrixMultUnopt.malloc_calls <->
   exists out, run matrix_mult_unopt e = Some (0, out)) /\
  ((exists k, (k < MatrixMultUnopt.malloc_calls)%nat /\ env_malloc e k = false)
   <-> run matrix_mult_unopt e = None).
Proof.
  assert (Hnone : forall k, (k < MatrixMultUnopt.malloc_calls)%nat ->
            env_malloc e k = false -> run matrix_mult_unopt e = None).
  { intros k Hk Hf. unfold run. cbn [main_of].
    now rewrite (matrix_main_undefined e k Hk Hf). }
  assert (Hdec : mallocs_ok e 0 MatrixMultUnopt.malloc_calls \/
                 exists k, (k < MatrixMultUnopt.malloc_calls)%nat /\
                           env_malloc e k = false).
  { destruct (all_or_one_fails (env_malloc e) MatrixMultUnopt.malloc_calls)
      as [Hall|Hone]; [left | right; exact Hone].
    intros j Hj. apply Hall. lia. }
  split; split.
  - intros Hok. eexists. apply (matrix_run_ok e Hok).
  - intros (out & Hrun). destruct Hdec as [Hok|(k & Hk & Hf)]; [exact Hok|].
    rewrite (Hnone k Hk Hf) in Hrun. discriminate.
  - intros (k & Hk & Hf). exact (Hnone k Hk Hf).
  - intros Hrun. destruct Hdec as [Hok|Hone]; [|exact Hone].
    destruct (matrix_run_ok e Hok) as [Hsome _]. rewrite Hsome in Hrun.
    discriminate.
Qed.

Lemma matrix_main_needs_every_allocation_witness :
  run matrix_mult_unopt env_oom = None.
Proof.
  destruct (matrix_main_needs_every_allocation env_oom) as (_ & Hnone & _).
  apply Hnone. exists 1%nat. split; [|reflexivity].
  unfold MatrixMultUnopt.malloc_calls. rewrite SIZE_nat. lia.
Defined.

(** ** kernels/image_blur_unopt.c *)

Section BlurValues.
Import ImageBlurUnopt.

(** The loops over the kernel offsets, unrolled. *)
Lemma for_loop_taps {S : Type} (body : Z -> S -> option S) (s : S) :
  for_loop (- offset) (offset + 1) body s
  = (s ← body (-2) s; s ← body (-1) s; s ← body 0 s; s ← body 1 s;
     body 2 s).
Proof.
  change (for_loop (- offset) (offset + 1) body s)
    with (s ← body (-2) s; s ← body (-1) s; s ← body 0 s; s ← body 1 s;
          s ← body 2 s; Some s).
  destruct (body (-2) s) as [s1|]; [simpl|reflexivity].
  destruct (body (-1) s1) as [s2|]; [simpl|reflexivity].
  destruct (body 0 s2) as [s3|]; [simpl|reflexivity].
  destruct (body 1 s3) as [s4|]; [simpl|reflexivity].
  destruct (body 2 s4) as [s5|]; reflexivity.
Qed.

Ltac kernel_cells :=
  repeat match goal with
         | |- context [mget kernel ?a ?b] =>
             let v := eval vm_compute in (mget kernel a b) in
             change (mget kernel a b) with v
         | |- context [cell 0 kernel ?a ?b] =>
             let v := eval vm_compute in (cell 0 kernel a b) in
             change (cell 0 kernel a b) with v
         end.

(** One column of the neighbourhood: the inner loop. *)
Lemma column_taps rd x y (p : Z -> Z -> Z) kx s :
  -2 <= kx <= 2 ->
  (forall ky, -2 <= ky <= 2 -> rd (y + ky) (x + kx) = Some (p ky kx)) ->
  for_loop (- offset) (offset + 1) (fun ky sum =>
    p ← rd (y + ky) (x + kx);
    c ← mget kernel (ky + offset) (kx + offset);
    Some (sum + p * c)) s
  = Some (fold_left (fun acc ky =>
            acc + p ky kx * cell 0 kernel (ky + offset) (kx + offset))
            tap_offsets s).
Proof.
  intros Hkx Hrd. rewrite for_loop_taps.
  rewrite !Hrd by lia. change offset with 2.
  unfold tap_offsets. cbn [fold_left mbind option_bind].
  assert (kx = -2 \/ kx = -1 \/ kx = 0 \/ kx = 1 \/ kx = 2) as Hc by lia.
  destruct Hc as [->|[->|[->|[->| ->]]]];
    kernel_cells; cbn [mbind option_bind]; reflexivity.
Qed.

(** The weighted sum in terms of the 25 pixels read. *)
Lemma weighted_sum_taps rd x y (p : Z -> Z -> Z) :
  (forall kx ky, -2 <= kx <= 2 -> -2 <= ky <= 2 ->
     rd (y + ky) (x + kx) = Some (p ky kx)) ->
  weighted_sum rd x y = Some (taps_sum p).
Proof.
  intros Hrd. unfold weighted_sum. rewrite for_loop_taps.
  rewrite (column_taps rd x y p (-2)) by (try lia; intros; apply Hrd; lia).
  cbn [mbind option_bind].
  rewrite (column_taps rd x y p (-1)) by (try lia; intros; apply Hrd; lia).
  cbn [mbind option_bind].
  rewrite (column_taps rd x y p 0) by (try lia; intros; apply Hrd; lia).
  cbn [mbind option_bind].
  rewrite (column_taps rd x y p 1) by (try lia; intros; apply Hrd; lia).
  cbn [mbind option_bind].
  rewrite (column_taps rd x y p 2) by (try lia; intros; apply Hrd; lia).
  unfold taps_sum, tap_offsets. cbn [fold_left]. reflexivity.
Qed.

Lemma taps_sum_flat v : taps_sum (fun _ _ => v) = 35 * v.
Proof.
  unfold taps_sum, tap_offsets. cbn [fold_left]. change offset with 2.
  kernel_cells. lia.
Qed.

Lemma taps_sum_ramp s : taps_sum (fun ky kx => s + kx + ky) = 35 * s.
Proof.
  unfold taps_sum, tap_offsets. cbn [fold_left]. change offset with 2.
  kernel_cells. lia.
Qed.

Lemma taps_sum_bounds (p : Z -> Z -> Z) lo hi :
  (forall kx ky, -2 <= kx <= 2 -> -2 <= ky <= 2 -> lo <= p ky kx <= hi) ->
  35 * lo <= taps_sum p <= 35 * hi.
Proof.
  intros Hp. unfold taps_sum, tap_offsets. cbn [fold_left].
  change offset with 2. kernel_cells.
  pose proof (Hp (-2) (-2)). pose proof (Hp (-2) (-1)). pose proof (Hp (-2) 0).
  pose proof (Hp (-2) 1). pose proof (Hp (-2) 2).
  pose proof (Hp (-1) (-2)). pose proof (Hp (-1) (-1)). pose proof (Hp (-1) 0).
  pose proof (Hp (-1) 1). pose proof (Hp (-1) 2).
  pose proof (Hp 0 (-2)). pose proof (Hp 0 (-1)). pose proof (Hp 0 0).
  pose proof (Hp 0 1). pose proof (Hp 0 2).
  pose proof (Hp 1 (-2)). pose proof (Hp 1 (-1)). pose proof (Hp 1 0).
  pose proof (Hp 1 1). pose proof (Hp 1 2).
  pose proof (Hp 2 (-2)). pose proof (Hp 2 (-1)). pose proof (Hp 2 0).
  pose proof (Hp 2 1). pose proof (Hp 2 2).
  lia.
Qed.

Lemma loop_of_nothing {S : Type} lo hi (body : Z -> S -> option S) s :
  (forall i t, lo <= i < hi -> body i t = Some t) ->
  for_loop lo hi body s = Some s.
Proof.
  intros Hbody.
  destruct (for_loop_inv_max (fun _ t => t = s) lo hi body s eq_refl)
    as (s' & Hloop & ->); [|exact Hloop].
  intros i t Hi ->. exists s. split; [now apply Hbody | reflexivity].
Qed.

(** The value stored at an interior pixel, in terms of the 25 pixels
    around it. *)
Lemma blurred_pixel input output width height x y (p : Z -> Z -> Z) :
  is_matrix height width input -> is_matrix height width output ->
  0 <= width <= INT_MAX -> 0 <= height <= INT_MAX ->
  2 <= x < width - 2 -> 2 <= y < height - 2 ->
  (forall kx ky, -2 <= kx <= 2 -> -2 <= ky <= 2 ->
     mget input (y + ky) (x + kx) = Some (p ky kx)) ->
  exists output',
    image_blur input output width height = Some output' /\
    mget output' y x = Some (to_uchar (Z.quot (taps_sum p) kernel_sum)).
Proof.
  intros Hin Hout Hw Hh Hx Hy Hp.
  destruct (image_blur_spec input output width height Hin Hout Hw Hh)
    as (output' & Hrun & Hcells).
  exists output'. split; [exact Hrun|].
  rewrite (cells_are_mget _ _ _ _ y x Hcells) by lia.
  unfold sel, interior. change offset with 2.
  destruct (Z.leb_spec 2 x); [|lia]. destruct (Z.ltb_spec x (width - 2)); [|lia].
  destruct (Z.leb_spec 2 y); [|lia]. destruct (Z.ltb_spec y (height - 2)); [|lia].
  cbn [andb]. unfold blur_value, convolve.
  now rewrite (weighted_sum_taps (mget input) x y p Hp).
Qed.
End BlurValues.

(** X7 (image_blur, kernels/image_blur_unopt.c): an image with fewer than
    five columns or fewer than five rows has no interior pixel: [image_blur]
    returns with the output untouched, and without reading or writing either
    image (nothing is assumed of the two arrays). *)
Theorem image_blur_small_image (input output : matrix Z) width height :
  INT_MIN + 2 <= width <= INT_MAX -> INT_MIN + 2 <= height <= INT_MAX ->
  width < 5 \/ height < 5 ->
  ImageBlurUnopt.image_blur input output width height = Some output.
Proof.
  intros Hw Hh Hsmall. unfold ImageBlurUnopt.image_blur.
  change ImageBlurUnopt.offset with 2.
  rewrite !int_ok_in_range by lia. cbn [mbind option_bind].
  apply loop_of_nothing. intros x t Hx.
  apply for_loop_empty. lia.
Qed.

Lemma image_blur_small_image_witness :
  ImageBlurUnopt.image_blur [[1; 2]] [] 2 1 = Some [].
Proof.
  apply image_blur_small_image; unfold INT_MIN, INT_MAX; lia.
Defined.

(** X8 (image_blur, kernels/image_blur_unopt.c): the value stored at an
    interior pixel lies between the smallest and the largest of the 25 input
    pixels around it (the weights are positive and [kernel_sum] is their
    sum); in particular a region of one colour keeps its colour, and the
    conversion to [unsigned char] never wraps. *)
Theorem image_blur_between_neighbours input output width height x y lo hi :
  is_matrix height width input -> is_matrix height width output ->
  0 <= width <= INT_MAX -> 0 <= height <= INT_MAX ->
  2 <= x < width - 2 -> 2 <= y < height - 2 ->
  0 <= lo -> hi <= 255 ->
  (forall kx ky, -2 <= kx <= 2 -> -2 <= ky <= 2 ->
     lo <= cell 0 input (y + ky) (x + kx) <= hi) ->
  exists output' v,
    ImageBlurUnopt.image_blur input output width height = Some output' /\
    mget output' y x = Some v /\ lo <= v <= hi.
Proof.
  intros Hin Hout Hw Hh Hx Hy Hlo Hhi Hp.
  set (p := fun ky kx => cell 0 input (y + ky) (x + kx)).
  destruct (blurred_pixel input output width height x y p Hin Hout Hw Hh Hx Hy)
    as (output' & Hrun & Hget).
  { intros kx ky Hkx Hky.
    apply (cells_are_mget height width input (cell 0 input));
      [now apply cells_are_cell | lia | lia]. }
  pose proof (taps_sum_bounds p lo hi Hp) as Hsum.
  change ImageBlurUnopt.kernel_sum with 35 in Hget.
  assert (Hq : lo <= Z.quot (ImageBlurUnopt.taps_sum p) 35 <= hi).
  { rewrite Z.quot_div_nonneg by lia. split.
    - apply Z.div_le_lower_bound; lia.
    - apply Z.div_le_upper_bound; lia. }
  exists output', (Z.quot (ImageBlurUnopt.taps_sum p) 35).
  split; [exact Hrun|]. split; [|exact Hq].
  rewrite Hget. unfold to_uchar. now rewrite Z.mod_small by lia.
Qed.

Lemma image_blur_between_neighbours_witness :
  exists output' v,
    ImageBlurUnopt.image_blur (replicate 5 [7; 7; 7; 7; 7])
      (replicate 5 [0; 0; 0; 0; 0]) 5 5 = Some output' /\
    mget output' 2 2 = Some v /\ 7 <= v <= 7.
Proof.
  apply image_blur_between_neighbours;
    try (split; [reflexivity | repeat constructor]);
    try (unfold INT_MAX; lia).
  intros kx ky Hkx Hky.
  assert (kx = -2 \/ kx = -1 \/ kx = 0 \/ kx = 1 \/ kx = 2) as Hc by lia.
  assert (ky = -2 \/ ky = -1 \/ ky = 0 \/ ky = 1 \/ ky = 2) as Hd by lia.
  destruct Hc as [->|[->|[->|[->| ->]]]];
    destruct Hd as [->|[->|[->|[->| ->]]]]; vm_compute; split; discriminate.
Defined.

(** X9 (initialize_image and image_blur, kernels/image_blur_unopt.c):
    blurring the test pattern gives the pattern back at every interior pixel
    whose neighbourhood does not cross a wrap of the pattern, that is where
    [(x + y) % 256] is between 4 and 251: the pattern is linear there and the
    kernel is symmetric. *)
Theorem blur_of_pattern_is_pattern image output width height :
  is_matrix height width image -> is_matrix height width output ->
  0 <= width <= INT_MAX -> 0 <= height <= INT_MAX ->
  width + height <= INT_MAX + 2 ->
  exists input output',
    ImageBlurUnopt.initialize_image image width height = Some input /\
    ImageBlurUnopt.image_blur input output width height = Some output' /\
    forall x y, 2 <= x < width - 2 -> 2 <= y < height - 2 ->
      4 <= (x + y) mod 256 <= 251 ->
      mget output' y x = Some ((x + y) mod 256).
Proof.
  intros Him Hout Hw Hh Hsum.
  destruct (initialize_image_spec image width height Him Hsum)
    as (input & Hinit & Hin).
  destruct (image_blur_spec input output width height (proj1 Hin) Hout Hw Hh)
    as (output' & Hrun & _).
  exists input, output'. split; [exact Hinit|]. split; [exact Hrun|].
  intros x y Hx Hy Hs.
  destruct (blurred_pixel input output width height x y
              (fun ky kx => (x + y) mod 256 + kx + ky)
              (proj1 Hin) Hout Hw Hh Hx Hy) as (output'' & Hrun' & Hget).
  { intros kx ky Hkx Hky.
    rewrite (cells_are_mget _ _ _ _ (y + ky) (x + kx) Hin) by lia.
    f_equal. symmetry. apply Z.mod_unique_pos with (q := (x + y) / 256).
    - lia.
    - pose proof (Z.div_mod (x + y) 256). lia. }
  rewrite Hrun in Hrun'. injection Hrun' as <-.
  rewrite Hget, taps_sum_ramp. change ImageBlurUnopt.kernel_sum with 35.
  rewrite Z.mul_comm, Z.quot_mul by lia.
  unfold to_uchar. now rewrite Z.mod_small by lia.
Qed.

Lemma blur_of_pattern_is_pattern_witness :
  exists input output',
    ImageBlurUnopt.initialize_image (replicate 5 [0; 0; 0; 0; 0]) 5 5
      = Some input /\
    ImageBlurUnopt.image_blur input (replicate 5 [9; 9; 9; 9; 9]) 5 5
      = Some output' /\
    forall x y, 2 <= x < 5 - 2 -> 2 <= y < 5 - 2 ->
      4 <= (x + y) mod 256 <= 251 ->
      mget output' y x = Some ((x + y) mod 256).
Proof.
  apply blur_of_pattern_is_pattern;
    try (split; [reflexivity | repeat constructor]);
    unfold INT_MAX; lia.
Defined.

(** ** kernels/stream_bench.c: the kernels on arrays of any length *)

Section PrefixLoops.
Context {T : Type}.
Implicit Types d vals : list T.

(** A loop that stores [vals[i]] in [d[i]] for [i] below [n] replaces the
    first [n] cells of [d] and keeps the others. *)
Lemma write_prefix (body : Z -> list T -> option (list T)) vals d n :
  n <= Z.of_nat (length vals) -> n <= Z.of_nat (length d) ->
  (forall i d' x, 0 <= i < n -> vals !! Z.to_nat i = Some x ->
     body i d' = aset d' i x) ->
  for_loop 0 n body d
  = Some (take (Z.to_nat n) vals ++ drop (Z.to_nat n) d).
Proof.
  intros Hvals Hd Hbody.
  destruct (for_loop_inv_max
    (fun k d' => d' = take (Z.to_nat k) vals ++ drop (Z.to_nat k) d)
    0 n body d) as (d' & Hloop & ->).
  - change (Z.to_nat 0) with O. now rewrite take_0, drop_0.
  - intros k d' Hk ->.
    destruct (lookup_lt_is_Some_2 vals (Z.to_nat k)) as [x Hx]; [lia|].
    destruct (lookup_lt_is_Some_2 d (Z.to_nat k)) as [y Hy]; [lia|].
    rewrite (Hbody k _ x Hk Hx). unfold aset.
    assert (Hlen : length (take (Z.to_nat k) vals) = Z.to_nat k)
      by (rewrite length_take; lia).
    rewrite length_app, Hlen, length_drop.
    destruct (Z.leb_spec 0 k); [|lia].
    destruct (Z.ltb_spec k (Z.of_nat (Z.to_nat k + (length d - Z.to_nat k))));
      [|lia].
    cbn [andb]. eexists. split; [reflexivity|].
    replace (Z.to_nat (k + 1)) with (Datatypes.S (Z.to_nat k)) by lia.
    rewrite insert_app_r_alt by lia. rewrite Hlen, Nat.sub_diag.
    rewrite (drop_S d y (Z.to_nat k) Hy). cbn [insert list_insert].
    rewrite (take_S_r vals (Z.to_nat k) x Hx).
    now rewrite <- app_assoc.
  - rewrite Hloop. f_equal.
    destruct (Z.le_gt_cases 0 n) as [Hn|Hn].
    + now rewrite Z.max_r by lia.
    + rewrite Z.max_l by lia. now replace (Z.to_nat n) with O by lia.
Qed.

(** A loop whose body stores in [d[i]] and fails once [i] reaches [m],
    run beyond [m]. *)
Lemma beyond_bounds (body : Z -> list T -> option (list T)) d n (m : nat) :
  Z.of_nat m < n ->
  (forall k t t', body k t = Some t' -> length t' = length t) ->
  (forall t, length t = length d -> body (Z.of_nat m) t = None) ->
  for_loop 0 n body d = None.
Proof.
  intros Hm Hlen Hfail.
  apply (for_loop_fails (fun t => length t = length d) body 0 n d
           (Z.of_nat m)); [lia | reflexivity | | exact Hfail].
  intros k t t' Hb Ht. now rewrite (Hlen k t t' Hb).
Qed.

Lemma aset_length d i x d' : aset d i x = Some d' -> length d' = length d.
Proof.
  unfold aset. destruct ((0 <=? i) && (i <? Z.of_nat (length d))); [|easy].
  intros [= <-]. apply length_insert.
Qed.

Lemma aget_beyond d i : Z.of_nat (length d) <= i -> aget d i = None.
Proof.
  intros Hi. unfold aget. destruct (Z.leb_spec 0 i); [|reflexivity].
  apply lookup_ge_None_2. lia.
Qed.

Lemma aset_beyond d i x : Z.of_nat (length d) <= i -> aset d i x = None.
Proof.
  intros Hi. unfold aset. destruct (Z.ltb_spec i (Z.of_nat (length d))); [lia|].
  now rewrite andb_false_r.
Qed.

Lemma aget_lookup d i : 0 <= i -> aget d i = d !! Z.to_nat i.
Proof. intros Hi. unfold aget. now destruct (Z.leb_spec 0 i); [|lia]. Qed.
End PrefixLoops.

Section StreamKernels.
Import StreamBench.
Implicit Types a b c : list float64.

Lemma stream_copy_prefix a b n :
  n <= Z.of_nat (length a) -> n <= Z.of_nat (length b) ->
  stream_copy a b n = Some (take (Z.to_nat n) a ++ drop (Z.to_nat n) b).
Proof.
  intros Ha Hb. apply write_prefix; [exact Ha | exact Hb |].
  intros i d' x Hi Hx. rewrite aget_lookup, Hx by lia. reflexivity.
Qed.

Lemma stream_scale_prefix a b scalar n :
  n <= Z.of_nat (length a) -> n <= Z.of_nat (length b) ->
  stream_scale a b scalar n
  = Some (take (Z.to_nat n) (F64.fmul scalar <$> a) ++ drop (Z.to_nat n) b).
Proof.
  intros Ha Hb. apply write_prefix; [now rewrite length_fmap | exact Hb |].
  intros i d' x Hi Hx. rewrite list_lookup_fmap in Hx.
  rewrite aget_lookup by lia.
  destruct (a !! Z.to_nat i) as [x0|]; [|discriminate Hx].
  injection Hx as <-. reflexivity.
Qed.

Lemma stream_add_prefix a b c n :
  n <= Z.of_nat (length a) -> n <= Z.of_nat (length b) ->
  n <= Z.of_nat (length c) ->
  stream_add a b c n
  = Some (take (Z.to_nat n) (zip_with F64.fadd a b) ++ drop (Z.to_nat n) c).
Proof.
  intros Ha Hb Hc.
  apply write_prefix; [rewrite length_zip_with; lia | exact Hc |].
  intros i d' x Hi Hx. rewrite lookup_zip_with in Hx.
  rewrite !aget_lookup by lia.
  destruct (a !! Z.to_nat i) as [x0|]; [|discriminate Hx].
  destruct (b !! Z.to_nat i) as [y0|]; [|discriminate Hx].
  injection Hx as <-. reflexivity.
Qed.

Lemma stream_triad_prefix a b c scalar n :
  n <= Z.of_nat (length a) -> n <= Z.of_nat (length b) ->
  n <= Z.of_nat (length c) ->
  stream_triad a b c scalar n
  = Some (take (Z.to_nat n)
            (zip_with (fun y z => F64.fadd y (F64.fmul scalar z)) b c)
          ++ drop (Z.to_nat n) a).
Proof.
  intros Ha Hb Hc.
  apply write_prefix; [rewrite length_zip_with; lia | exact Ha |].
  intros i d' x Hi Hx. rewrite lookup_zip_with in Hx.
  rewrite !aget_lookup by lia.
  destruct (b !! Z.to_nat i) as [y0|]; [|discriminate Hx].
  destruct (c !! Z.to_nat i) as [z0|]; [|discriminate Hx].
  injection Hx as <-. reflexivity.
Qed.

(** A kernel with one source array [a] and destination [b]. *)
Lemma unary_kernel_fails (f : float64 -> float64) a b n :
  Z.of_nat (length a) < n \/ Z.of_nat (length b) < n ->
  for_loop 0 n (fun i b => x ← aget a i; aset b i (f x)) b = None.
Proof.
  intros Hn.
  apply (beyond_bounds _ b n (Nat.min (length a) (length b))); [lia | |].
  - intros k t t' Hb. destruct (aget a k); [|discriminate Hb].
    exact (aset_length _ _ _ _ Hb).
  - intros t Ht.
    destruct (Nat.le_gt_cases (length a) (length b)) as [Hle|Hgt].
    + rewrite Nat.min_l by exact Hle. now rewrite aget_beyond by lia.
    + rewrite Nat.min_r by lia. destruct (aget a _); [|reflexivity].
      apply aset_beyond. lia.
Qed.

(** A kernel with two source arrays [a] and [b] and destination [c]. *)
Lemma binary_kernel_fails (f : float64 -> float64 -> float64) a b c n :
  Z.of_nat (length a) < n \/ Z.of_nat (length b) < n \/
  Z.of_nat (length c) < n ->
  for_loop 0 n (fun i c => x ← aget a i; y ← aget b i; aset c i (f x y)) c
  = None.
Proof.
  intros Hn.
  apply (beyond_bounds _ c n
           (Nat.min (length a) (Nat.min (length b) (length c)))); [lia | |].
  - intros k t t' Hb. destruct (aget a k); [|discriminate Hb].
    destruct (aget b k); [|discriminate Hb].
    exact (aset_length _ _ _ _ Hb).
  - intros t Ht.
    set (m := Nat.min (length a) (Nat.min (length b) (length c))).
    destruct (Z.le_gt_cases (Z.of_nat (length a)) (Z.of_nat m)) as [Hle|Hgt].
    { now rewrite (aget_beyond a) by exact Hle. }
    destruct (aget a _); [|reflexivity]. cbn [mbind option_bind].
    destruct (Z.le_gt_cases (Z.of_nat (length b)) (Z.of_nat m)) as [Hle|Hgt'].
    { now rewrite (aget_beyond b) by exact Hle. }
    destruct (aget b _); [|reflexivity]. cbn [mbind option_bind].
    apply aset_beyond. lia.
Qed.
End StreamKernels.

(** X10 (stream_copy, stream_scale, stream_add, stream_triad,
    kernels/stream_bench.c): called with a count [n] that fits the arrays,
    each kernel replaces the first [n] cells of its destination by the
    values computed from the first [n] cells of its sources and leaves the
    cells from [n] on as they were; with [n <= 0] nothing is written. *)
Theorem stream_kernels_write_prefix (a b c : list float64) scalar n :
  n <= Z.of_nat (length a) -> n <= Z.of_nat (length b) ->
  n <= Z.of_nat (length c) ->
  StreamBench.stream_copy a b n
  = Some (take (Z.to_nat n) a ++ drop (Z.to_nat n) b) /\
  StreamBench.stream_scale a b scalar n
  = Some (take (Z.to_nat n) (F64.fmul scalar <$> a) ++ drop (Z.to_nat n) b) /\
  StreamBench.stream_add a b c n
  = Some (take (Z.to_nat n) (zip_with F64.fadd a b) ++ drop (Z.to_nat n) c) /\
  StreamBench.stream_triad a b c scalar n
  = Some (take (Z.to_nat n)
            (zip_with (fun y z => F64.fadd y (F64.fmul scalar z)) b c)
          ++ drop (Z.to_nat n) a).
Proof.
  intros Ha Hb Hc.
  split; [now apply stream_copy_prefix|].
  split; [now apply stream_scale_prefix|].
  split; [now apply stream_add_prefix | now apply stream_triad_prefix].
Qed.

Lemma stream_kernels_write_prefix_witness :
  StreamBench.stream_copy [F64.of_Z 1; F64.of_Z 2; F64.of_Z 3]
    [F64.of_Z 4; F64.of_Z 5; F64.of_Z 6] 2
  = Some [F64.of_Z 1; F64.of_Z 2; F64.of_Z 6] /\
  StreamBench.stream_add [F64.of_Z 1; F64.of_Z 2; F64.of_Z 3]
    [F64.of_Z 4; F64.of_Z 5; F64.of_Z 6] [F64.of_Z 7; F64.of_Z 8] 2
  = Some [F64.of_Z 5; F64.of_Z 7].
Proof.
  destruct (stream_kernels_write_prefix [F64.of_Z 1; F64.of_Z 2; F64.of_Z 3]
              [F64.of_Z 4; F64.of_Z 5; F64.of_Z 6] [F64.of_Z 7; F64.of_Z 8]
              (F64.of_Z 2) 2) as (H1 & _ & H3 & _);
    [vm_compute; discriminate ..|].
  split; [rewrite H1 | rewrite H3]; vm_compute; reflexivity.
Defined.

(** X11 (stream_copy, stream_scale, stream_add, stream_triad,
    kernels/stream_bench.c): the kernels check nothing; a count [n] larger
    than one of the arrays makes the kernel access a cell past the end of that
    array, which is undefined behaviour, and this is the only way for a
    kernel to go wrong. *)
Theorem stream_kernels_out_of_bounds (a b c : list float64) scalar n :
  (StreamBench.stream_copy a b n = None <->
   Z.of_nat (length a) < n \/ Z.of_nat (length b) < n) /\
  (StreamBench.stream_scale a b scalar n = None <->
   Z.of_nat (length a) < n \/ Z.of_nat (length b) < n) /\
  (StreamBench.stream_add a b c n = None <->
   Z.of_nat (length a) < n \/ Z.of_nat (length b) < n \/
   Z.of_nat (length c) < n) /\
  (StreamBench.stream_triad a b c scalar n = None <->
   Z.of_nat (length a) < n \/ Z.of_nat (length b) < n \/
   Z.of_nat (length c) < n).
Proof.
  split; [|split; [|split]]; split.
  - intros Hnone.
    destruct (Z.lt_ge_cases (Z.of_nat (length a)) n); [now left|].
    destruct (Z.lt_ge_cases (Z.of_nat (length b)) n); [now right|].
    rewrite stream_copy_prefix in Hnone by lia. discriminate Hnone.
  - apply (unary_kernel_fails (fun x => x)).
  - intros Hnone.
    destruct (Z.lt_ge_cases (Z.of_nat (length a)) n); [now left|].
    destruct (Z.lt_ge_cases (Z.of_nat (length b)) n); [now right|].
    rewrite stream_scale_prefix in Hnone by lia. discriminate Hnone.
  - apply (unary_kernel_fails (F64.fmul scalar)).
  - intros Hnone.
    destruct (Z.lt_ge_cases (Z.of_nat (length a)) n); [now left|].
    destruct (Z.lt_ge_cases (Z.of_nat (length b)) n); [now right; left|].
    destruct (Z.lt_ge_cases (Z.of_nat (length c)) n); [now right; right|].
    rewrite stream_add_prefix in Hnone by lia. discriminate Hnone.
  - apply (binary_kernel_fails F64.fadd).
  - intros Hnone.
    destruct (Z.lt_ge_cases (Z.of_nat (length a)) n); [now left|].
    destruct (Z.lt_ge_cases (Z.of_nat (length b)) n); [now right; left|].
    destruct (Z.lt_ge_cases (Z.of_nat (length c)) n); [now right; right|].
    rewrite stream_triad_prefix in Hnone by lia. discriminate Hnone.
  - intros Hn.
    apply (binary_kernel_fails
             (fun y z => F64.fadd y (F64.fmul scalar z)) b c a). tauto.
Qed.

Lemma stream_kernels_out_of_bounds_witness :
  StreamBench.stream_copy [F64.pzero] [F64.pzero; F64.pzero] 2 = None.
Proof.
  apply (stream_kernels_out_of_bounds [F64.pzero] [F64.pzero; F64.pzero]
           [] F64.pzero 2).
  left. vm_compute. reflexivity.
Defined.

(** ** kernels/stream_bench.c: one pass, and the initialisation *)

Section StreamPassMaps.
Import StreamBench.
Implicit Types a b c : list float64.

Lemma whole_prefix {T : Type} (vals d : list T) n :
  Z.of_nat (length vals) = n -> Z.of_nat (length d) = n ->
  take (Z.to_nat n) vals ++ drop (Z.to_nat n) d = vals.
Proof.
  intros Hv Hd. rewrite take_ge, drop_ge by lia. apply app_nil_r.
Qed.

(** The four kernels of one pass, at any array size [n]. *)
Lemma pass_body_maps n a b c :
  Z.of_nat (length a) = n -> Z.of_nat (length b) = n ->
  Z.of_nat (length c) = n ->
  (c ← stream_copy a c n;
   b ← stream_scale c b (F64.of_dyadic 5 (-1)) n;
   c ← stream_add a b c n;
   a ← stream_triad a b c (F64.of_dyadic 3 (-1)) n;
   Some (Arrays a b c))
  = Some (Arrays
      ((fun x =>
          F64.fadd (F64.fmul (F64.of_dyadic 5 (-1)) x)
            (F64.fmul (F64.of_dyadic 3 (-1))
               (F64.fadd x (F64.fmul (F64.of_dyadic 5 (-1)) x)))) <$> a)
      (F64.fmul (F64.of_dyadic 5 (-1)) <$> a)
      ((fun x => F64.fadd x (F64.fmul (F64.of_dyadic 5 (-1)) x)) <$> a)).
Proof.
  intros Ha Hb Hc.
  rewrite stream_copy_prefix, whole_prefix by lia.
  cbn [mbind option_bind].
  rewrite stream_scale_prefix, whole_prefix
    by (rewrite ?length_fmap; lia).
  cbn [mbind option_bind].
  rewrite stream_add_prefix, whole_prefix
    by (rewrite ?length_zip_with, ?length_fmap; lia).
  cbn [mbind option_bind].
  rewrite stream_triad_prefix, whole_prefix
    by (rewrite ?length_zip_with, ?length_fmap; lia).
  cbn [mbind option_bind].
  rewrite !zip_with_fmap_l, !zip_with_fmap_r, !zip_with_diag.
  rewrite zip_with_fmap_r, zip_with_diag.
  reflexivity.
Qed.

Lemma aset_replicate_step {T : Type} (v : T) (d : list T) (i : Z) :
  0 <= i < Z.of_nat (length d) ->
  aset (replicate (Z.to_nat i) v ++ drop (Z.to_nat i) d) i v
  = Some (replicate (Z.to_nat (i + 1)) v ++ drop (Z.to_nat (i + 1)) d).
Proof.
  intros Hi. unfold aset.
  rewrite length_app, length_replicate, length_drop.
  destruct (Z.leb_spec 0 i); [|lia].
  destruct (Z.ltb_spec i (Z.of_nat (Z.to_nat i + (length d - Z.to_nat i))));
    [|lia].
  cbn [andb]. f_equal.
  destruct (lookup_lt_is_Some_2 d (Z.to_nat i)) as [y Hy]; [lia|].
  rewrite insert_app_r_alt by (rewrite length_replicate; lia).
  rewrite length_replicate, Nat.sub_diag, (drop_S d y _ Hy).
  cbn [insert list_insert].
  replace (Z.to_nat (i + 1)) with (Datatypes.S (Z.to_nat i)) by lia.
  rewrite replicate_S_end, <- app_assoc. reflexivity.
Qed.
End StreamPassMaps.

(** X12 (the repeat loop of main, kernels/stream_bench.c): one pass over
    arrays of [ARRAY_SIZE] cells is a map over the array [a] alone.  Whatever
    [b] and [c] held before is overwritten without being read; afterwards
    b[i] = 2.5 * a[i], c[i] = a[i] + 2.5 * a[i] and the new a[i] is
    b[i] + 1.5 * c[i], in IEEE double arithmetic, for the old a[i]. *)
Theorem pass_is_a_map_of_a (a b c : list float64) :
  Z.of_nat (length a) = StreamBench.ARRAY_SIZE ->
  Z.of_nat (length b) = StreamBench.ARRAY_SIZE ->
  Z.of_nat (length c) = StreamBench.ARRAY_SIZE ->
  StreamBench.pass (StreamBench.Arrays a b c)
  = Some (StreamBench.Arrays
      ((fun x =>
          F64.fadd (F64.fmul (F64.of_dyadic 5 (-1)) x)
            (F64.fmul (F64.of_dyadic 3 (-1))
               (F64.fadd x (F64.fmul (F64.of_dyadic 5 (-1)) x)))) <$> a)
      (F64.fmul (F64.of_dyadic 5 (-1)) <$> a)
      ((fun x => F64.fadd x (F64.fmul (F64.of_dyadic 5 (-1)) x)) <$> a)).
Proof. exact (pass_body_maps StreamBench.ARRAY_SIZE a b c). Qed.

Lemma pass_is_a_map_of_a_witness :
  exists s,
    StreamBench.pass
      (StreamBench.Arrays
         (replicate (Z.to_nat StreamBench.ARRAY_SIZE) (F64.of_Z 1))
         (replicate (Z.to_nat StreamBench.ARRAY_SIZE) (F64.of_Z 2))
         (replicate (Z.to_nat StreamBench.ARRAY_SIZE) (F64.of_Z 3)))
    = Some s.
Proof.
  eexists.
  apply pass_is_a_map_of_a; rewrite length_replicate;
    unfold StreamBench.ARRAY_SIZE; lia.
Defined.

Section StreamInit.
Import StreamBench.

Implicit Types a b c : list float64.

Lemma initialize_arrays_in_bounds a b c n :
  n <= Z.of_nat (length a) -> n <= Z.of_nat (length b) ->
  n <= Z.of_nat (length c) ->
  initialize_arrays (Arrays a b c) n
  = Some (Arrays
      (replicate (Z.to_nat n) (F64.of_dyadic 1 0) ++ drop (Z.to_nat n) a)
      (replicate (Z.to_nat n) (F64.of_dyadic 2 0) ++ drop (Z.to_nat n) b)
      (replicate (Z.to_nat n) (F64.of_dyadic 0 0) ++ drop (Z.to_nat n) c)).
Proof.
  intros Ha Hb Hc. unfold initialize_arrays.
  destruct (for_loop_inv_max
    (fun k s => s = Arrays
       (replicate (Z.to_nat k) (F64.of_dyadic 1 0) ++ drop (Z.to_nat k) a)
       (replicate (Z.to_nat k) (F64.of_dyadic 2 0) ++ drop (Z.to_nat k) b)
       (replicate (Z.to_nat k) (F64.of_dyadic 0 0) ++ drop (Z.to_nat k) c))
    0 n (fun i s =>
       a ← aset (arr_a s) i (F64.of_dyadic 1 0);
       b ← aset (arr_b s) i (F64.of_dyadic 2 0);
       c ← aset (arr_c s) i (F64.of_dyadic 0 0);
       Some (Arrays a b c)) (Arrays a b c)) as (s & Hloop & ->).
  - reflexivity.
  - intros k s Hk ->. cbn [arr_a arr_b arr_c].
    rewrite !aset_replicate_step by lia. cbn [mbind option_bind].
    eexists. split; reflexivity.
  - rewrite Hloop. f_equal.
    destruct (Z.le_gt_cases 0 n) as [Hn|Hn].
    + now rewrite Z.max_r by lia.
    + rewrite Z.max_l by lia. now replace (Z.to_nat n) with O by lia.
Qed.

Lemma initialize_arrays_beyond a b c n :
  Z.of_nat (length a) < n \/ Z.of_nat (length b) < n \/
  Z.of_nat (length c) < n ->
  initialize_arrays (Arrays a b c) n = None.
Proof.
  intros Hn. unfold initialize_arrays.
  set (m := Nat.min (length a) (Nat.min (length b) (length c))).
  apply (for_loop_fails
           (fun s => length (arr_a s) = length a /\
                     length (arr_b s) = length b /\
                     length (arr_c s) = length c) _ 0 n _ (Z.of_nat m)).
  - lia.
  - cbn [arr_a arr_b arr_c]. auto.
  - intros k [a1 b1 c1] t' Hb (Ha1 & Hb1 & Hc1). cbn [arr_a arr_b arr_c] in *.
    destruct (aset a1 k _) as [a2|] eqn:Ea; [|discriminate Hb].
    destruct (aset b1 k _) as [b2|] eqn:Eb; [|discriminate Hb].
    destruct (aset c1 k _) as [c2|] eqn:Ec; [|discriminate Hb].
    cbn [mbind option_bind] in Hb. injection Hb as <-.
    cbn [arr_a arr_b arr_c].
    rewrite (aset_length _ _ _ _ Ea), (aset_length _ _ _ _ Eb),
      (aset_length _ _ _ _ Ec). auto.
  - intros [a1 b1 c1] (Ha1 & Hb1 & Hc1). cbn [arr_a arr_b arr_c] in *.
    destruct (Z.le_gt_cases (Z.of_nat (length a)) (Z.of_nat m)) as [Hle|Hgt].
    { now rewrite (aset_beyond a1) by lia. }
    destruct (aset a1 _ _); [|reflexivity]. cbn [mbind option_bind].
    destruct (Z.le_gt_cases (Z.of_nat (length b)) (Z.of_nat m)) as [Hle|Hgt'].
    { now rewrite (aset_beyond b1) by lia. }
    destruct (aset b1 _ _); [|reflexivity]. cbn [mbind option_bind].
    now rewrite (aset_beyond c1) by lia.
Qed.
End StreamInit.

(** X13 (initialize_arrays, kernels/stream_bench.c): with a count [n] that
    fits the three arrays, the first [n] cells of [a], [b] and [c] become
    1.0, 2.0 and 0.0 and the cells from [n] on are kept; with a count larger
    than one of the arrays the function writes past the end of that array
    (undefined behaviour). *)
Theorem initialize_arrays_prefix (a b c : list float64) n :
  (n <= Z.of_nat (length a) -> n <= Z.of_nat (length b) ->
   n <= Z.of_nat (length c) ->
   StreamBench.initialize_arrays (StreamBench.Arrays a b c) n
   = Some (StreamBench.Arrays
       (replicate (Z.to_nat n) (F64.of_dyadic 1 0) ++ drop (Z.to_nat n) a)
       (replicate (Z.to_nat n) (F64.of_dyadic 2 0) ++ drop (Z.to_nat n) b)
       (replicate (Z.to_nat n) (F64.of_dyadic 0 0) ++ drop (Z.to_nat n) c))) /\
  (Z.of_nat (length a) < n \/ Z.of_nat (length b) < n \/
   Z.of_nat (length c) < n ->
   StreamBench.initialize_arrays (StreamBench.Arrays a b c) n = None).
Proof.
  split; [apply initialize_arrays_in_bounds | apply initialize_arrays_beyond].
Qed.

Lemma initialize_arrays_prefix_witness :
  StreamBench.initialize_arrays
    (StreamBench.Arrays [F64.of_Z 7; F64.of_Z 8] [F64.of_Z 7; F64.of_Z 8]
       [F64.of_Z 7; F64.of_Z 8]) 1
  = Some (StreamBench.Arrays [F64.of_dyadic 1 0; F64.of_Z 8]
            [F64.of_dyadic 2 0; F64.of_Z 8] [F64.of_dyadic 0 0; F64.of_Z 8]) /\
  StreamBench.initialize_arrays
    (StreamBench.Arrays [F64.of_Z 7; F64.of_Z 8] [F64.of_Z 7]
       [F64.of_Z 7; F64.of_Z 8]) 2 = None.
Proof.
  split.
  - apply (proj1 (initialize_arrays_prefix [F64.of_Z 7; F64.of_Z 8]
                    [F64.of_Z 7; F64.of_Z 8] [F64.of_Z 7; F64.of_Z 8] 1));
      vm_compute; discriminate.
  - apply (proj2 (initialize_arrays_prefix [F64.of_Z 7; F64.of_Z 8]
                    [F64.of_Z 7] [F64.of_Z 7; F64.of_Z 8] 2)).
    right; left. vm_compute. reflexivity.
Defined.

(** ** The checksum lines as text *)

(** X14 (main of kernels/stream_bench.c, kernels/image_blur_unopt.c and
    Lab_2/kernels/mmm.c): the checksums that these programs print do not
    depend on the run: whatever the heap held, whatever [clock()] returned
    and whatever [rand()] produces, a run whose allocations succeed prints
    the checksum text below, character for character (for mmm.c, whose
    line also carries the time, the text of the [%f] conversion). *)
Theorem checksum_texts (e : env) :
  (env_malloc e 0 && env_malloc e 1 && env_malloc e 2 = true ->
   exists t c r,
     run stream_bench e = Some (0, [t; c; r]) /\
     render (ev_fmt c) (ev_args c)
     = Some ("Final result checksum: a[100] = 781658446.293641, "
             ++ "b[100] = 252147885.901175" ++ nl)%string) /\
  (mallocs_ok e 0 ImageBlurUnopt.malloc_calls ->
   exists t c,
     run image_blur_unopt e = Some (0, [t; c]) /\
     render (ev_fmt c) (ev_args c)
     = Some ("Result checksum: output[100][100] = 200, "
             ++ "output[200][200] = 144" ++ nl)%string) /\
  (exists x t,
     run mmm e
     = Some (0, [Printf ("Done MMM Naive. C[0][0]=%f Time=%.2f ms" ++ nl)
                   [DataF x; Elapsed t]]) /\
     render_fixed 6 x = Some "690880.000000"%string).
Proof.
  split; [|split].
  - intros Hok. destruct (stream_run_ok e Hok) as [Hrun _].
    eexists _, _, _. split; [exact Hrun|]. vm_compute. reflexivity.
  - intros Hok. destruct (image_run_ok e Hok) as [Hrun _].
    eexists _, _. split; [exact Hrun|]. vm_compute. reflexivity.
  - destruct (mmm_run e) as [Hrun _].
    eexists _, _. split; [exact Hrun|]. vm_compute. reflexivity.
Qed.

Lemma checksum_texts_witness :
  exists t c r,
    run stream_bench env_b = Some (0, [t; c; r]) /\
    render (ev_fmt c) (ev_args c)
    = Some ("Final result checksum: a[100] = 781658446.293641, "
            ++ "b[100] = 252147885.901175" ++ nl)%string.
Proof. apply (checksum_texts env_b). reflexivity. Defined.

(** ** kernels/kernel5.c: what the scatter loop computes *)

Section Scatter.
Variable n : Z.
Variable g : Kernel5.globals.
Variables (hf wf : Z -> float32) (idxf : Z -> Z).
Hypothesis Hh : elems_are n (Kernel5.h g) hf.
Hypothesis Hw : elems_are n (Kernel5.w g) wf.
Hypothesis Hidx : elems_are n (Kernel5.idx g) idxf.

(** The loop at any array size [n], with every index inside the array. *)
Lemma scatter_loop :
  (forall i, 0 <= i < n -> 0 <= idxf i < n) ->
  exists g',
    for_loop 0 n (fun i g =>
       t ← aget (Kernel5.idx g) i;
       x ← aget (Kernel5.h g) t;
       y ← aget (Kernel5.w g) i;
       h' ← aset (Kernel5.h g) t (F32.fadd x y);
       Some (Kernel5.Globals h' (Kernel5.w g) (Kernel5.idx g))) g
    = Some g' /\
    Kernel5.w g' = Kernel5.w g /\ Kernel5.idx g' = Kernel5.idx g /\
    elems_are n (Kernel5.h g')
      (Kernel5.scatter_cell idxf wf hf (Z.to_nat n)).
Proof.
  intros Hrange.
  assert (Hn : 0 <= n) by (destruct Hh as [Hn _]; lia).
  apply (for_loop_inv
    (fun k g' =>
       Kernel5.w g' = Kernel5.w g /\ Kernel5.idx g' = Kernel5.idx g /\
       elems_are n (Kernel5.h g')
         (Kernel5.scatter_cell idxf wf hf (Z.to_nat k)))
    0 n _ g Hn).
  - split; [reflexivity|]. split; [reflexivity|]. exact Hh.
  - intros i [h1 w1 i1] Hi (Hw1 & Hi1 & Hh1).
    cbn [Kernel5.h Kernel5.w Kernel5.idx] in *. subst w1 i1.
    cbn [Kernel5.h Kernel5.w Kernel5.idx].
    rewrite (proj2 Hidx i Hi). cbn [mbind option_bind].
    rewrite (proj2 Hh1 _ (Hrange i Hi)). cbn [mbind option_bind].
    rewrite (proj2 Hw i Hi). cbn [mbind option_bind].
    destruct (elems_are_aset n h1 _ (idxf i)
                (F32.fadd
                   (Kernel5.scatter_cell idxf wf hf (Z.to_nat i) (idxf i))
                   (wf i)) Hh1 (Hrange i Hi)) as (h2 & -> & Hh2).
    cbn [mbind option_bind]. eexists. split; [reflexivity|].
    cbn [Kernel5.h Kernel5.w Kernel5.idx].
    split; [reflexivity|]. split; [reflexivity|].
    revert Hh2. apply elems_are_ext. intros j Hj.
    replace (Z.to_nat (i + 1)) with (Datatypes.S (Z.to_nat i)) by lia.
    cbn [Kernel5.scatter_cell]. rewrite Z2Nat.id by lia.
    rewrite (Z.eqb_sym (idxf i) j).
    destruct (Z.eqb_spec j (idxf i)) as [->|]; reflexivity.
Qed.

End Scatter.



(** X16 (main, kernels/kernel5.c): whatever [rand()] returns, the two loops
    of kernel5.c stay inside the arrays, call [rand()] exactly [SIZE] times
    and end with w[i] = SIZE - i, idx[i] = (i-th value of rand()) % SIZE,
    which lies in [0, SIZE), and each h[j] equal to j plus the weights
    SIZE - i of the indices [i] drawn at [j], added in the order of [i]. *)
Theorem kernel5_final_state (wd : world) :
  exists g',
    Kernel5.main_kernel wd
    = Some (g', set_rand (w_seed wd) (w_rands wd + Z.to_nat Kernel5.SIZE) wd) /\
    elems_are Kernel5.SIZE (Kernel5.h g')
      (Kernel5.scatter_cell
         (Kernel5.idx_cell (w_env wd) (w_seed wd) (w_rands wd))
         (fun i => F32.of_Z (Kernel5.SIZE - i)) (fun i => F32.of_Z i)
         (Z.to_nat Kernel5.SIZE)) /\
    elems_are Kernel5.SIZE (Kernel5.w g')
      (fun i => F32.of_Z (Kernel5.SIZE - i)) /\
    elems_are Kernel5.SIZE (Kernel5.idx g')
      (Kernel5.idx_cell (w_env wd) (w_seed wd) (w_rands wd)) /\
    (forall i, 0 <= i < Kernel5.SIZE ->
       0 <= Kernel5.idx_cell (w_env wd) (w_seed wd) (w_rands wd) i
         < Kernel5.SIZE).
Proof.
  assert (Hrange : forall i, 0 <= i < Kernel5.SIZE ->
            0 <= Kernel5.idx_cell (w_env wd) (w_seed wd) (w_rands wd) i
              < Kernel5.SIZE).
  { intros i _. unfold Kernel5.idx_cell. apply Z.rem_bound_pos; [lia|].
    unfold Kernel5.SIZE. lia. }
  destruct (kernel5_fill_spec wd) as (g & Hfill & Hh & Hw & Hi).
  destruct (scatter_loop Kernel5.SIZE g _ _ _ Hh Hw Hi Hrange)
    as (g' & Hsc & Ew & Ei & Hh').
  exists g'. split.
  - unfold Kernel5.main_kernel. rewrite (bindM_eq _ _ _ _ _ Hfill).
    now apply liftM_eq.
  - split; [exact Hh'|]. rewrite Ew, Ei.
    split; [exact Hw|]. split; [exact Hi | exact Hrange].
Qed.

(** ** Lab_2/kernels/kernel2.c: the sum that is printed *)

Section EvenSum.
Import Lab2Kernel2.

Lemma even_total_bounds (f : Z -> Z) (k : nat) :
  (forall i, 0 <= i < Z.of_nat k -> 0 <= f i < 100) ->
  0 <= even_total f k <= 98 * Z.of_nat k /\ Z.rem (even_total f k) 2 = 0.
Proof.
  induction k as [|k IH]; intros Hf; [cbn; split; [lia | reflexivity]|].
  destruct IH as [IH1 IH2]; [intros i Hi; apply Hf; lia|].
  pose proof (Hf (Z.of_nat k) ltac:(lia)) as Hx.
  cbn [even_total].
  destruct (Z.eqb_spec (Z.rem (f (Z.of_nat k)) 2) 0) as [He|He].
  - pose proof (Z.quot_rem' (f (Z.of_nat k)) 2) as Hq.
    pose proof (Z.quot_rem' (even_total f k) 2) as Hq'.
    split; [lia|].
    replace (even_total f k + f (Z.of_nat k))
      with ((even_total f k ÷ 2 + f (Z.of_nat k) ÷ 2) * 2) by lia.
    apply Z.rem_mul. lia.
  - rewrite Z.add_0_r. split; [lia | exact IH2].
Qed.

(** The second loop at any array size [n]. *)
Lemma sum_even_loop n (A : list Z) (f : Z -> Z) :
  elems_are n A f ->
  for_loop 0 n (fun i sum =>
    x ← aget A i;
    Some (if Z.rem x 2 =? 0 then sum + x else sum)) 0
  = Some (even_total f (Z.to_nat n)).
Proof.
  intros HA.
  assert (Hn : 0 <= n) by (destruct HA as [Hn _]; lia).
  destruct (for_loop_inv (fun k sum => sum = even_total f (Z.to_nat k)) 0 n
    (fun i sum =>
       x ← aget A i;
       Some (if Z.rem x 2 =? 0 then sum + x else sum)) 0 Hn)
    as (sum & Hloop & ->); [reflexivity | | exact Hloop].
  intros i sum Hi ->. rewrite (proj2 HA i Hi). cbn [mbind option_bind].
  eexists. split; [reflexivity|].
  replace (Z.to_nat (i + 1)) with (Datatypes.S (Z.to_nat i)) by lia.
  cbn [even_total]. rewrite Z2Nat.id by lia.
  destruct (Z.rem (f i) 2 =? 0); lia.
Qed.

Lemma same_result {X Y W : Type} (x x' : X) (y y' : Y) (u u' : W) :
  Some (x, y, u) = Some (x', y', u') -> x = x' /\ y = y'.
Proof. intros [= -> -> _]. auto. Qed.
End EvenSum.

(** X17 (main, Lab_2/kernels/kernel2.c): whatever [rand()] returns, the
    program prints "Sum = s" where [s] is the sum of the even ones among
    the [N] values rand() % 100; [s] is even, lies between 0 and 98 * N,
    and so the [int] accumulator never overflows. *)
Theorem lab2_kernel2_sum (e : env) :
  exists s,
    run lab2_kernel2 e = Some (0, [Printf ("Sum = %d" ++ nl) [DataI s]]) /\
    s = Lab2Kernel2.even_total (Lab2Kernel2.A_cell e 1 0)
          (Z.to_nat Lab2Kernel2.N) /\
    Z.rem s 2 = 0 /\ 0 <= s <= 98 * Lab2Kernel2.N /\ s <= INT_MAX.
Proof.
  destruct (lab2_kernel2_run e) as (A & s & Hk & Hrun & _).
  destruct (lab2_main_kernel_spec (init_world e))
    as (A' & s' & Hk' & HA & Hsum & _).
  rewrite Hk in Hk'. destruct (same_result _ _ _ _ _ _ Hk') as [<- <-].
  cbn [init_world w_env w_seed w_rands] in HA.
  unfold Lab2Kernel2.sum_even in Hsum.
  rewrite (sum_even_loop Lab2Kernel2.N A _ HA) in Hsum.
  apply (inj Some) in Hsum. rename Hsum into Hs.
  destruct (even_total_bounds (Lab2Kernel2.A_cell e 1 0)
              (Z.to_nat Lab2Kernel2.N)) as [Hb He].
  { intros i _. unfold Lab2Kernel2.A_cell. apply Z.rem_bound_pos; lia. }
  exists s. split; [exact Hrun|]. split; [now symmetry|].
  rewrite <- Hs. split; [exact He|].
  assert (HN : Z.of_nat (Z.to_nat Lab2Kernel2.N) = Lab2Kernel2.N)
    by (unfold Lab2Kernel2.N; lia).
  rewrite HN in Hb. split; [exact Hb|].
  unfold Lab2Kernel2.N, INT_MAX in *. lia.
Qed.

(** ** Lab_2/kernels/kernel4.c: the blocked nest as one loop *)

Section Flatten.
Context {S : Type}.
Implicit Type body : Z -> S -> option S.

Lemma for_iter_app body step (m n : nat) i s :
  for_iter body step (m + n) i s
  = (s' ← for_iter body step m i s;
     for_iter body step n (i + step * Z.of_nat m) s').
Proof.
  revert i s. induction m as [|m IH]; intros i s.
  - cbn [for_iter Nat.add mbind option_bind]. f_equal. lia.
  - cbn [for_iter Nat.add]. destruct (body i s) as [t|]; [|reflexivity].
    cbn [mbind option_bind]. rewrite IH.
    destruct (for_iter body step m (i + step) t) as [u|]; [|reflexivity].
    cbn [mbind option_bind]. f_equal. lia.
Qed.

Lemma for_iter_shift body b step cnt i s :
  for_iter (fun k => body (b + k)) step cnt i s
  = for_iter body step cnt (b + i) s.
Proof.
  revert i s. induction cnt as [|cnt IH]; intros i s; [reflexivity|].
  cbn [for_iter]. destruct (body (b + i) s) as [t|]; [|reflexivity].
  cbn [mbind option_bind]. rewrite IH. f_equal. lia.
Qed.

(** [nb] blocks of [bs] consecutive indices are [nb * bs] consecutive
    indices. *)
Lemma for_iter_blocks body (bs nb : nat) b0 s :
  for_iter (fun block s =>
              for_iter (fun i => body (block + i)) 1 bs 0 s)
    (Z.of_nat bs) nb b0 s
  = for_iter body 1 (nb * bs) b0 s.
Proof.
  revert b0 s. induction nb as [|nb IH]; intros b0 s; [reflexivity|].
  cbn [for_iter Nat.mul]. rewrite for_iter_app, for_iter_shift, Z.add_0_r.
  destruct (for_iter body 1 bs b0 s) as [t|]; [|reflexivity].
  cbn [mbind option_bind]. rewrite IH. f_equal. lia.
Qed.
End Flatten.

Section BlockedSum.
Import Lab2Kernel4.

Lemma blocked_sum_flat (rd : Z -> option Z) :
  blocked_sum rd
  = for_loop 0 (157 * BLOCK_SIZE)
      (fun k sum => x ← rd (k * STRIDE); Some (sum + x)) 0.
Proof.
  unfold blocked_sum, for_loop, for_step.
  change (trip_count 0 NUM_ACCESSES BLOCK_SIZE) with 157%nat.
  change (trip_count 0 BLOCK_SIZE 1) with 64%nat.
  rewrite trip_count_1.
  replace (Z.to_nat (157 * BLOCK_SIZE - 0)) with (157 * 64)%nat
    by (unfold BLOCK_SIZE; lia).
  exact (for_iter_blocks
           (fun k sum => x ← rd (k * STRIDE); Some (sum + x)) 64 157 0 0).
Qed.

(** The flat loop over an array that holds its own indices. *)
Lemma flat_sum_defined size (A : list Z) n :
  elems_are size A (fun i => i) -> 0 <= n -> (n - 1) * STRIDE < size ->
  exists sum,
    for_loop 0 n (fun k sum => x ← aget A (k * STRIDE); Some (sum + x)) 0
    = Some sum /\ 2 * sum = STRIDE * (n * (n - 1)).
Proof.
  intros HA Hn Hsize.
  apply (for_loop_inv (fun k sum => 2 * sum = STRIDE * (k * (k - 1)))
           0 n _ 0 Hn); [lia|].
  intros k sum Hk Hsum.
  rewrite (proj2 HA (k * STRIDE)) by (unfold STRIDE in *; lia).
  cbn [mbind option_bind]. eexists. split; [reflexivity|].
  unfold STRIDE in *. lia.
Qed.

Lemma flat_sum_undefined size (A : list Z) n :
  elems_are size A (fun i => i) -> 0 < n -> size <= (n - 1) * STRIDE ->
  for_loop 0 n (fun k sum => x ← aget A (k * STRIDE); Some (sum + x)) 0
  = None.
Proof.
  intros HA Hn Hsize.
  apply (for_loop_fails (fun _ => True) _ 0 n 0 (n - 1)); [lia | exact I | auto |].
  intros t _. rewrite aget_beyond; [reflexivity|].
  destruct HA as [Hlen _]. lia.
Qed.
End BlockedSum.

(** X18 (the blocked loop nest of main, Lab_2/kernels/kernel4.c): whatever
    the array holds, the nest is the single loop that adds A[k * STRIDE] for
    k = 0, 1, ..., 157 * BLOCK_SIZE - 1 in increasing order: 10048 reads,
    48 more than NUM_ACCESSES. *)
Theorem blocked_sum_is_one_loop (rd : Z -> option Z) :
  Lab2Kernel4.blocked_sum rd
  = for_loop 0 (157 * Lab2Kernel4.BLOCK_SIZE)
      (fun k sum => x ← rd (k * Lab2Kernel4.STRIDE); Some (sum + x)) 0 /\
  157 * Lab2Kernel4.BLOCK_SIZE = Lab2Kernel4.NUM_ACCESSES + 48.
Proof. split; [apply blocked_sum_flat | reflexivity]. Qed.

(** X19 (the blocked loop nest of main, Lab_2/kernels/kernel4.c): over an
    array of [size] cells with A[i] = i, the nest stays inside the array
    exactly when [size] exceeds 10047 * STRIDE, which is more than
    ARRAY_SIZE; it then returns 206750220288, which fits [long long]. *)
Theorem blocked_sum_array_size (size : Z) (A : list Z) :
  elems_are size A (fun i => i) ->
  (10047 * Lab2Kernel4.STRIDE < size ->
   Lab2Kernel4.blocked_sum (aget A) = Some 206750220288) /\
  (size <= 10047 * Lab2Kernel4.STRIDE ->
   Lab2Kernel4.blocked_sum (aget A) = None) /\
  Lab2Kernel4.ARRAY_SIZE <= 10047 * Lab2Kernel4.STRIDE /\
  206750220288 < 2 ^ 63.
Proof.
  intros HA. rewrite blocked_sum_flat.
  split; [|split; [|split; [discriminate | reflexivity]]].
  - intros Hsize.
    destruct (flat_sum_defined size A (157 * Lab2Kernel4.BLOCK_SIZE) HA)
      as (sum & -> & Hsum);
      [unfold Lab2Kernel4.BLOCK_SIZE; lia
      |unfold Lab2Kernel4.BLOCK_SIZE, Lab2Kernel4.STRIDE in *; lia|].
    f_equal. unfold Lab2Kernel4.BLOCK_SIZE, Lab2Kernel4.STRIDE in Hsum. lia.
  - intros Hsize. apply (flat_sum_undefined size A _ HA).
    + unfold Lab2Kernel4.BLOCK_SIZE. lia.
    + unfold Lab2Kernel4.BLOCK_SIZE, Lab2Kernel4.STRIDE in *. lia.
Qed.

Lemma blocked_sum_array_size_witness :
  Lab2Kernel4.blocked_sum (aget [0; 1; 2]) = None.
Proof.
  apply (blocked_sum_array_size 3 [0; 1; 2]).
  - split; [reflexivity|]. intros i Hi.
    assert (i = 0 \/ i = 1 \/ i = 2) as [->|[->| ->]] by lia; reflexivity.
  - unfold Lab2Kernel4.STRIDE. lia.
Defined.

(** ** Lab_2/kernels/mmm.c: initialisation *)

(** X20 (init_matrices, Lab_2/kernels/mmm.c): at any size, [init_matrices]
    overwrites every cell of the three arrays: its result does not depend on
    what they held (so a second call after a multiplication starts the
    computation afresh), and calling it again changes nothing. *)
Theorem init_matrices_resets {T : Type} `{Arith T} (n : Z)
    (g1 g2 : Mmm.globals T) :
  is_matrix n n (Mmm.gA g1) -> is_matrix n n (Mmm.gB g1) ->
  is_matrix n n (Mmm.gC g1) ->
  is_matrix n n (Mmm.gA g2) -> is_matrix n n (Mmm.gB g2) ->
  is_matrix n n (Mmm.gC g2) ->
  exists g,
    Mmm.init_matrices_n n g1 = Some g /\
    Mmm.init_matrices_n n g2 = Some g /\
    Mmm.init_matrices_n n g = Some g /\
    cells_are n n (Mmm.gA g) (fun i j => of_int (i + j)) /\
    cells_are n n (Mmm.gB g) (fun i j => of_int (i - j)) /\
    cells_are n n (Mmm.gC g) (fun _ _ => zero).
Proof.
  intros HA1 HB1 HC1 HA2 HB2 HC2.
  destruct (init_matrices_spec n g1 HA1 HB1 HC1)
    as ([A B C] & Hg1 & HA & HB & HC).
  destruct (init_matrices_spec n g2 HA2 HB2 HC2)
    as ([A' B' C'] & Hg2 & HA' & HB' & HC').
  cbn [Mmm.gA Mmm.gB Mmm.gC] in *.
  destruct (init_matrices_spec n (Mmm.Globals A B C) (proj1 HA) (proj1 HB)
              (proj1 HC)) as ([A'' B'' C''] & Hg3 & HA'' & HB'' & HC'').
  cbn [Mmm.gA Mmm.gB Mmm.gC] in *.
  rewrite (cells_are_inj _ _ _ _ _ HA' HA) in Hg2.
  rewrite (cells_are_inj _ _ _ _ _ HB' HB) in Hg2.
  rewrite (cells_are_inj _ _ _ _ _ HC' HC) in Hg2.
  rewrite (cells_are_inj _ _ _ _ _ HA'' HA) in Hg3.
  rewrite (cells_are_inj _ _ _ _ _ HB'' HB) in Hg3.
  rewrite (cells_are_inj _ _ _ _ _ HC'' HC) in Hg3.
  exists (Mmm.Globals A B C). cbn [Mmm.gA Mmm.gB Mmm.gC]. auto 10.
Qed.

Lemma init_matrices_resets_witness :
  exists g,
    Mmm.init_matrices_n (T:=Z) 2
      (Mmm.Globals [[1; 2]; [3; 4]] [[5; 6]; [7; 8]] [[9; 9]; [9; 9]])
    = Some g /\
    Mmm.init_matrices_n 2 (Mmm.static_globals 2) = Some g /\
    Mmm.init_matrices_n 2 g = Some g /\
    cells_are 2 2 (Mmm.gA g) (fun i j => i + j) /\
    cells_are 2 2 (Mmm.gB g) (fun i j => i - j) /\
    cells_are 2 2 (Mmm.gC g) (fun _ _ => 0).
Proof.
  apply (@init_matrices_resets Z Z_arith 2
           (Mmm.Globals [[1; 2]; [3; 4]] [[5; 6]; [7; 8]] [[9; 9]; [9; 9]])
           (Mmm.static_globals 2));
    (split; [reflexivity | repeat constructor]).
Defined.

(** ** Lab_1/kernels/kernel2.c: the guarded sum on any arrays *)

Section Accumulate.
Import Lab1Kernel2.

End Accumulate.



(** ** kernels/image_blur_unopt.c: allocations that fail *)

Section RelatedLoops.
Context {S : Type} (R : S -> S -> Prop).
Implicit Type body : Z -> S -> option S.

(** Two runs of a loop from related states stay related, and fail
    together. *)
Lemma for_iter_rel body step cnt i s1 s2 :
  R s1 s2 ->
  (forall k t1 t2, (k < cnt)%nat -> R t1 t2 ->
     option_Forall2 R (body (i + step * Z.of_nat k) t1)
                      (body (i + step * Z.of_nat k) t2)) ->
  option_Forall2 R (for_iter body step cnt i s1) (for_iter body step cnt i s2).
Proof.
  revert i s1 s2. induction cnt as [|cnt IH]; intros i s1 s2 Hs Hbody.
  - now constructor.
  - cbn [for_iter].
    pose proof (Hbody O s1 s2 ltac:(lia) Hs) as H0.
    assert (E : i + step * Z.of_nat 0 = i) by lia. rewrite E in H0.
    destruct H0 as [t1 t2 Ht|]; [|constructor]. cbn [mbind option_bind].
    apply IH; [exact Ht|]. intros k u1 u2 Hk Hu.
    assert (E' : i + step + step * Z.of_nat k
                 = i + step * Z.of_nat (Datatypes.S k)) by lia.
    rewrite E'. apply Hbody; [lia | exact Hu].
Qed.

Lemma for_loop_rel body lo hi s1 s2 :
  R s1 s2 ->
  (forall i t1 t2, lo <= i < hi -> R t1 t2 ->
     option_Forall2 R (body i t1) (body i t2)) ->
  option_Forall2 R (for_loop lo hi body s1) (for_loop lo hi body s2).
Proof.
  intros Hs Hbody. unfold for_loop, for_step. rewrite trip_count_1.
  apply for_iter_rel; [exact Hs|]. intros k t1 t2 Hk Ht.
  apply Hbody; [lia | exact Ht].
Qed.
End RelatedLoops.

Section PartialOutput.
Import ImageBlurUnopt.
Implicit Types m input output : list (list Z).

Lemma mset_agree lo hi m1 m2 y x v :
  agree_on_rows lo hi m1 m2 -> lo <= y < hi ->
  option_Forall2 (agree_on_rows lo hi) (mset m1 y x v) (mset m2 y x v).
Proof.
  intros [Hlen Hrows] Hy. unfold mset. rewrite (Hrows y Hy).
  destruct (aget m2 y) as [row|]; [|constructor]. cbn [mbind option_bind].
  destruct (aset row x v) as [row'|]; [|constructor].
  cbn [mbind option_bind]. unfold aset. rewrite Hlen.
  destruct ((0 <=? y) && (y <? Z.of_nat (length m2))) eqn:Hin; [|constructor].
  constructor. apply andb_prop in Hin as [H0 H1].
  apply Z.leb_le in H0. apply Z.ltb_lt in H1.
  split; [now rewrite !length_insert|].
  intros r Hr. rewrite !aget_insert by lia.
  destruct (r =? y); [reflexivity | now apply Hrows].
Qed.

Lemma image_blur_agree input out1 out2 width height :
  agree_on_rows 2 (height - 2) out1 out2 ->
  option_Forall2 (agree_on_rows 2 (height - 2))
    (image_blur input out1 width height)
    (image_blur input out2 width height).
Proof.
  intros Hagree. unfold image_blur. change offset with 2.
  destruct (int_ok (width - 2)) as [xhi|]; [|constructor].
  cbn [mbind option_bind].
  destruct (int_ok (height - 2)) as [yhi|] eqn:Hyhi; [|constructor].
  cbn [mbind option_bind].
  assert (yhi = height - 2) as ->.
  { unfold int_ok in Hyhi. destruct (_ && _); congruence. }
  apply for_loop_rel; [exact Hagree|]. intros x t1 t2 _ Ht.
  apply for_loop_rel; [exact Ht|]. intros y u1 u2 Hy Hu.
  destruct (convolve input x y) as [sum|]; [|constructor].
  cbn [mbind option_bind]. now apply mset_agree.
Qed.

(** A row table whose rows are full or missing, completed with rows of
    zeros. *)
Lemma complete_rows output width height :
  0 < width -> Z.of_nat (length output) = height ->
  (forall k row, output !! k = Some row ->
     Z.of_nat (length row) = width \/ row = []) ->
  (forall r row, 2 <= r < height - 2 -> aget output r = Some row ->
     Z.of_nat (length row) = width) ->
  exists full,
    is_matrix height width full /\ agree_on_rows 2 (height - 2) output full.
Proof.
  intros Hw Hlen Hrows Hmid.
  set (fix_row := fun row : list Z =>
         match row with [] => replicate (Z.to_nat width) 0 | _ => row end).
  exists (map fix_row output). split; [split|split].
  - now rewrite length_map.
  - apply Forall_lookup_2. intros k row' Hk.
    rewrite list_lookup_fmap in Hk.
    destruct (output !! k) as [row|] eqn:Hrow; [|discriminate Hk].
    injection Hk as <-.
    destruct (Hrows k row Hrow) as [Hfull| ->].
    + destruct row; [simpl in Hfull; lia | exact Hfull].
    + simpl. rewrite length_replicate. lia.
  - now rewrite length_map.
  - intros r Hr. unfold aget. destruct (Z.leb_spec 0 r); [|reflexivity].
    rewrite list_lookup_fmap.
    destruct (output !! Z.to_nat r) as [row|] eqn:Hrow; [|reflexivity].
    pose proof (Hmid r row Hr) as Hfull. unfold aget in Hfull.
    destruct (Z.leb_spec 0 r); [|lia]. specialize (Hfull Hrow).
    destruct row; [simpl in Hfull; lia | reflexivity].
Qed.

(** [image_blur] needs the rows 2 to height - 3 of the output only. *)
Lemma image_blur_partial input output width height :
  is_matrix height width input ->
  0 < width <= INT_MAX -> 0 <= height <= INT_MAX ->
  Z.of_nat (length output) = height ->
  (forall k row, output !! k = Some row ->
     Z.of_nat (length row) = width \/ row = []) ->
  (forall r row, 2 <= r < height - 2 -> aget output r = Some row ->
     Z.of_nat (length row) = width) ->
  exists output',
    image_blur input output width height = Some output' /\
    forall x y, 2 <= x < width - 2 -> 2 <= y < height - 2 ->
      mget output' y x = Some (blur_value input x y).
Proof.
  intros Hin Hw Hh Hlen Hrows Hmid.
  destruct (complete_rows output width height (proj1 Hw) Hlen Hrows Hmid)
    as (full & Hfull & Hagree).
  destruct (image_blur_spec input full width height Hin Hfull
              ltac:(lia) Hh) as (full' & Hrun & Hcells).
  pose proof (image_blur_agree input output full width height Hagree) as Hrel.
  rewrite Hrun in Hrel.
  destruct (image_blur input output width height) as [output'|];
    [|inversion Hrel].
  exists output'. split; [reflexivity|].
  assert (Hag : agree_on_rows 2 (height - 2) output' full')
    by (inversion Hrel; assumption).
  intros x y Hx Hy. unfold mget. rewrite (proj2 Hag y Hy).
  change (mget full' y x = Some (blur_value input x y)).
  rewrite (cells_are_mget _ _ _ _ y x Hcells) by lia.
  unfold sel, interior. change offset with 2.
  destruct (Z.leb_spec 2 x); [|lia]. destruct (Z.ltb_spec x (width - 2)); [|lia].
  destruct (Z.leb_spec 2 y); [|lia]. destruct (Z.ltb_spec y (height - 2)); [|lia].
  reflexivity.
Qed.
End PartialOutput.

Section ImageMainFailures.
Import ImageBlurUnopt.

Lemma allocate_image_any width height w :
  0 <= width -> 0 <= height ->
  env_malloc (w_env w) (w_mallocs w) = true ->
  exists m,
    allocate_image width height w
    = Some (m, set_mallocs (w_mallocs w + Datatypes.S (Z.to_nat height)) w) /\
    Z.of_nat (length m) = height /\
    forall k row, m !! k = Some row ->
      Z.of_nat (length row)
      = if env_malloc (w_env w) (Datatypes.S (w_mallocs w) + k)
        then width else 0.
Proof.
  intros Hw Hh Hk. unfold allocate_image.
  rewrite (bindM_eq _ _ _ _ _ (malloc_ok _ height w Hk)). cbn [cells].
  destruct (alloc_rows_any junk_pixel height width
              (map (fun _ : nat => @nil Z) (seq 0 (Z.to_nat height)))
              (set_mallocs (Datatypes.S (w_mallocs w)) w) Hw)
    as (m & Hloop & Hm & Hrows).
  - rewrite length_map, length_seq. lia.
  - exists m. split; [|split; [exact Hm | exact Hrows]].
    rewrite Hloop. do 2 f_equal. world_eq.
Qed.

(** Initialising an image with a NULL row is undefined. *)
Lemma initialize_image_empty_row (m : list (list Z)) width height (i0 : nat) :
  0 < width -> (i0 < Z.to_nat height)%nat -> m !! i0 = Some [] ->
  initialize_image m width height = None.
Proof.
  intros Hw Hi0 Hrow. unfold initialize_image.
  apply for_loop_first_fails; [exact Hw|].
  apply (for_loop_fails (fun m => m !! i0 = Some []) _ 0 height m
           (Z.of_nat i0)); [lia | exact Hrow | |].
  - intros y m1 m2 Hbody Hq.
    destruct (int_ok (0 + y)) as [s|]; [|discriminate Hbody].
    exact (mset_keeps_empty_row _ _ _ _ _ _ Hbody Hq).
  - intros m1 Hq. destruct (int_ok (0 + Z.of_nat i0)) as [s|]; [|reflexivity].
    exact (mset_empty_row m1 i0 0 _ Hq).
Qed.

(** Blurring into an image one of whose rows 2 to height - 3 is NULL is
    undefined. *)
Lemma image_blur_empty_row (input output : list (list Z)) width height
    (i0 : nat) :
  is_matrix height width input ->
  4 < width <= INT_MAX -> height <= INT_MAX ->
  2 <= Z.of_nat i0 < height - 2 -> output !! i0 = Some [] ->
  image_blur input output width height = None.
Proof.
  intros Hin Hw Hh Hi0 Hrow. unfold image_blur. change offset with 2.
  rewrite !int_ok_in_range by (unfold INT_MIN, INT_MAX in *; lia).
  cbn [mbind option_bind].
  apply for_loop_first_fails; [lia|].
  apply (for_loop_fails (fun m => m !! i0 = Some []) _ 2 (height - 2) output
           (Z.of_nat i0) Hi0 Hrow).
  - intros y m1 m2 Hbody Hq.
    destruct (convolve input 2 y) as [s|]; [|discriminate Hbody].
    exact (mset_keeps_empty_row _ _ _ _ _ _ Hbody Hq).
  - intros m1 Hq.
    destruct (convolve_interior input width height 2 (Z.of_nat i0) Hin)
      as (s & ->); [lia | exact Hi0 |].
    exact (mset_empty_row m1 i0 2 _ Hq).
Qed.

Lemma image_malloc_calls : malloc_calls = 1026%nat.
Proof. reflexivity. Qed.

Lemma HEIGHT_nat : Z.to_nat HEIGHT = 512%nat.
Proof. reflexivity. Qed.

(** The run when only rows 0, 1, 510 or 511 of the output image may be
    missing. *)
Lemma image_main_border e :
  (forall k, (k < 1026)%nat ->
     k <> 514%nat -> k <> 515%nat -> k <> 1024%nat -> k <> 1025%nat ->
     env_malloc e k = true) ->
  exists w,
    main (init_world e) = Some (0, w) /\
    w_out w
    = [Printf ("Image blur completed in %f seconds" ++ nl)
         [Elapsed (seconds (env_clock e 0) (env_clock e 1)
                     (F64.of_Z (env_clocks_per_sec e)))];
       Printf ("Result checksum: output[100][100] = %d, output[200][200] = %d"
               ++ nl)
         [DataI 200; DataI 144]] /\
    w_clocks w = 2%nat.
Proof.
  intros Hok.
  assert (Hw : 0 <= WIDTH) by discriminate.
  assert (Hh : 0 <= HEIGHT) by discriminate.
  set (w0 := init_world e).
  destruct (allocate_image_ok WIDTH HEIGHT w0 Hw Hh) as (in0 & Hin0 & Hmin0).
  { intros j Hj. rewrite HEIGHT_nat in Hj.
    cbn [w0 w_mallocs w_env init_world] in *. apply Hok; lia. }
  set (w1 := set_mallocs _ w0) in Hin0.
  destruct (allocate_image_any WIDTH HEIGHT w1 Hw Hh)
    as (out0 & Hout0 & Hlen0 & Hrows0).
  { apply (Hok 513%nat); lia. }
  set (w2 := set_mallocs _ w1) in Hout0.
  assert (Hrows : forall k row, out0 !! k = Some row ->
            Z.of_nat (length row)
            = if env_malloc e (514 + k) then WIDTH else 0).
  { exact Hrows0. }
  clear Hrows0.
  destruct (initialize_image_spec in0 WIDTH HEIGHT Hmin0)
    as (input & Hinit & Hinput); [vm_compute; discriminate|].
  destruct (image_blur_partial input out0 WIDTH HEIGHT
              (cells_are_is_matrix _ _ _ _ Hinput))
    as (output & Hblur & Houtput).
  - split; [reflexivity | discriminate].
  - split; discriminate.
  - exact Hlen0.
  - intros k row Hrow. pose proof (Hrows k row Hrow) as Hl.
    destruct (env_malloc e (514 + k)); [left; exact Hl | right].
    destruct row; [reflexivity | simpl in Hl; lia].
  - intros r row Hr Hrow. unfold aget in Hrow.
    destruct (Z.leb_spec 0 r); [|lia].
    rewrite (Hrows _ row Hrow).
    unfold HEIGHT in Hr.
    rewrite (Hok (514 + Z.to_nat r)%nat) by lia. reflexivity.
  - assert (Hrd : forall x y, 2 <= x < WIDTH - 2 -> 2 <= y < HEIGHT - 2 ->
              convolve input x y = weighted_sum pattern x y).
    { intros x y Hx Hy. apply weighted_sum_ext. intros kx ky Hkx Hky.
      unfold pattern. apply Hinput; lia. }
    assert (H100 : mget output 100 100 = Some 200).
    { rewrite Houtput by (split; discriminate || reflexivity).
      unfold blur_value.
      rewrite Hrd by (split; discriminate || reflexivity).
      reflexivity. }
    assert (H200 : mget output 200 200 = Some 144).
    { rewrite Houtput by (split; discriminate || reflexivity).
      unfold blur_value.
      rewrite Hrd by (split; discriminate || reflexivity).
      reflexivity. }
    eexists. split; [|split].
    + unfold main. fold w0.
      rewrite (bindM_eq _ _ _ _ _ Hin0), (bindM_eq _ _ _ _ _ Hout0).
      rewrite (bindM_eq _ _ _ _ _ (liftM_eq _ _ w2 Hinit)).
      rewrite (bindM_eq clock _ w2 _ _ eq_refl).
      rewrite (bindM_eq _ _ _ _ _ (liftM_eq _ _ _ Hblur)).
      rewrite (bindM_eq clock _ _ _ _ eq_refl).
      rewrite (bindM_eq clocks_per_sec _ _ _ _ eq_refl).
      rewrite (bindM_eq (printf _ _) _ _ _ _ eq_refl).
      rewrite (bindM_eq _ _ _ _ _ (liftM_eq _ _ _ H100)).
      rewrite (bindM_eq _ _ _ _ _ (liftM_eq _ _ _ H200)).
      rewrite (bindM_eq (printf _ _) _ _ _ _ eq_refl).
      unfold free_image.
      rewrite !(bindM_eq (ret tt) _ _ _ _ eq_refl).
      unfold ret. reflexivity.
    + reflexivity.
    + reflexivity.
Qed.

(** The run when one of the other allocations fails. *)
Lemma image_main_undefined e k :
  (k < 1026)%nat ->
  k <> 514%nat -> k <> 515%nat -> k <> 1024%nat -> k <> 1025%nat ->
  env_malloc e k = false ->
  main (init_world e) = None.
Proof.
  intros Hk N1 N2 N3 N4 Hfail.
  assert (Hw : 0 <= WIDTH) by discriminate.
  assert (Hw' : 0 < WIDTH) by reflexivity.
  assert (Hh : 0 <= HEIGHT) by discriminate.
  assert (Hh' : 0 < HEIGHT) by reflexivity.
  unfold main. set (w0 := init_world e).
  (* the table and the rows of the input image *)
  destruct (env_malloc e 0) eqn:H0; cycle 1.
  { apply (bindM_None (allocate_image WIDTH HEIGHT)).
    now apply allocate_image_null. }
  destruct (allocate_image_any WIDTH HEIGHT w0 Hw Hh H0)
    as (in0 & Hin0 & HlA & HrA).
  rewrite (bindM_eq _ _ _ _ _ Hin0).
  set (w1 := set_mallocs _ w0).
  (* the table and the rows of the output image *)
  destruct (env_malloc e 513) eqn:H513; cycle 1.
  { apply (bindM_None (allocate_image WIDTH HEIGHT)).
    apply allocate_image_null; [exact Hh' | exact H513]. }
  destruct (allocate_image_any WIDTH HEIGHT w1 Hw Hh H513)
    as (out0 & Hout0 & HlB & HrB).
  rewrite (bindM_eq _ _ _ _ _ Hout0).
  set (w2 := set_mallocs _ w1).
  destruct (rows_all_or_empty HEIGHT WIDTH in0
              (fun j => env_malloc e (1 + j)) Hw' HlA HrA)
    as [[HallA HmA]|(i0 & Hi0 & _ & Hrow)]; cycle 1.
  { apply (bindM_None (lift (initialize_image in0 WIDTH HEIGHT))).
    unfold lift.
    now rewrite (initialize_image_empty_row in0 WIDTH HEIGHT i0 Hw' Hi0 Hrow). }
  destruct (initialize_image_spec in0 WIDTH HEIGHT HmA)
    as (input & Hinit & Hinput); [vm_compute; discriminate|].
  rewrite (bindM_eq _ _ _ _ _ (liftM_eq _ _ w2 Hinit)).
  rewrite (bindM_eq clock _ w2 _ _ eq_refl).
  (* the failing call is that of a row 2 to 509 of the output image *)
  rewrite HEIGHT_nat in HallA.
  assert (Hk' : (516 <= k < 1024)%nat).
  { destruct (Nat.eq_dec k 0%nat) as [->|]; [congruence|].
    destruct (Nat.eq_dec k 513%nat) as [->|]; [congruence|].
    destruct (Nat.lt_ge_cases k 513%nat); [|lia].
    specialize (HallA (k - 1)%nat ltac:(lia)).
    replace (1 + (k - 1))%nat with k in HallA by lia. congruence. }
  destruct (lookup_lt_is_Some_2 out0 (k - 514)%nat) as [row Hrow];
    [unfold HEIGHT in HlB; lia|].
  pose proof (HrB _ row Hrow) as Hl.
  change (Datatypes.S (w_mallocs w1)) with 514%nat in Hl.
  cbn [w_env w1 w0 set_mallocs init_world] in Hl.
  replace (514 + (k - 514))%nat with k in Hl by lia.
  rewrite Hfail in Hl.
  assert (row = []) as -> by (destruct row; [reflexivity | simpl in Hl; lia]).
  apply (bindM_None (lift (image_blur input out0 WIDTH HEIGHT))).
  unfold lift.
  rewrite (image_blur_empty_row input out0 WIDTH HEIGHT (k - 514)%nat
             (cells_are_is_matrix _ _ _ _ Hinput)); [reflexivity | | | | exact Hrow].
  - split; [reflexivity | discriminate].
  - discriminate.
  - unfold HEIGHT. lia.
Qed.
End ImageMainFailures.

(** X22 (main, allocate_image, initialize_image and image_blur,
    kernels/image_blur_unopt.c): the program tests none of its 1026
    allocations.  Those of rows 0, 1, 510 and 511 of the output image (calls
    514, 515, 1024 and 1025, counted from 0) may fail without any effect:
    these rows are never accessed, and the run prints the same two lines and
    returns 0.  A failure of any other call makes the program store through
    a NULL pointer: the run is undefined. *)
Theorem image_main_allocations (e : env) :
  ((forall k, (k < ImageBlurUnopt.malloc_calls)%nat ->
      k <> 514%nat -> k <> 515%nat -> k <> 1024%nat -> k <> 1025%nat ->
      env_malloc e k = true) ->
   run image_blur_unopt e
   = Some (0,
       [Printf ("Image blur completed in %f seconds" ++ nl)
          [Elapsed (ImageBlurUnopt.seconds (env_clock e 0) (env_clock e 1)
                      (F64.of_Z (env_clocks_per_sec e)))];
        Printf ("Result checksum: output[100][100] = %d, output[200][200] = %d"
                ++ nl)
          [DataI 200; DataI 144]])) /\
  ((exists k, (k < ImageBlurUnopt.malloc_calls)%nat /\
      k <> 514%nat /\ k <> 515%nat /\ k <> 1024%nat /\ k <> 1025%nat /\
      env_malloc e k = false) ->
   run image_blur_unopt e = None).
Proof.
  rewrite image_malloc_calls. split.
  - intros Hok. destruct (image_main_border e Hok) as (w & Hmain & Hout & _).
    now rewrite (run_of_main image_blur_unopt e 0 w Hmain), Hout.
  - intros (k & Hk & N1 & N2 & N3 & N4 & Hfail).
    unfold run. cbn [main_of].
    now rewrite (image_main_undefined e k Hk N1 N2 N3 N4 Hfail).
Qed.

Lemma image_main_allocations_witness :
  env_malloc env_border 514 = false /\
  run image_blur_unopt env_border
  = Some (0,
      [Printf ("Image blur completed in %f seconds" ++ nl)
         [Elapsed (ImageBlurUnopt.seconds (env_clock env_border 0)
                     (env_clock env_border 1)
                     (F64.of_Z (env_clocks_per_sec env_border)))];
       Printf ("Result checksum: output[100][100] = %d, output[200][200] = %d"
               ++ nl)
         [DataI 200; DataI 144]]).
Proof.
  split; [reflexivity|].
  apply (proj1 (image_main_allocations env_border)).
  intros k _ Hk _ _ _. cbn [env_malloc env_border].
  destruct (Nat.eqb_spec k 514); [contradiction | reflexivity].
Defined.

(** ** The two allocators *)

(** X23 (allocate_matrix, kernels/matrix_mult_unopt.c, and allocate_image,
    kernels/image_blur_unopt.c): the allocators never report a failure.
    When the [malloc] of the row table fails and there is at least one row,
    the first row pointer is stored through NULL: undefined.  When it
    succeeds, the function makes one more call of [malloc] per row and
    returns a table of the requested number of rows in which the row of
    every failed call is a NULL pointer (no cell behind it) and every other
    row has the requested number of cells. *)
Theorem allocators_report_nothing (n width height : Z) (w : world) :
  (0 < n -> env_malloc (w_env w) (w_mallocs w) = false ->
   MatrixMultUnopt.allocate_matrix n w = None) /\
  (0 <= n -> env_malloc (w_env w) (w_mallocs w) = true ->
   exists m,
     MatrixMultUnopt.allocate_matrix n w
     = Some (m, set_mallocs (w_mallocs w + Datatypes.S (Z.to_nat n)) w) /\
     Z.of_nat (length m) = n /\
     forall k row, m !! k = Some row ->
       Z.of_nat (length row)
       = if env_malloc (w_env w) (Datatypes.S (w_mallocs w) + k)
         then n else 0) /\
  (0 < height -> env_malloc (w_env w) (w_mallocs w) = false ->
   ImageBlurUnopt.allocate_image width height w = None) /\
  (0 <= width -> 0 <= height -> env_malloc (w_env w) (w_mallocs w) = true ->
   exists m,
     ImageBlurUnopt.allocate_image width height w
     = Some (m, set_mallocs (w_mallocs w + Datatypes.S (Z.to_nat height)) w) /\
     Z.of_nat (length m) = height /\
     forall k row, m !! k = Some row ->
       Z.of_nat (length row)
       = if env_malloc (w_env w) (Datatypes.S (w_mallocs w) + k)
         then width else 0).
Proof.
  split; [|split; [|split]].
  - apply allocate_matrix_null.
  - apply allocate_matrix_any.
  - apply allocate_image_null.
  - apply allocate_image_any.
Qed.

Lemma allocators_report_nothing_witness :
  exists m,
    MatrixMultUnopt.allocate_matrix 2 (init_world env_oom)
    = Some (m, set_mallocs (0 + 3) (init_world env_oom)) /\
    Z.of_nat (length m) = 2 /\
    forall k row, m !! k = Some row ->
      Z.of_nat (length row)
      = if env_malloc env_oom (1 + k) then 2 else 0.
Proof.
  apply (proj1 (proj2 (allocators_report_nothing 2 0 0 (init_world env_oom))));
    [lia | reflexivity].
Defined.
